(** * Frame pacing and GPU/CPU synchronisation of [Renderer]

    A shallow embedding of [engine/src/renderer/Renderer.cpp]: the per-frame
    resource pool, the fence bookkeeping of [BeginFrame] / [EndFrame], the
    waits of [WaitForFrame] and the pool recreation of [OnReconfigure].

    The renderer's own fields are the record [Renderer].  Everything the
    methods call into (Direct3D 12 fences, Win32 events, the command list,
    the queue, the swap chain, the resource manager) lives in [World]; every
    call that has an effect is appended to the world's call log, and the
    results that only the collaborators decide (a failing [Close], an
    HRESULT, the back buffer the presentation engine hands out next) are
    read from an [Env]. *)

From Stdlib Require Import ZArith Lia Sorted.
From stdpp Require Import base list gmap.

Local Open Scope Z_scope.

(** ** Machine integers and result codes *)

(** [UINT64] arithmetic: the only arithmetic the file does on a 64-bit value
    is the post-increment of [m_nextFenceValue]. *)
Definition UINT64_MOD : Z := 2 ^ 64.
Definition uint64_incr (v : Z) : Z := (v + 1) mod UINT64_MOD.

(** [UINT] values (buffer counts, frame indices) are never computed with:
    they are compared and used as indices, so they are naturals. *)

(** [HRESULT] is a signed 32-bit code; [FAILED(hr)] is [hr < 0]. *)
Definition FAILED (hr : Z) : bool := hr <? 0.
Definition S_OK : Z := 0.
Definition E_FAIL : Z := -2147467259.

(** ** The renderer's data *)

(** [FrameResources], one per swap-chain buffer.  The three owning members
    may be null: [std::unique_ptr], [ComPtr] and [HANDLE].  Objects are
    named by the number the world gave them at creation. *)
Record FrameResources : Type := mkFrameResources {
  commandAllocator : option nat;
  frameFence : option nat;
  fenceEvent : option nat;
  fenceValue : Z
}.

(** Modelled from the spec: the declaration of [FrameResources] is in
    [Renderer.h].  A slot that [std::vector::resize] value-initialises owns
    nothing and has [fenceValue = 0], "never submitted". *)
Definition FrameResources_default : FrameResources :=
  {| commandAllocator := None; frameFence := None;
     fenceEvent := None; fenceValue := 0 |}.

(** The swap chain, as far as the renderer reads it. *)
Record SwapChain : Type := mkSwapChain {
  sc_bufferCount : nat;
  sc_backBufferIndex : nat
}.

Record Renderer : Type := mkRenderer {
  m_swapChain : option SwapChain;
  m_frameResources : list FrameResources;
  m_currentFrameIndex : nat;
  m_nextFenceValue : Z
}.

(** Modelled from the spec: the member initialiser of [m_nextFenceValue] is
    in [Renderer.h]; the counter "starts at 1 (0 reserved as unsubmitted
    sentinel)". *)
Definition m_nextFenceValue_initial : Z := 1.

(** ** The collaborators *)

Inductive ResourceState : Type := STATE_PRESENT | STATE_RENDER_TARGET.

(** The [printf] sites of the file. *)
Inductive Diagnostic : Type :=
| Failed_create_allocator (frame : nat)
| Failed_create_fence (frame : nat) (hr : Z)
| Failed_create_fence_event (frame : nat)
| Failed_reset_allocator (frame : nat)
| Failed_reset_command_list (frame : nat)
| Failed_close_command_list (frame : nat)
| Failed_signal_fence (frame : nat) (hr : Z)
| SetEventOnCompletion_failed (frame : nat) (hr : Z)
| Failed_reconfigure_swap_chain
| Failed_reinitialize_frame_resources.

(** The calls with an effect outside the renderer, in program order. *)
Inductive Call : Type :=
| ResourceManager_BeginFrame
| ResourceManager_EndFrame
| CommandAllocator_Initialize (alloc : nat) (ok : bool)
| CreateFence (fence : option nat) (hr : Z)
| CreateEvent (event : option nat)
| CommandAllocator_Reset (alloc : nat) (ok : bool)
| CommandList_Reset (alloc : nat) (ok : bool)
| CommandList_TransitionBarrier (backBuffer : nat) (before after : ResourceState)
| CommandList_Close (ok : bool)
| ExecuteCommandLists
| Queue_Signal (fence : option nat) (value : Z) (hr : Z)
| Fence_SetEventOnCompletion (fence : nat) (value : Z) (event : nat) (hr : Z)
| WaitForSingleObject (event : nat)
| SwapChain_Present (vsync : bool) (ok : bool)
| SwapChain_Reconfigure (width height bufferCount : nat) (ok : bool)
| Release_FrameResources (frame : FrameResources)
| printf (d : Diagnostic).

(** The world of the collaborators.
    - [gpu_fences]: the live fences and their completed value;
    - [armed]: the pending [SetEventOnCompletion] registrations
      (fence, target, event);
    - [signaled]: the events in the signaled state;
    - [live_allocators]: the command allocators that exist;
    - [next_handle]: the name of the next object created;
    - [calls]: the call log, oldest first. *)
Record World : Type := mkWorld {
  gpu_fences : gmap nat Z;
  armed : list (nat * Z * nat);
  signaled : gset nat;
  live_allocators : gset nat;
  next_handle : nat;
  calls : list Call
}.

Definition World_empty : World :=
  {| gpu_fences := ∅; armed := []; signaled := ∅;
     live_allocators := ∅; next_handle := 0%nat; calls := [] |}.

(** What the collaborators answer during one call of a renderer method. *)
Record Env : Type := mkEnv {
  device_initialize_ok : bool;
  command_manager_initialize_ok : bool;
  resource_manager_initialize_ok : bool;
  swapchain_created : SwapChain;
  swapchain_initialized : bool;
  command_list_initialize_ok : bool;
  allocator_initialize_ok : nat → bool;
  create_fence_hr : nat → Z;
  create_event_ok : nat → bool;
  allocator_reset_ok : bool;
  command_list_reset_ok : bool;
  command_list_close_ok : bool;
  signal_hr : Z;
  set_event_hr : nat → Z;
  present_ok : bool;
  presented : SwapChain;
  reconfigure_ok : bool;
  reconfigured : SwapChain
}.

Record State : Type := mkState {
  this : Renderer;
  world : World
}.

Definition set_world (w : World) (st : State) : State :=
  {| this := this st; world := w |}.
Definition set_this (r : Renderer) (st : State) : State :=
  {| this := r; world := world st |}.

(** ** Computations that may park the calling thread

    A method runs until it returns ([Done]), until the thread blocks in
    [WaitForSingleObject (event, INFINITE)] ([Park], with what remains to be
    run once the event is signaled), or until it leaves defined behaviour
    ([Fault]: an element access out of range, a null pointer or a null
    handle used). *)
Inductive Res (A : Type) : Type :=
| Done (a : A) (st : State)
| Park (event : nat) (st : State) (k : State → Res A)
| Fault.
Arguments Done {A} a st.
Arguments Park {A} event st k.
Arguments Fault {A}.

Definition M (A : Type) : Type := State → Res A.

Definition ret {A} (a : A) : M A := fun st => Done a st.

Fixpoint bind_res {A B} (r : Res A) (f : A → M B) : Res B :=
  match r with
  | Done a st => f a st
  | Park e st k => Park e st (fun st' => bind_res (k st') f)
  | Fault => Fault
  end.

Definition bind {A B} (m : M A) (f : A → M B) : M B :=
  fun st => bind_res (m st) f.

Notation "x <- m ;; k" := (bind m (fun x => k))
  (at level 100, m at next level, right associativity).
Notation "m ;;; k" := (bind m (fun _ => k))
  (at level 100, right associativity).

Definition get_this : M Renderer := fun st => Done (this st) st.
Definition get_world : M World := fun st => Done (world st) st.
Definition put_this (r : Renderer) : M unit := fun st => Done tt (set_this r st).
Definition put_world (w : World) : M unit := fun st => Done tt (set_world w st).
Definition modify_this (f : Renderer → Renderer) : M unit :=
  fun st => Done tt (set_this (f (this st)) st).
Definition modify_world (f : World → World) : M unit :=
  fun st => Done tt (set_world (f (world st)) st).

Definition log_call (c : Call) (w : World) : World :=
  {| gpu_fences := gpu_fences w; armed := armed w; signaled := signaled w;
     live_allocators := live_allocators w; next_handle := next_handle w;
     calls := calls w ++ [c] |}.

Definition call (c : Call) : M unit := modify_world (log_call c).

(** Reading through a pointer, a handle or a vector element. *)
Definition deref {A} (o : option A) : M A :=
  fun st => match o with Some a => Done a st | None => Fault end.

Fixpoint for_each {A} (l : list A) (body : A → M unit) : M unit :=
  match l with
  | [] => ret tt
  | x :: l' => body x ;;; for_each l' body
  end.

(** *** Fences and events *)

(** [ID3D12Fence::GetCompletedValue]. *)
Definition GetCompletedValue (fence : nat) : M Z :=
  w <- get_world ;; deref (gpu_fences w !! fence).

Definition arm (fence : nat) (value : Z) (event : nat) (w : World) : World :=
  {| gpu_fences := gpu_fences w;
     armed := armed w ++ [(fence, value, event)];
     signaled := signaled w;
     live_allocators := live_allocators w; next_handle := next_handle w;
     calls := calls w |}.

Definition set_signaled (s : gset nat) (w : World) : World :=
  {| gpu_fences := gpu_fences w; armed := armed w; signaled := s;
     live_allocators := live_allocators w; next_handle := next_handle w;
     calls := calls w |}.

(** [ID3D12Fence::SetEventOnCompletion (value, event)]: when the call
    succeeds the event is set once the fence has reached [value], at once
    if it already has. *)
Definition SetEventOnCompletion (fence : nat) (value : Z) (event : nat)
    (hr : Z) : M unit :=
  call (Fence_SetEventOnCompletion fence value event hr) ;;;
  if FAILED hr then ret tt
  else
    completed <- GetCompletedValue fence ;;
    if value <=? completed
    then modify_world (fun w => set_signaled (signaled w ∪ {[event]}) w)
    else modify_world (arm fence value event).

(** [WaitForSingleObject (event, INFINITE)] on an auto-reset event
    ([CreateEvent (nullptr, FALSE, FALSE, nullptr)]): the thread goes on only
    when the event is signaled, and going on resets it. *)
Definition consume (event : nat) : M unit :=
  modify_world (fun w => set_signaled (signaled w ∖ {[event]}) w).

Definition WaitForSingleObject_INFINITE (event : nat) : M unit :=
  call (WaitForSingleObject event) ;;;
  fun st =>
    if decide (event ∈ signaled (world st))
    then consume event st
    else Park event st (consume event).

(** The GPU side.  [gpu_signal fence value]: the fence reaches [value]; the
    registrations it satisfies fire and set their events. *)
Definition fires (fence : nat) (value : Z) (a : nat * Z * nat) : bool :=
  (a.1.1 =? fence)%nat && (a.1.2 <=? value).

Definition gpu_signal (fence : nat) (value : Z) (w : World) : World :=
  match gpu_fences w !! fence with
  | None => w
  | Some _ =>
    {| gpu_fences := <[fence := value]> (gpu_fences w);
       armed := List.filter (fun a => negb (fires fence value a)) (armed w);
       signaled := signaled w ∪
         list_to_set (snd <$> List.filter (fires fence value) (armed w));
       live_allocators := live_allocators w; next_handle := next_handle w;
       calls := calls w |}
  end.

(** A GPU completion delivered to a configuration: a parked thread whose
    event is now signaled goes on until it returns or parks again. *)
Definition deliver {A} (fence : nat) (value : Z) (res : Res A) : Res A :=
  match res with
  | Done a st => Done a (set_world (gpu_signal fence value (world st)) st)
  | Park e st k =>
    let st' := set_world (gpu_signal fence value (world st)) st in
    if decide (e ∈ signaled (world st')) then k st' else Park e st' k
  | Fault => Fault
  end.

Definition deliver_all {A} (ds : list (nat * Z)) (res : Res A) : Res A :=
  fold_left (fun r d => deliver d.1 d.2 r) ds res.

(** *** Object creation and destruction *)

Definition fresh_handle : M nat :=
  w <- get_world ;;
  put_world {| gpu_fences := gpu_fences w; armed := armed w;
               signaled := signaled w; live_allocators := live_allocators w;
               next_handle := S (next_handle w); calls := calls w |} ;;;
  ret (next_handle w).

Definition set_live_allocators (s : gset nat) (w : World) : World :=
  {| gpu_fences := gpu_fences w; armed := armed w; signaled := signaled w;
     live_allocators := s; next_handle := next_handle w; calls := calls w |}.

Definition set_gpu_fences (m : gmap nat Z) (w : World) : World :=
  {| gpu_fences := m; armed := armed w; signaled := signaled w;
     live_allocators := live_allocators w; next_handle := next_handle w;
     calls := calls w |}.

(** Destroying what an owning member holds. *)
Definition destroy_allocator (a : option nat) (w : World) : World :=
  match a with
  | Some id => set_live_allocators (live_allocators w ∖ {[id]}) w
  | None => w
  end.

Definition destroy_fence (f : option nat) (w : World) : World :=
  match f with
  | Some id => set_gpu_fences (delete id (gpu_fences w)) w
  | None => w
  end.

(** The destructor of one [FrameResources]. *)
Definition destroy_frame (frame : FrameResources) (w : World) : World :=
  log_call (Release_FrameResources frame)
    (destroy_fence (frameFence frame)
       (destroy_allocator (commandAllocator frame) w)).

Definition destroy_frames (frames : list FrameResources) (w : World) : World :=
  fold_left (fun w frame => destroy_frame frame w) frames w.

(** [std::make_unique<CommandAllocator>()]. *)
Definition make_unique_CommandAllocator : M nat :=
  id <- fresh_handle ;;
  modify_world (fun w => set_live_allocators (live_allocators w ∪ {[id]}) w) ;;;
  ret id.

(** [ID3D12Device::CreateFence (0, ...)]: a fence whose completed value is 0,
    or nothing when the call fails. *)
Definition Device_CreateFence (hr : Z) : M (option nat) :=
  if FAILED hr then call (CreateFence None hr) ;;; ret None
  else
    id <- fresh_handle ;;
    modify_world (fun w => set_gpu_fences (<[id := 0]> (gpu_fences w)) w) ;;;
    call (CreateFence (Some id) hr) ;;;
    ret (Some id).

(** [CreateEvent (nullptr, FALSE, FALSE, nullptr)]: a non-signaled event, or
    a null handle. *)
Definition Win32_CreateEvent (ok : bool) : M (option nat) :=
  if ok then id <- fresh_handle ;; call (CreateEvent (Some id)) ;;; ret (Some id)
  else call (CreateEvent None) ;;; ret None.

(** ** The methods of [Renderer] *)

Definition with_swapChain (sc : option SwapChain) (r : Renderer) : Renderer :=
  {| m_swapChain := sc; m_frameResources := m_frameResources r;
     m_currentFrameIndex := m_currentFrameIndex r;
     m_nextFenceValue := m_nextFenceValue r |}.
Definition with_frameResources (l : list FrameResources) (r : Renderer) : Renderer :=
  {| m_swapChain := m_swapChain r; m_frameResources := l;
     m_currentFrameIndex := m_currentFrameIndex r;
     m_nextFenceValue := m_nextFenceValue r |}.
Definition with_currentFrameIndex (i : nat) (r : Renderer) : Renderer :=
  {| m_swapChain := m_swapChain r; m_frameResources := m_frameResources r;
     m_currentFrameIndex := i; m_nextFenceValue := m_nextFenceValue r |}.
Definition with_nextFenceValue (v : Z) (r : Renderer) : Renderer :=
  {| m_swapChain := m_swapChain r; m_frameResources := m_frameResources r;
     m_currentFrameIndex := m_currentFrameIndex r; m_nextFenceValue := v |}.

Definition with_commandAllocator (a : option nat) (f : FrameResources) :=
  {| commandAllocator := a; frameFence := frameFence f;
     fenceEvent := fenceEvent f; fenceValue := fenceValue f |}.
Definition with_frameFence (x : option nat) (f : FrameResources) :=
  {| commandAllocator := commandAllocator f; frameFence := x;
     fenceEvent := fenceEvent f; fenceValue := fenceValue f |}.
Definition with_fenceEvent (e : option nat) (f : FrameResources) :=
  {| commandAllocator := commandAllocator f; frameFence := frameFence f;
     fenceEvent := e; fenceValue := fenceValue f |}.
Definition with_fenceValue (v : Z) (f : FrameResources) :=
  {| commandAllocator := commandAllocator f; frameFence := frameFence f;
     fenceEvent := fenceEvent f; fenceValue := v |}.

(** [m_frameResources[i]] read, and written through the reference. *)
Definition frame_at (i : nat) : M FrameResources :=
  r <- get_this ;; deref (m_frameResources r !! i).

Definition update_frame (i : nat) (f : FrameResources → FrameResources) : M unit :=
  frame <- frame_at i ;;
  modify_this (fun r => with_frameResources (<[i := f frame]> (m_frameResources r)) r).

(** [std::vector::resize]: the elements past the new size are destroyed,
    the new ones are value-initialised. *)
Definition vector_resize (n : nat) : M unit :=
  r <- get_this ;;
  let old := m_frameResources r in
  modify_world (destroy_frames (drop n old)) ;;;
  put_this (with_frameResources
              (take n old ++ replicate (n - length old) FrameResources_default) r).

(** The body of the loop of [InitializeFrameResources], lines 60-87; it
    answers [false] where the source returns [false]. *)
Definition InitializeFrameResources_body (env : Env) (i : nat) : M bool :=
  frame <- frame_at i ;;
  modify_world (destroy_allocator (commandAllocator frame)) ;;;
  alloc <- make_unique_CommandAllocator ;;
  update_frame i (with_commandAllocator (Some alloc)) ;;;
  call (CommandAllocator_Initialize alloc (allocator_initialize_ok env i)) ;;;
  if negb (allocator_initialize_ok env i)
  then call (printf (Failed_create_allocator i)) ;;; ret false
  else
    (* IID_PPV_ARGS (&frame.frameFence) releases what the ComPtr held *)
    modify_world (destroy_fence (frameFence frame)) ;;;
    update_frame i (with_frameFence None) ;;;
    let hr := create_fence_hr env i in
    fence <- Device_CreateFence hr ;;
    update_frame i (with_frameFence fence) ;;;
    if FAILED hr
    then call (printf (Failed_create_fence i hr)) ;;; ret false
    else
      event <- Win32_CreateEvent (create_event_ok env i) ;;
      update_frame i (with_fenceEvent event) ;;;
      match event with
      | None => call (printf (Failed_create_fence_event i)) ;;; ret false
      | Some _ => ret true
      end.

Fixpoint InitializeFrameResources_loop (env : Env) (i n : nat) : M bool :=
  match n with
  | O => ret true
  | S n' =>
    ok <- InitializeFrameResources_body env i ;;
    if ok then InitializeFrameResources_loop env (S i) n' else ret false
  end.

Definition InitializeFrameResources (env : Env) : M bool :=
  r <- get_this ;;
  sc <- deref (m_swapChain r) ;;
  let bufferCount := sc_bufferCount sc in
  vector_resize bufferCount ;;;
  InitializeFrameResources_loop env 0 bufferCount.

(** [m_frameResources.clear()]. *)
Definition ReleaseFrameResources : M unit :=
  r <- get_this ;;
  modify_world (destroy_frames (m_frameResources r)) ;;;
  put_this (with_frameResources [] r).

Definition WaitForFrame (env : Env) (frameIndex : nat) : M unit :=
  r <- get_this ;;
  if decide (length (m_frameResources r) ≤ frameIndex)%nat then ret tt
  else
    frame <- frame_at frameIndex ;;
    if fenceValue frame =? 0 then ret tt
    else
      fence <- deref (frameFence frame) ;;
      completed <- GetCompletedValue fence ;;
      if fenceValue frame <=? completed then ret tt
      else
        event <- deref (fenceEvent frame) ;;
        let hr := set_event_hr env frameIndex in
        SetEventOnCompletion fence (fenceValue frame) event hr ;;;
        if FAILED hr
        then call (printf (SetEventOnCompletion_failed frameIndex hr))
        else WaitForSingleObject_INFINITE event.

Definition WaitForAllFrames (env : Env) : M unit :=
  r <- get_this ;;
  for_each (seq 0 (length (m_frameResources r))) (WaitForFrame env).

Definition IsFrameComplete (frameIndex : nat) : M bool :=
  r <- get_this ;;
  if decide (length (m_frameResources r) ≤ frameIndex)%nat then ret true
  else
    frame <- frame_at frameIndex ;;
    if fenceValue frame =? 0 then ret true
    else
      fence <- deref (frameFence frame) ;;
      completed <- GetCompletedValue fence ;;
      ret (fenceValue frame <=? completed).

(** [BeginFrame] answers [Some tt] for [m_commandList.get ()] and [None]
    for [nullptr].  The reference bound at line 102 is first read at
    line 108.  [BeginFrame_record] is lines 107-123, what follows the
    wait. *)
Definition BeginFrame_record (env : Env) (index : nat) : M (option unit) :=
  currentFrame <- frame_at index ;;
  alloc <- deref (commandAllocator currentFrame) ;;
  call (CommandAllocator_Reset alloc (allocator_reset_ok env)) ;;;
  if negb (allocator_reset_ok env)
  then call (printf (Failed_reset_allocator index)) ;;; ret None
  else
    call (CommandList_Reset alloc (command_list_reset_ok env)) ;;;
    if negb (command_list_reset_ok env)
    then call (printf (Failed_reset_command_list index)) ;;; ret None
    else
      call (CommandList_TransitionBarrier index STATE_PRESENT STATE_RENDER_TARGET) ;;;
      ret (Some tt).

Definition BeginFrame (env : Env) : M (option unit) :=
  call ResourceManager_BeginFrame ;;;
  r <- get_this ;;
  sc <- deref (m_swapChain r) ;;
  let index := sc_backBufferIndex sc in
  modify_this (with_currentFrameIndex index) ;;;
  WaitForFrame env index ;;;
  BeginFrame_record env index.

(** [EndFrame (config)]; of [config] only [vsync] is read.  The reference
    bound at line 127 is first used at line 144. *)
Definition EndFrame (env : Env) (vsync : bool) : M unit :=
  r <- get_this ;;
  sc <- deref (m_swapChain r) ;;
  call (CommandList_TransitionBarrier (sc_backBufferIndex sc)
          STATE_RENDER_TARGET STATE_PRESENT) ;;;
  call (CommandList_Close (command_list_close_ok env)) ;;;
  if negb (command_list_close_ok env)
  then call (printf (Failed_close_command_list (m_currentFrameIndex r)))
  else
    call ExecuteCommandLists ;;;
    let currentFenceValue := m_nextFenceValue r in
    modify_this (with_nextFenceValue (uint64_incr currentFenceValue)) ;;;
    update_frame (m_currentFrameIndex r) (with_fenceValue currentFenceValue) ;;;
    currentFrame <- frame_at (m_currentFrameIndex r) ;;
    let hr := signal_hr env in
    call (Queue_Signal (frameFence currentFrame) currentFenceValue hr) ;;;
    (if FAILED hr
     then call (printf (Failed_signal_fence (m_currentFrameIndex r) hr))
     else ret tt) ;;;
    call ResourceManager_EndFrame ;;;
    call (SwapChain_Present vsync (present_ok env)) ;;;
    modify_this (with_swapChain (Some (presented env))).

(** [OnReconfigure].  A failed [SwapChain::Reconfigure] leaves the swap
    chain as it was; a successful one leaves it as the environment says.
    [OnReconfigure_recreate] is lines 219-234, what follows the drain. *)
Definition OnReconfigure_recreate (env : Env) (width height bufferCount : nat)
    : M unit :=
  r <- get_this ;;
  sc <- deref (m_swapChain r) ;;
  let oldBufferCount := sc_bufferCount sc in
  let newBufferCount :=
    if (bufferCount =? 0)%nat then oldBufferCount else bufferCount in
  call (SwapChain_Reconfigure width height bufferCount (reconfigure_ok env)) ;;;
  if negb (reconfigure_ok env)
  then call (printf Failed_reconfigure_swap_chain)
  else
    modify_this (with_swapChain (Some (reconfigured env))) ;;;
    if decide (newBufferCount ≠ oldBufferCount)
    then
      ReleaseFrameResources ;;;
      ok <- InitializeFrameResources env ;;
      if negb ok
      then call (printf Failed_reinitialize_frame_resources)
      else ret tt
    else ret tt.

Definition OnReconfigure (env : Env) (width height bufferCount : nat) : M unit :=
  r <- get_this ;;
  match m_swapChain r with
  | None => ret tt
  | Some _ =>
    WaitForAllFrames env ;;;
    OnReconfigure_recreate env width height bufferCount
  end.

(** The constructor, lines 3-46: what it throws, or the renderer. *)
Inductive runtime_error : Type :=
| Failed_to_initialize_device
| Failed_to_create_command_queues
| Failed_to_initialize_resource_manager
| Failed_to_create_swap_chain
| Failed_to_initialize_frame_resources
| Failed_to_create_command_list.

Definition Renderer_unconstructed (currentFrameIndex0 : nat) : Renderer :=
  {| m_swapChain := None; m_frameResources := [];
     m_currentFrameIndex := currentFrameIndex0;
     m_nextFenceValue := m_nextFenceValue_initial |}.

Definition Renderer_ctor (env : Env) : M (option runtime_error) :=
  if negb (device_initialize_ok env) then ret (Some Failed_to_initialize_device)
  else if negb (command_manager_initialize_ok env)
  then ret (Some Failed_to_create_command_queues)
  else if negb (resource_manager_initialize_ok env)
  then ret (Some Failed_to_initialize_resource_manager)
  else
    modify_this (with_swapChain (Some (swapchain_created env))) ;;;
    if negb (swapchain_initialized env) then ret (Some Failed_to_create_swap_chain)
    else
      ok <- InitializeFrameResources env ;;
      if negb ok then ret (Some Failed_to_initialize_frame_resources)
      else
        _ <- frame_at 0 ;;
        if negb (command_list_initialize_ok env)
        then ret (Some Failed_to_create_command_list)
        else ret None.


(** Construction from scratch; [currentFrameIndex0] is what
    [m_currentFrameIndex] holds before the first [BeginFrame]. *)
Definition construct (env : Env) (currentFrameIndex0 : nat) (w : World)
    : Res (option runtime_error) :=
  Renderer_ctor env {| this := Renderer_unconstructed currentFrameIndex0; world := w |}.

(** ** Runs and what holds along them *)

(** What the GPU does while the thread is parked or between two calls. *)
Definition gpu_run (ds : list (nat * Z)) (w : World) : World :=
  fold_left (fun w d => gpu_signal d.1 d.2 w) ds w.

(** [always P res]: [P] holds of the state in which the computation
    returns and of every state in which it parks, whatever the GPU completes
    in between. *)
Fixpoint always {A} (P : State → Prop) (res : Res A) : Prop :=
  match res with
  | Done _ st => P st
  | Park _ st k =>
    P st ∧ ∀ ds, always P (k (set_world (gpu_run ds (world st)) st))
  | Fault => True
  end.

(** [on_return Q res]: [Q] holds of the result and the state whenever the
    computation returns. *)
Fixpoint on_return {A} (Q : A → State → Prop) (res : Res A) : Prop :=
  match res with
  | Done a st => Q a st
  | Park _ st k =>
    ∀ ds, on_return Q (k (set_world (gpu_run ds (world st)) st))
  | Fault => True
  end.

(** The values [EndFrame] has signaled, oldest first. *)
Definition drawn_value (c : Call) : option Z :=
  match c with Queue_Signal _ v _ => Some v | _ => None end.
Definition drawn (w : World) : list Z := omap drawn_value (calls w).

(** The caller's frame, as section 4.3 of the specification has it: a
    frame whose [BeginFrame] answers [nullptr] is skipped. *)
Definition render_frame (env : Env) (vsync : bool) : M unit :=
  commandList <- BeginFrame env ;;
  match commandList with
  | Some _ => EndFrame env vsync
  | None => ret tt
  end.

Definition render_frames (envs : list Env) (vsync : bool) : M unit :=
  for_each envs (fun env => render_frame env vsync).

(** The lifetime of a renderer: the calls its owner makes, and the
    completions the GPU delivers.  A call made while the thread is parked
    cannot happen and is skipped. *)
Inductive Op : Type :=
| Op_BeginFrame (env : Env)
| Op_EndFrame (env : Env) (vsync : bool)
| Op_WaitForAllFrames (env : Env)
| Op_IsFrameComplete (frameIndex : nat)
| Op_OnReconfigure (env : Env) (width height bufferCount : nat)
| Op_gpu_signal (fence : nat) (value : Z).

Definition forget {A} (m : M A) : M unit := _ <- m ;; ret tt.

Definition run_op (op : Op) (cfg : Res unit) : Res unit :=
  match op, cfg with
  | Op_gpu_signal f v, _ => deliver f v cfg
  | _, Park _ _ _ => cfg
  | _, Fault => Fault
  | Op_BeginFrame env, Done _ st => forget (BeginFrame env) st
  | Op_EndFrame env vsync, Done _ st => EndFrame env vsync st
  | Op_WaitForAllFrames env, Done _ st => WaitForAllFrames env st
  | Op_IsFrameComplete i, Done _ st => forget (IsFrameComplete i) st
  | Op_OnReconfigure env w h n, Done _ st => OnReconfigure env w h n st
  end.

Definition lifetime (ops : list Op) (st : State) : Res unit :=
  fold_left (fun cfg op => run_op op cfg) ops (Done tt st).

(** Several calls appended to the log at once. *)
Definition log_calls (cs : list Call) (w : World) : World :=
  {| gpu_fences := gpu_fences w; armed := armed w; signaled := signaled w;
     live_allocators := live_allocators w; next_handle := next_handle w;
     calls := calls w ++ cs |}.

(** What [BeginFrame_record] logs and answers, by what the command
    allocator and the command list answer. *)
Definition record_calls (env : Env) (index alloc : nat) : list Call :=
  CommandAllocator_Reset alloc (allocator_reset_ok env) ::
  (if allocator_reset_ok env
   then CommandList_Reset alloc (command_list_reset_ok env) ::
        (if command_list_reset_ok env
         then [CommandList_TransitionBarrier index STATE_PRESENT STATE_RENDER_TARGET]
         else [printf (Failed_reset_command_list index)])
   else [printf (Failed_reset_allocator index)]).

Definition record_answer (env : Env) : option unit :=
  if allocator_reset_ok env && command_list_reset_ok env then Some tt else None.

(** What [EndFrame] logs when the command list closes. *)
Definition submit_calls (env : Env) (vsync : bool) (backBuffer index : nat)
    (fence : option nat) (value : Z) : list Call :=
  [CommandList_TransitionBarrier backBuffer STATE_RENDER_TARGET STATE_PRESENT;
   CommandList_Close true;
   ExecuteCommandLists;
   Queue_Signal fence value (signal_hr env)] ++
  (if FAILED (signal_hr env)
   then [printf (Failed_signal_fence index (signal_hr env))] else []) ++
  [ResourceManager_EndFrame; SwapChain_Present vsync (present_ok env)].

(** A frame is submitted when both resets and the close succeed. *)
Definition frame_ok (env : Env) : bool :=
  allocator_reset_ok env && command_list_reset_ok env && command_list_close_ok env.

(** A slot is complete when it was never submitted or when its fence has
    reached the slot's value. *)
Definition slot_complete (w : World) (frame : FrameResources) : Prop :=
  fenceValue frame = 0 ∨
  ∃ f c, frameFence frame = Some f ∧ gpu_fences w !! f = Some c ∧ fenceValue frame ≤ c.

(** The objects a slot owns. *)
Definition slot_objects (frame : FrameResources) : list nat :=
  option_list (commandAllocator frame) ++ option_list (frameFence frame) ++
  option_list (fenceEvent frame).

(** A slot whose three objects exist, were created at or after [lo], and
    whose fence has completed nothing. *)
Definition slot_ready (lo : nat) (w : World) (frame : FrameResources) : Prop :=
  ∃ a f e,
    commandAllocator frame = Some a ∧ frameFence frame = Some f ∧
    fenceEvent frame = Some e ∧ gpu_fences w !! f = Some 0 ∧
    (lo ≤ a)%nat ∧ (lo ≤ f)%nat ∧ (lo ≤ e)%nat.

(** The renderer as the constructor leaves it with [n] buffers: every slot
    ready and unsubmitted, nothing armed, no event signaled. *)
Record cold (n : nat) (st : State) : Prop := mkCold {
  cold_length : length (m_frameResources (this st)) = n;
  cold_slots : ∀ i frame, m_frameResources (this st) !! i = Some frame →
               fenceValue frame = 0 ∧ slot_ready 0 (world st) frame;
  cold_counter : m_nextFenceValue (this st) = m_nextFenceValue_initial;
  cold_armed : armed (world st) = [];
  cold_signaled : signaled (world st) = ∅;
  cold_drawn : drawn (world st) = []
}.

(** [quiet st st']: from [st] to [st'] the renderer's fields are the same,
    no object was created or destroyed, and no fence value was signaled. *)
Record quiet (st st' : State) : Prop := mkQuiet {
  quiet_this : this st' = this st;
  quiet_next_handle : next_handle (world st') = next_handle (world st);
  quiet_allocators : live_allocators (world st') = live_allocators (world st);
  quiet_fences : dom (gpu_fences (world st')) = dom (gpu_fences (world st));
  quiet_drawn : drawn (world st') = drawn (world st)
}.

(** The calls a wait makes: the registration, the wait itself and the
    diagnostic of a failed registration. *)
Definition wait_call (c : Call) : bool :=
  match c with
  | Fence_SetEventOnCompletion _ _ _ _ => true
  | WaitForSingleObject _ => true
  | printf (SetEventOnCompletion_failed _ _) => true
  | _ => false
  end.

(** [waited st st']: from [st] to [st'] nothing the renderer owns has
    changed ([quiet]) and the log has grown by the calls of waits only. *)
Record waited (st st' : State) : Prop := mkWaited {
  waited_quiet : quiet st st';
  waited_calls : ∃ new, calls (world st') = calls (world st) ++ new ∧
                        forallb wait_call new = true
}.


(** What one slot's creation answers: all three objects were created. *)
Definition slot_created_ok (env : Env) (i : nat) : bool :=
  allocator_initialize_ok env i && negb (FAILED (create_fence_hr env i)) &&
  create_event_ok env i.

(** [grown st st']: what creating objects may change.  The pool keeps its
    length and every slot its [fenceValue]; the other fields of the renderer,
    the registrations and the events are the same; fences that had
    completed nothing still have; the log has grown by calls that signal
    nothing and release nothing; no allocator or fence named before [st]
    has come into existence. *)
Record grown (st st' : State) : Prop := mkGrown {
  grown_swapChain : m_swapChain (this st') = m_swapChain (this st);
  grown_index : m_currentFrameIndex (this st') = m_currentFrameIndex (this st);
  grown_counter : m_nextFenceValue (this st') = m_nextFenceValue (this st);
  grown_values :
    fenceValue <$> m_frameResources (this st') = fenceValue <$> m_frameResources (this st);
  grown_armed : armed (world st') = armed (world st);
  grown_signaled : signaled (world st') = signaled (world st);
  grown_handles : (next_handle (world st) ≤ next_handle (world st'))%nat;
  grown_zero : ∀ g, gpu_fences (world st) !! g = Some 0 →
                    gpu_fences (world st') !! g = Some 0;
  grown_calls : ∃ new, calls (world st') = calls (world st) ++ new ∧
                       omap drawn_value new = [] ∧
                       ∀ frame, Release_FrameResources frame ∉ new;
  grown_allocators : ∀ id, (id < next_handle (world st))%nat →
                     id ∈ live_allocators (world st') → id ∈ live_allocators (world st);
  grown_fences : ∀ id, (id < next_handle (world st))%nat →
                 gpu_fences (world st) !! id = None → gpu_fences (world st') !! id = None
}.

(** [kept st st']: the pool, the frame index and the fence counter are the
    same, and so are the objects that exist. *)
Record kept (st st' : State) : Prop := mkKept {
  kept_pool : m_frameResources (this st') = m_frameResources (this st);
  kept_index : m_currentFrameIndex (this st') = m_currentFrameIndex (this st);
  kept_counter : m_nextFenceValue (this st') = m_nextFenceValue (this st);
  kept_next_handle : next_handle (world st') = next_handle (world st);
  kept_allocators : live_allocators (world st') = live_allocators (world st);
  kept_fences : dom (gpu_fences (world st')) = dom (gpu_fences (world st))
}.

(** [recreated env n st st']: in [st'] the pool of [st] has been released
    and replaced by [n] slots, each unsubmitted and owning only objects
    created since [st]; the slots are ready when every creation succeeded.
    Released: since [st] the log has grown by one release of every slot of
    the old pool, in order, and by no other release; the allocators and the
    fences the old slots owned exist no more. *)
Record recreated (env : Env) (n : nat) (st st' : State) : Prop := mkRecreated {
  recreated_length : length (m_frameResources (this st')) = n;
  recreated_log : ∃ before after,
      calls (world st') =
        calls (world st) ++ before ++
        (Release_FrameResources <$> m_frameResources (this st)) ++ after ∧
      (∀ frame, Release_FrameResources frame ∉ before) ∧
      (∀ frame, Release_FrameResources frame ∉ after);
  recreated_allocators_gone : ∀ frame a, frame ∈ m_frameResources (this st) →
      commandAllocator frame = Some a → (a < next_handle (world st))%nat →
      a ∉ live_allocators (world st');
  recreated_fences_gone : ∀ frame f, frame ∈ m_frameResources (this st) →
      frameFence frame = Some f → (f < next_handle (world st))%nat →
      gpu_fences (world st') !! f = None;
  recreated_unsubmitted : ∀ i frame, m_frameResources (this st') !! i = Some frame →
      fenceValue frame = 0;
  recreated_objects : ∀ i frame id, m_frameResources (this st') !! i = Some frame →
      id ∈ slot_objects frame → (next_handle (world st) ≤ id)%nat;
  recreated_released : ∀ frame, frame ∈ m_frameResources (this st) →
      Release_FrameResources frame ∈ calls (world st');
  recreated_ready : forallb (slot_created_ok env) (seq 0 n) = true →
      ∀ i frame, m_frameResources (this st') !! i = Some frame →
        slot_ready (next_handle (world st)) (world st') frame;
  recreated_counter : m_nextFenceValue (this st') = m_nextFenceValue (this st)
}.

(** The slot the loop of [InitializeFrameResources] leaves when its three
    creations succeed, [h] being the first free name: the allocator, the
    fence and the event, in the order of lines 63, 70 and 78. *)
Definition slot_created (h : nat) : FrameResources :=
  {| commandAllocator := Some h; frameFence := Some (S h);
     fenceEvent := Some (S (S h)); fenceValue := 0 |}.

(** The world after those three creations. *)
Definition world_created (env : Env) (i : nat) (w : World) : World :=
  {| gpu_fences := <[S (next_handle w) := 0]> (gpu_fences w);
     armed := armed w; signaled := signaled w;
     live_allocators := live_allocators w ∪ {[next_handle w]};
     next_handle := S (S (S (next_handle w)));
     calls := calls w ++
       [CommandAllocator_Initialize (next_handle w) true;
        CreateFence (Some (S (next_handle w))) (create_fence_hr env i);
        CreateEvent (Some (S (S (next_handle w))))] |}.

(** The diagnostic of the first creation that fails for slot [i]. *)
Definition creation_diagnostic (env : Env) (i : nat) : Diagnostic :=
  if negb (allocator_initialize_ok env i) then Failed_create_allocator i
  else if FAILED (create_fence_hr env i)
       then Failed_create_fence i (create_fence_hr env i)
       else Failed_create_fence_event i.


(** [first_cycle n j c st]: [j] frames into the first cycle of a renderer
    with [n] buffers whose swap chain rotates from 0, whatever went wrong in
    those frames: every slot still has its allocator, and the back buffer
    [c] and the slots after it were never submitted. *)
Record first_cycle (n j c : nat) (st : State) : Prop := mkFirstCycle {
  fc_swapChain : sc_backBufferIndex <$> m_swapChain (this st) = Some c;
  fc_length : length (m_frameResources (this st)) = n;
  fc_allocators : ∀ i frame, m_frameResources (this st) !! i = Some frame →
                  is_Some (commandAllocator frame);
  fc_ahead : (j < n)%nat →
             (c ≤ j)%nat ∧
             ∀ i frame, (c ≤ i)%nat →
                        m_frameResources (this st) !! i = Some frame →
                        fenceValue frame = 0
}.

(** [full_cycle n first G j st]: [j] frames, all submitted, into the first
    cycle of a renderer with [n] buffers; [first] is slot 0 as constructed
    and [G] the fences' completed values, which the GPU has not moved. *)
Record full_cycle (n : nat) (first : FrameResources) (G : gmap nat Z)
    (j : nat) (st : State) : Prop := mkFullCycle {
  uc_swapChain : sc_backBufferIndex <$> m_swapChain (this st) = Some (j mod n)%nat;
  uc_length : length (m_frameResources (this st)) = n;
  uc_ahead : ∀ i frame, (j ≤ i)%nat → m_frameResources (this st) !! i = Some frame →
             fenceValue frame = 0 ∧ is_Some (commandAllocator frame);
  uc_first : m_frameResources (this st) !! 0%nat =
             Some (if decide (j = 0)%nat then first else with_fenceValue 1 first);
  uc_counter : j = 0%nat → m_nextFenceValue (this st) = 1;
  uc_fences : gpu_fences (world st) = G;
  uc_armed : armed (world st) = [];
  uc_signaled : signaled (world st) = ∅
}.

(** [tidy w]: no registration is pending and no event is signaled, as it
    is whenever the thread is not inside a wait. *)
Definition tidy (w : World) : Prop := armed w = [] ∧ signaled w = ∅.

(** [tidy_run res]: the computation returns in a tidy world; where it
    parks, the one pending registration is the one for the event it waits
    on, no event is signaled, and the same holds of what it does once that
    registration has fired. *)
Fixpoint tidy_run {A} (res : Res A) : Prop :=
  match res with
  | Done _ st => tidy (world st)
  | Park e st k =>
    (∃ f v, armed (world st) = [(f, v, e)]) ∧ signaled (world st) = ∅ ∧
    ∀ st', armed (world st') = [] → signaled (world st') = {[e]} → tidy_run (k st')
  | Fault => True
  end.


(** *** Concrete collaborators and states used in the examples *)

(** Collaborators for a swap chain of [n] buffers that next hands out back
    buffer [next]; the flags say which calls succeed. *)
Definition env_with (n next : nat) (reset_ok close_ok present_good : bool)
    (set_event : Z) : Env :=
  {| device_initialize_ok := true;
     command_manager_initialize_ok := true;
     resource_manager_initialize_ok := true;
     swapchain_created := {| sc_bufferCount := n; sc_backBufferIndex := 0 |};
     swapchain_initialized := true;
     command_list_initialize_ok := true;
     allocator_initialize_ok := fun _ => true;
     create_fence_hr := fun _ => S_OK;
     create_event_ok := fun _ => true;
     allocator_reset_ok := reset_ok;
     command_list_reset_ok := true;
     command_list_close_ok := close_ok;
     signal_hr := S_OK;
     set_event_hr := fun _ => set_event;
     present_ok := present_good;
     presented := {| sc_bufferCount := n; sc_backBufferIndex := next |};
     reconfigure_ok := true;
     reconfigured := {| sc_bufferCount := n; sc_backBufferIndex := 0 |} |}.

Definition env_ok (n next : nat) : Env := env_with n next true true true S_OK.

(** Collaborators like [env_ok n 0], except that the creation of slot
    [bad]'s fence fails. *)
Definition env_fence_fails (n bad : nat) : Env :=
  {| device_initialize_ok := true;
     command_manager_initialize_ok := true;
     resource_manager_initialize_ok := true;
     swapchain_created := {| sc_bufferCount := n; sc_backBufferIndex := 0 |};
     swapchain_initialized := true;
     command_list_initialize_ok := true;
     allocator_initialize_ok := fun _ => true;
     create_fence_hr := fun i => if (i =? bad)%nat then E_FAIL else S_OK;
     create_event_ok := fun _ => true;
     allocator_reset_ok := true;
     command_list_reset_ok := true;
     command_list_close_ok := true;
     signal_hr := S_OK;
     set_event_hr := fun _ => S_OK;
     present_ok := true;
     presented := {| sc_bufferCount := n; sc_backBufferIndex := 0 |};
     reconfigure_ok := true;
     reconfigured := {| sc_bufferCount := n; sc_backBufferIndex := 0 |} |}.

(** Collaborators like [env_ok n next], except that [Signal] fails. *)
Definition env_signal_fails (n next : nat) : Env :=
  {| device_initialize_ok := true;
     command_manager_initialize_ok := true;
     resource_manager_initialize_ok := true;
     swapchain_created := {| sc_bufferCount := n; sc_backBufferIndex := 0 |};
     swapchain_initialized := true;
     command_list_initialize_ok := true;
     allocator_initialize_ok := fun _ => true;
     create_fence_hr := fun _ => S_OK;
     create_event_ok := fun _ => true;
     allocator_reset_ok := true;
     command_list_reset_ok := true;
     command_list_close_ok := true;
     signal_hr := E_FAIL;
     set_event_hr := fun _ => S_OK;
     present_ok := true;
     presented := {| sc_bufferCount := n; sc_backBufferIndex := next |};
     reconfigure_ok := true;
     reconfigured := {| sc_bufferCount := n; sc_backBufferIndex := 0 |} |}.

(** A renderer with two buffers right after construction. *)
Definition two_buffers_state : State :=
  {| this :=
       {| m_swapChain := Some {| sc_bufferCount := 2; sc_backBufferIndex := 0 |};
          m_frameResources :=
            [ {| commandAllocator := Some 0%nat; frameFence := Some 1%nat;
                 fenceEvent := Some 2%nat; fenceValue := 0 |};
              {| commandAllocator := Some 3%nat; frameFence := Some 4%nat;
                 fenceEvent := Some 5%nat; fenceValue := 0 |} ];
          m_currentFrameIndex := 0;
          m_nextFenceValue := 1 |};
     world :=
       {| gpu_fences := <[4%nat := 0]> (<[1%nat := 0]> ∅);
          armed := []; signaled := ∅;
          live_allocators := ∅ ∪ {[0%nat]} ∪ {[3%nat]};
          next_handle := 6;
          calls := [CommandAllocator_Initialize 0 true; CreateFence (Some 1%nat) 0;
                    CreateEvent (Some 2%nat);
                    CommandAllocator_Initialize 3 true; CreateFence (Some 4%nat) 0;
                    CreateEvent (Some 5%nat)] |} |}.

(** The calls of four frames of that renderer, the GPU completing the
    first two only. *)
Definition four_frames_two_completed : list Op :=
  [Op_BeginFrame (env_ok 2 1); Op_EndFrame (env_ok 2 1) true;
   Op_BeginFrame (env_ok 2 0); Op_EndFrame (env_ok 2 0) true;
   Op_gpu_signal 1 1;
   Op_BeginFrame (env_ok 2 1); Op_EndFrame (env_ok 2 1) true;
   Op_gpu_signal 4 2;
   Op_BeginFrame (env_ok 2 0); Op_EndFrame (env_ok 2 0) true].





(** The methods are unfolded by name only. *)
Arguments WaitForFrame : simpl never.
Arguments WaitForAllFrames : simpl never.
Arguments IsFrameComplete : simpl never.
Arguments BeginFrame_record : simpl never.
Arguments BeginFrame : simpl never.
Arguments EndFrame : simpl never.
Arguments InitializeFrameResources_body : simpl never.
Arguments InitializeFrameResources : simpl never.
Arguments ReleaseFrameResources : simpl never.
Arguments OnReconfigure_recreate : simpl never.
Arguments OnReconfigure : simpl never.
Arguments render_frame : simpl never.
Arguments gpu_signal : simpl never.
Arguments drawn : simpl never.
Arguments destroy_frames : simpl never.
Arguments gpu_run : simpl never.

(** Unfolding the plumbing of [M]. *)
Ltac munfold :=
  unfold bind, ret, get_this, get_world, put_this, put_world, modify_this,
    modify_world, call, deref, frame_at, update_frame, GetCompletedValue
    in *; cbn.

(** The fields of [grown] after the creations of one slot. *)
Ltac grown_field Hl :=
  first
    [ done
    | lia
    | rewrite list_fmap_insert; cbn; apply list_insert_id;
      by rewrite list_lookup_fmap, Hl
    | let g := fresh "g" in let Hg := fresh "Hg" in
      intros g Hg;
      match goal with
      | |- <[?k := _]> _ !! _ = _ =>
        destruct (decide (g = k)) as [-> |];
        [by rewrite lookup_insert_eq | by rewrite lookup_insert_ne]
      end
    | let fr := fresh "fr" in let Hin := fresh "Hin" in
      eexists; split; [by rewrite <- !app_assoc | split; [done |]];
      intros fr Hin;
      repeat (apply elem_of_cons in Hin as [Hin | Hin]; [discriminate |]);
      by apply elem_of_nil in Hin
    | let id := fresh "id" in let Hid := fresh "Hid" in let Hin := fresh "Hin" in
      intros id Hid Hin; apply elem_of_union in Hin as [Hin | Hin];
      [done | apply elem_of_singleton in Hin; lia]
    | let id := fresh "id" in let Hid := fresh "Hid" in let Hn := fresh "Hn" in
      intros id Hid Hn; by rewrite lookup_insert_ne by lia ].

(** ** Basic facts *)

Section Runs.
Context {A : Type}.

Lemma always_bind_res {B} (P : State → Prop) (r : Res A) (f : A → M B) :
  always P r →
  (∀ a st, P st → always P (f a st)) →
  always P (bind_res r f).
Proof.
  intros Hr Hf. induction r as [a st | e st k IH | ]; cbn in *.
  - by apply Hf.
  - destruct Hr as [Hst Hk]. split; [done |].
    intros ds. apply IH, Hk.
  - done.
Qed.

Lemma always_bind_res_via {B} (P Q : State → Prop) (r : Res A) (f : A → M B) :
  always P r →
  (∀ st, P st → Q st) →
  (∀ a st, P st → always Q (f a st)) →
  always Q (bind_res r f).
Proof.
  intros Hr HPQ Hf. induction r as [a st | e st k IH | ]; cbn in *.
  - by apply Hf.
  - destruct Hr as [Hst Hk]. split; [by apply HPQ |].
    intros ds. apply IH, Hk.
  - done.
Qed.

Lemma on_return_bind_res {B} (Q : A → State → Prop) (R : B → State → Prop)
    (r : Res A) (f : A → M B) :
  on_return Q r →
  (∀ a st, Q a st → on_return R (f a st)) →
  on_return R (bind_res r f).
Proof.
  intros Hr Hf. induction r as [a st | e st k IH | ]; cbn in *.
  - by apply Hf.
  - intros ds. apply IH, Hr.
  - done.
Qed.


Lemma always_on_return (P : State → Prop) (r : Res A) :
  always P r → on_return (fun _ st => P st) r.
Proof.
  induction r as [a st | e st k IH | ]; cbn; [auto | | done].
  intros [_ Hk] ds. apply IH, Hk.
Qed.
End Runs.

Lemma gpu_signal_calls f v w : calls (gpu_signal f v w) = calls w.
Proof. unfold gpu_signal. by destruct (gpu_fences w !! f). Qed.

Lemma gpu_signal_next_handle f v w : next_handle (gpu_signal f v w) = next_handle w.
Proof. unfold gpu_signal. by destruct (gpu_fences w !! f). Qed.

Lemma gpu_signal_live_allocators f v w :
  live_allocators (gpu_signal f v w) = live_allocators w.
Proof. unfold gpu_signal. by destruct (gpu_fences w !! f). Qed.

Lemma gpu_signal_dom f v w : dom (gpu_fences (gpu_signal f v w)) = dom (gpu_fences w).
Proof.
  unfold gpu_signal. destruct (gpu_fences w !! f) eqn:Hf; [| done]. cbn.
  rewrite dom_insert_L. apply elem_of_dom_2 in Hf.
  apply (anti_symm (⊆)); [| apply union_subseteq_r].
  apply union_least; [by apply singleton_subseteq_l | done].
Qed.

Lemma gpu_run_calls ds w : calls (gpu_run ds w) = calls w.
Proof.
  revert w. induction ds as [| d ds IH]; intros w; [done |].
  change (gpu_run (d :: ds) w) with (gpu_run ds (gpu_signal d.1 d.2 w)).
  by rewrite IH, gpu_signal_calls.
Qed.

Lemma gpu_run_next_handle ds w : next_handle (gpu_run ds w) = next_handle w.
Proof.
  revert w. induction ds as [| d ds IH]; intros w; [done |].
  change (gpu_run (d :: ds) w) with (gpu_run ds (gpu_signal d.1 d.2 w)).
  by rewrite IH, gpu_signal_next_handle.
Qed.

Lemma gpu_run_live_allocators ds w :
  live_allocators (gpu_run ds w) = live_allocators w.
Proof.
  revert w. induction ds as [| d ds IH]; intros w; [done |].
  change (gpu_run (d :: ds) w) with (gpu_run ds (gpu_signal d.1 d.2 w)).
  by rewrite IH, gpu_signal_live_allocators.
Qed.

Lemma gpu_run_dom ds w : dom (gpu_fences (gpu_run ds w)) = dom (gpu_fences w).
Proof.
  revert w. induction ds as [| d ds IH]; intros w; [done |].
  change (gpu_run (d :: ds) w) with (gpu_run ds (gpu_signal d.1 d.2 w)).
  by rewrite IH, gpu_signal_dom.
Qed.


Lemma gpu_run_drawn ds w : drawn (gpu_run ds w) = drawn w.
Proof. unfold drawn. by rewrite gpu_run_calls. Qed.

Lemma gpu_run_app ds ds' w : gpu_run (ds ++ ds') w = gpu_run ds' (gpu_run ds w).
Proof. unfold gpu_run. apply fold_left_app. Qed.

(** ** The methods, one by one *)

Lemma log_calls_app cs cs' w : log_calls cs' (log_calls cs w) = log_calls (cs ++ cs') w.
Proof. unfold log_calls; cbn. by rewrite app_assoc. Qed.

Lemma drawn_log_calls cs w : drawn (log_calls cs w) = drawn w ++ omap drawn_value cs.
Proof. unfold drawn; cbn. apply omap_app. Qed.

(** *** [EndFrame] *)

Lemma EndFrame_close_failure env vsync st sc :
  m_swapChain (this st) = Some sc →
  command_list_close_ok env = false →
  EndFrame env vsync st =
    Done tt (set_world
      (log_calls
         [CommandList_TransitionBarrier (sc_backBufferIndex sc)
            STATE_RENDER_TARGET STATE_PRESENT;
          CommandList_Close false;
          printf (Failed_close_command_list (m_currentFrameIndex (this st)))]
         (world st)) st).
Proof.
  intros Hsc Hclose. unfold EndFrame. munfold. rewrite Hsc. cbn.
  rewrite Hclose. munfold. unfold set_world, log_call, log_calls; cbn.
  by rewrite <- !app_assoc.
Qed.

Lemma EndFrame_submitted env vsync st sc frame :
  m_swapChain (this st) = Some sc →
  command_list_close_ok env = true →
  m_frameResources (this st) !! m_currentFrameIndex (this st) = Some frame →
  EndFrame env vsync st =
    Done tt
      {| this :=
           {| m_swapChain := Some (presented env);
              m_frameResources :=
                <[m_currentFrameIndex (this st) :=
                    with_fenceValue (m_nextFenceValue (this st)) frame]>
                  (m_frameResources (this st));
              m_currentFrameIndex := m_currentFrameIndex (this st);
              m_nextFenceValue := uint64_incr (m_nextFenceValue (this st)) |};
         world :=
           log_calls
             (submit_calls env vsync (sc_backBufferIndex sc)
                (m_currentFrameIndex (this st)) (frameFence frame)
                (m_nextFenceValue (this st)))
             (world st) |}.
Proof.
  intros Hsc Hclose Hframe. unfold EndFrame. munfold. rewrite Hsc. cbn.
  rewrite Hclose. munfold. rewrite Hframe. cbn.
  rewrite list_lookup_insert_eq by (by eapply lookup_lt_Some). cbn.
  unfold submit_calls, set_world, set_this, log_call, log_calls.
  destruct (FAILED (signal_hr env)); munfold; by rewrite <- !app_assoc.
Qed.

(** *** [IsFrameComplete] and [WaitForFrame] *)

Lemma IsFrameComplete_out_of_range st i :
  (length (m_frameResources (this st)) ≤ i)%nat → IsFrameComplete i st = Done true st.
Proof. intros Hi. unfold IsFrameComplete. munfold. by case_decide. Qed.

Lemma IsFrameComplete_slot st i frame :
  m_frameResources (this st) !! i = Some frame →
  IsFrameComplete i st =
    if fenceValue frame =? 0 then Done true st
    else match frameFence frame with
         | None => Fault
         | Some f =>
           match gpu_fences (world st) !! f with
           | None => Fault
           | Some c => Done (fenceValue frame <=? c) st
           end
         end.
Proof.
  intros Hl. unfold IsFrameComplete. munfold.
  case_decide as Hlen; [apply lookup_lt_Some in Hl; lia |].
  rewrite Hl; cbn. destruct (fenceValue frame =? 0); [done |].
  destruct (frameFence frame) as [f |]; cbn; [| done].
  by destruct (gpu_fences (world st) !! f).
Qed.

Lemma WaitForFrame_out_of_range env st i :
  (length (m_frameResources (this st)) ≤ i)%nat → WaitForFrame env i st = Done tt st.
Proof. intros Hi. unfold WaitForFrame. munfold. by case_decide. Qed.

Lemma WaitForFrame_complete env st i frame :
  m_frameResources (this st) !! i = Some frame →
  slot_complete (world st) frame →
  WaitForFrame env i st = Done tt st.
Proof.
  intros Hl Hc. unfold WaitForFrame. munfold.
  case_decide as Hlen; [done |]. rewrite Hl; cbn.
  destruct (Z.eqb_spec (fenceValue frame) 0) as [Hz | Hz]; [done |].
  destruct Hc as [Hc | (f & c & Hf & Hg & Hle)]; [done |].
  rewrite Hf; cbn. rewrite Hg; cbn.
  by destruct (Z.leb_spec (fenceValue frame) c); [| lia].
Qed.

(** The slot is in flight: the wait registers the slot's own value on the
    slot's own fence. *)
Lemma WaitForFrame_in_flight env st i frame f c e :
  m_frameResources (this st) !! i = Some frame →
  frameFence frame = Some f → fenceEvent frame = Some e →
  gpu_fences (world st) !! f = Some c →
  fenceValue frame ≠ 0 → c < fenceValue frame →
  WaitForFrame env i st =
    if FAILED (set_event_hr env i)
    then Done tt (set_world
           (log_calls [Fence_SetEventOnCompletion f (fenceValue frame) e (set_event_hr env i);
                       printf (SetEventOnCompletion_failed i (set_event_hr env i))]
              (world st)) st)
    else
      let st' := set_world
           (log_calls [Fence_SetEventOnCompletion f (fenceValue frame) e (set_event_hr env i);
                       WaitForSingleObject e]
              (arm f (fenceValue frame) e (world st))) st in
      if decide (e ∈ signaled (world st)) then consume e st'
      else Park e st' (fun st'' => bind_res (consume e st'') (fun _ => ret tt)).
Proof.
  intros Hl Hf He Hg Hz Hlt. unfold WaitForFrame. munfold.
  case_decide as Hlen; [apply lookup_lt_Some in Hl; lia |]. rewrite Hl; cbn.
  destruct (Z.eqb_spec (fenceValue frame) 0) as [| _]; [done |].
  rewrite Hf; cbn. rewrite Hg; cbn.
  destruct (Z.leb_spec (fenceValue frame) c); [lia |].
  rewrite He; cbn. unfold SetEventOnCompletion. munfold.
  destruct (FAILED (set_event_hr env i)); munfold.
  - unfold set_world, log_call, log_calls; cbn. by rewrite <- !app_assoc.
  - rewrite Hg; cbn. destruct (Z.leb_spec (fenceValue frame) c); [lia |]. cbn.
    unfold WaitForSingleObject_INFINITE. munfold.
    case_decide as Hs.
    + unfold consume. munfold. unfold set_world, log_call, log_calls, arm; cbn.
      by rewrite <- !app_assoc.
    + unfold set_world, log_call, log_calls, arm; cbn. rewrite <- !app_assoc. cbn.
      reflexivity.
Qed.

(** *** [BeginFrame] *)

Lemma BeginFrame_record_spec env st i frame a :
  m_frameResources (this st) !! i = Some frame →
  commandAllocator frame = Some a →
  BeginFrame_record env i st =
    Done (record_answer env) (set_world (log_calls (record_calls env i a) (world st)) st).
Proof.
  intros Hl Ha. unfold BeginFrame_record, record_answer, record_calls. munfold.
  rewrite Hl; cbn. rewrite Ha; cbn.
  destruct (allocator_reset_ok env); munfold.
  - destruct (command_list_reset_ok env); munfold;
      unfold set_world, log_call, log_calls; cbn; by rewrite <- !app_assoc.
  - unfold set_world, log_call, log_calls; cbn; by rewrite <- !app_assoc.
Qed.

Lemma BeginFrame_unfold env st sc :
  m_swapChain (this st) = Some sc →
  BeginFrame env st =
    bind_res
      (WaitForFrame env (sc_backBufferIndex sc)
         {| this := with_currentFrameIndex (sc_backBufferIndex sc) (this st);
            world := log_calls [ResourceManager_BeginFrame] (world st) |})
      (fun _ => BeginFrame_record env (sc_backBufferIndex sc)).
Proof. intros Hsc. unfold BeginFrame. munfold. rewrite Hsc. reflexivity. Qed.

(** [BeginFrame] on a slot that is complete: no wait, the slot's allocator
    is reset at once. *)
Lemma BeginFrame_no_wait env st sc frame a :
  m_swapChain (this st) = Some sc →
  m_frameResources (this st) !! sc_backBufferIndex sc = Some frame →
  slot_complete (world st) frame →
  commandAllocator frame = Some a →
  BeginFrame env st =
    Done (record_answer env)
      {| this := with_currentFrameIndex (sc_backBufferIndex sc) (this st);
         world := log_calls (ResourceManager_BeginFrame ::
                             record_calls env (sc_backBufferIndex sc) a) (world st) |}.
Proof.
  intros Hsc Hl Hc Ha. rewrite (BeginFrame_unfold _ _ _ Hsc).
  erewrite WaitForFrame_complete; [| exact Hl | exact Hc]. cbn.
  erewrite BeginFrame_record_spec; [| exact Hl | exact Ha].
  unfold set_world; cbn. by rewrite log_calls_app.
Qed.

(** ** Completion queries *)

(** C6.  [IsFrameComplete (index)] answers true exactly when the index is
    out of range, or the slot was never submitted ([fenceValue = 0]), or the
    completed value of the slot's fence has reached the slot's [fenceValue].
    The call never parks the thread, and whenever it answers the state is
    the one it was called in; it answers whenever the slot's fence exists. *)
Theorem IsFrameComplete_true_iff (st : State) (frameIndex : nat) :
  (IsFrameComplete frameIndex st = Done true st ↔
     (length (m_frameResources (this st)) ≤ frameIndex)%nat ∨
     ∃ frame, m_frameResources (this st) !! frameIndex = Some frame ∧
              slot_complete (world st) frame) ∧
  (∀ b st', IsFrameComplete frameIndex st = Done b st' → st' = st) ∧
  (∀ e st' k, IsFrameComplete frameIndex st ≠ Park e st' k) ∧
  (∀ frame f c, m_frameResources (this st) !! frameIndex = Some frame →
     frameFence frame = Some f → gpu_fences (world st) !! f = Some c →
     ∃ b, IsFrameComplete frameIndex st = Done b st).
Proof.
  destruct (m_frameResources (this st) !! frameIndex) as [frame |] eqn:Hl.
  - rewrite (IsFrameComplete_slot _ _ _ Hl).
    assert (Hin : ¬ (length (m_frameResources (this st)) ≤ frameIndex)%nat)
      by (apply lookup_lt_Some in Hl; lia).
    unfold slot_complete.
    destruct (Z.eqb_spec (fenceValue frame) 0) as [Hz | Hz].
    { repeat split; try congruence; eauto 8. }
    destruct (frameFence frame) as [f |] eqn:Hf.
    2:{ repeat split; try congruence.
        intros [? | (fr & Hfr & [? | (f & c & ? & _)])]; simplify_eq; done. }
    destruct (gpu_fences (world st) !! f) as [c |] eqn:Hg.
    2:{ repeat split; try congruence.
        intros [? | (fr & Hfr & [? | (f' & c & ? & ? & _)])]; simplify_eq; done. }
    repeat split; try congruence; eauto.
    + intros H. injection H as H. right. exists frame. split; [done |].
      right. exists f, c. repeat split; try done. lia.
    + intros [? | (fr & Hfr & [? | (f' & c' & ? & ? & ?)])]; simplify_eq; try done.
      f_equal. lia.
  - apply lookup_ge_None in Hl. rewrite (IsFrameComplete_out_of_range _ _ Hl).
    repeat split; try congruence; eauto.
Qed.

(** ** A command list that does not close *)

(** C5.  When [Close] fails in [EndFrame], the call returns having logged
    no [ExecuteCommandLists], no [Signal] and no [Present].  No fence value
    was drawn: [m_nextFenceValue] is the value it was, and no value was
    signaled.  The pool, with the value every slot recorded, is as it was,
    and so are the fences on the GPU side. *)
Theorem EndFrame_close_failure_submits_nothing
    (env : Env) (vsync : bool) (st : State) (sc : SwapChain) :
  m_swapChain (this st) = Some sc →
  command_list_close_ok env = false →
  ∃ st' new,
    EndFrame env vsync st = Done tt st' ∧
    calls (world st') = calls (world st) ++ new ∧
    (ExecuteCommandLists ∉ new) ∧
    (∀ fence value hr, Queue_Signal fence value hr ∉ new) ∧
    (∀ v ok, SwapChain_Present v ok ∉ new) ∧
    m_nextFenceValue (this st') = m_nextFenceValue (this st) ∧
    drawn (world st') = drawn (world st) ∧
    m_frameResources (this st') = m_frameResources (this st) ∧
    gpu_fences (world st') = gpu_fences (world st).
Proof.
  intros Hsc Hclose. eexists _, _.
  split; [by apply EndFrame_close_failure |]. cbn.
  split; [reflexivity |].
  repeat split.
  - intros Hin. repeat (apply elem_of_cons in Hin as [Hin | Hin]; [discriminate |]).
    by apply elem_of_nil in Hin.
  - intros fence value hr Hin.
    repeat (apply elem_of_cons in Hin as [Hin | Hin]; [discriminate |]).
    by apply elem_of_nil in Hin.
  - intros v ok Hin.
    repeat (apply elem_of_cons in Hin as [Hin | Hin]; [discriminate |]).
    by apply elem_of_nil in Hin.
  - unfold drawn; cbn. rewrite omap_app; cbn. apply app_nil_r.
Qed.

(** An instance: two buffers, a [Close] that fails in the first frame. *)
Lemma EndFrame_close_failure_submits_nothing_witness :
  ∃ st' new,
    EndFrame (env_with 2 1 true false true S_OK) true two_buffers_state = Done tt st' ∧
    calls (world st') = calls (world two_buffers_state) ++ new ∧
    (ExecuteCommandLists ∉ new) ∧
    (∀ fence value hr, Queue_Signal fence value hr ∉ new) ∧
    (∀ v ok, SwapChain_Present v ok ∉ new) ∧
    m_nextFenceValue (this st') = m_nextFenceValue (this two_buffers_state) ∧
    drawn (world st') = drawn (world two_buffers_state) ∧
    m_frameResources (this st') = m_frameResources (this two_buffers_state) ∧
    gpu_fences (world st') = gpu_fences (world two_buffers_state).
Proof.
  exact (EndFrame_close_failure_submits_nothing
           (env_with 2 1 true false true S_OK) true two_buffers_state
           {| sc_bufferCount := 2; sc_backBufferIndex := 0 |} eq_refl eq_refl).
Defined.

(** C10.  When [Close] fails in [EndFrame], the renderer's fields are all
    as they were, [m_nextFenceValue] among them; the call's whole effect is
    the barrier, the failed close and the diagnostic: the resource manager
    is not told of a frame end, and nothing changes on the GPU side. *)
Theorem EndFrame_close_failure_frame
    (env : Env) (vsync : bool) (st : State) (sc : SwapChain) :
  m_swapChain (this st) = Some sc →
  command_list_close_ok env = false →
  ∃ st',
    EndFrame env vsync st = Done tt st' ∧
    this st' = this st ∧
    m_nextFenceValue (this st') = m_nextFenceValue (this st) ∧
    calls (world st') = calls (world st) ++
      [CommandList_TransitionBarrier (sc_backBufferIndex sc)
         STATE_RENDER_TARGET STATE_PRESENT;
       CommandList_Close false;
       printf (Failed_close_command_list (m_currentFrameIndex (this st)))] ∧
    (ResourceManager_EndFrame ∉ drop (length (calls (world st))) (calls (world st'))) ∧
    gpu_fences (world st') = gpu_fences (world st) ∧
    armed (world st') = armed (world st) ∧
    signaled (world st') = signaled (world st) ∧
    live_allocators (world st') = live_allocators (world st) ∧
    next_handle (world st') = next_handle (world st).
Proof.
  intros Hsc Hclose. eexists.
  split; [by apply EndFrame_close_failure |]. cbn.
  repeat split.
  rewrite drop_app_length. intros Hin.
  repeat (apply elem_of_cons in Hin as [Hin | Hin]; [discriminate |]).
  by apply elem_of_nil in Hin.
Qed.

(** An instance: two buffers, a [Close] that fails in the first frame. *)
Lemma EndFrame_close_failure_frame_witness :
  ∃ st',
    EndFrame (env_with 2 1 true false true S_OK) true two_buffers_state = Done tt st' ∧
    this st' = this two_buffers_state ∧
    m_nextFenceValue (this st') = m_nextFenceValue (this two_buffers_state) ∧
    calls (world st') = calls (world two_buffers_state) ++
      [CommandList_TransitionBarrier 0 STATE_RENDER_TARGET STATE_PRESENT;
       CommandList_Close false;
       printf (Failed_close_command_list 0)] ∧
    (ResourceManager_EndFrame ∉
      drop (length (calls (world two_buffers_state))) (calls (world st'))) ∧
    gpu_fences (world st') = gpu_fences (world two_buffers_state) ∧
    armed (world st') = armed (world two_buffers_state) ∧
    signaled (world st') = signaled (world two_buffers_state) ∧
    live_allocators (world st') = live_allocators (world two_buffers_state) ∧
    next_handle (world st') = next_handle (world two_buffers_state).
Proof.
  exact (EndFrame_close_failure_frame
           (env_with 2 1 true false true S_OK) true two_buffers_state
           {| sc_bufferCount := 2; sc_backBufferIndex := 0 |} eq_refl eq_refl).
Defined.

(** ** A present that fails *)

(** C8, as amended.  When the command list closes, [EndFrame] returns
    whatever [Present] answers: the slot records the value drawn, the
    counter has moved on, and [Signal] for that value was called before
    [Present].  [Present] is the last call of [EndFrame]: its result is read
    by nothing and no diagnostic follows it. *)
Theorem EndFrame_present_outcome_ignored
    (env : Env) (vsync : bool) (st : State) (sc : SwapChain) (frame : FrameResources) :
  m_swapChain (this st) = Some sc →
  command_list_close_ok env = true →
  m_frameResources (this st) !! m_currentFrameIndex (this st) = Some frame →
  ∃ st' before,
    EndFrame env vsync st = Done tt st' ∧
    m_frameResources (this st') =
      <[m_currentFrameIndex (this st) :=
          with_fenceValue (m_nextFenceValue (this st)) frame]>
        (m_frameResources (this st)) ∧
    m_nextFenceValue (this st') = uint64_incr (m_nextFenceValue (this st)) ∧
    m_currentFrameIndex (this st') = m_currentFrameIndex (this st) ∧
    calls (world st') =
      calls (world st) ++ before ++ [SwapChain_Present vsync (present_ok env)] ∧
    Queue_Signal (frameFence frame) (m_nextFenceValue (this st)) (signal_hr env) ∈ before ∧
    (∀ v ok, SwapChain_Present v ok ∉ before) ∧
    gpu_fences (world st') = gpu_fences (world st) ∧
    armed (world st') = armed (world st) ∧
    signaled (world st') = signaled (world st).
Proof.
  intros Hsc Hclose Hframe.
  rewrite (EndFrame_submitted _ _ _ _ _ Hsc Hclose Hframe). cbn.
  exists
    {| this :=
         {| m_swapChain := Some (presented env);
            m_frameResources :=
              <[m_currentFrameIndex (this st) :=
                  with_fenceValue (m_nextFenceValue (this st)) frame]>
                (m_frameResources (this st));
            m_currentFrameIndex := m_currentFrameIndex (this st);
            m_nextFenceValue := uint64_incr (m_nextFenceValue (this st)) |};
       world :=
         log_calls
           (submit_calls env vsync (sc_backBufferIndex sc)
              (m_currentFrameIndex (this st)) (frameFence frame)
              (m_nextFenceValue (this st)))
           (world st) |},
    ([CommandList_TransitionBarrier (sc_backBufferIndex sc)
        STATE_RENDER_TARGET STATE_PRESENT;
      CommandList_Close true; ExecuteCommandLists;
      Queue_Signal (frameFence frame) (m_nextFenceValue (this st)) (signal_hr env)] ++
     (if FAILED (signal_hr env)
      then [printf (Failed_signal_fence (m_currentFrameIndex (this st)) (signal_hr env))]
      else []) ++ [ResourceManager_EndFrame]).
  split; [reflexivity |]. cbn.
  do 3 (split; [reflexivity |]).
  split.
  { unfold submit_calls. by destruct (FAILED (signal_hr env)). }
  split.
  { repeat first [apply list_elem_of_here | apply list_elem_of_further]. }
  split; [| done].
  intros v ok Hin.
  repeat (apply elem_of_cons in Hin as [Hin | Hin]; [discriminate |]).
  destruct (FAILED (signal_hr env)); cbn in Hin;
    repeat (apply elem_of_cons in Hin as [Hin | Hin]; [discriminate |]);
    by apply elem_of_nil in Hin.
Qed.

(** An instance: two buffers, a [Present] that fails in the first frame. *)
Lemma EndFrame_present_outcome_ignored_witness :
  ∃ st' before,
    EndFrame (env_with 2 1 true true false S_OK) true two_buffers_state = Done tt st' ∧
    m_frameResources (this st') =
      <[0%nat := with_fenceValue 1
                   {| commandAllocator := Some 0%nat; frameFence := Some 1%nat;
                      fenceEvent := Some 2%nat; fenceValue := 0 |}]>
        (m_frameResources (this two_buffers_state)) ∧
    m_nextFenceValue (this st') = uint64_incr 1 ∧
    m_currentFrameIndex (this st') = 0%nat ∧
    calls (world st') =
      calls (world two_buffers_state) ++ before ++ [SwapChain_Present true false] ∧
    Queue_Signal (Some 1%nat) 1 S_OK ∈ before ∧
    (∀ v ok, SwapChain_Present v ok ∉ before) ∧
    gpu_fences (world st') = gpu_fences (world two_buffers_state) ∧
    armed (world st') = armed (world two_buffers_state) ∧
    signaled (world st') = signaled (world two_buffers_state).
Proof.
  exact (EndFrame_present_outcome_ignored
           (env_with 2 1 true true false S_OK) true two_buffers_state
           {| sc_bufferCount := 2; sc_backBufferIndex := 0 |}
           {| commandAllocator := Some 0%nat; frameFence := Some 1%nat;
              fenceEvent := Some 2%nat; fenceValue := 0 |}
           eq_refl eq_refl eq_refl).
Defined.

(** C8 as stated fails: a failing [Present] is not reported.  With two
    buffers, a failing [Present] and everything else succeeding, [EndFrame]
    returns and the log holds no diagnostic at all. *)
Lemma EndFrame_present_failure_not_reported :
  ∃ st',
    EndFrame (env_with 2 1 true true false S_OK) true two_buffers_state = Done tt st' ∧
    SwapChain_Present true false ∈ calls (world st') ∧
    ∀ d, printf d ∉ calls (world st').
Proof.
  eexists. split.
  { apply (EndFrame_submitted _ _ _ {| sc_bufferCount := 2; sc_backBufferIndex := 0 |}
             {| commandAllocator := Some 0%nat; frameFence := Some 1%nat;
                fenceEvent := Some 2%nat; fenceValue := 0 |}); reflexivity. }
  cbn. split.
  - repeat first [apply list_elem_of_here | apply list_elem_of_further].
  - intros d Hin.
    repeat (apply elem_of_cons in Hin as [Hin | Hin]; [discriminate |]).
    by apply elem_of_nil in Hin.
Qed.

(** ** Waiting changes nothing the renderer owns *)

Lemma quiet_refl st : quiet st st.
Proof. by constructor. Qed.

Lemma quiet_trans st1 st2 st3 : quiet st1 st2 → quiet st2 st3 → quiet st1 st3.
Proof.
  intros [H1 H2 H3 H4 H5] [G1 G2 G3 G4 G5].
  constructor; congruence.
Qed.

Lemma quiet_set_world st0 st w :
  quiet st0 st →
  next_handle w = next_handle (world st) →
  live_allocators w = live_allocators (world st) →
  dom (gpu_fences w) = dom (gpu_fences (world st)) →
  drawn w = drawn (world st) →
  quiet st0 (set_world w st).
Proof.
  intros [H1 H2 H3 H4 H5] G2 G3 G4 G5. constructor; cbn; congruence.
Qed.

Lemma quiet_gpu_run st0 st ds :
  quiet st0 st → quiet st0 (set_world (gpu_run ds (world st)) st).
Proof.
  intros H. apply quiet_set_world; [done | ..].
  - apply gpu_run_next_handle.
  - apply gpu_run_live_allocators.
  - apply gpu_run_dom.
  - apply gpu_run_drawn.
Qed.


Lemma WaitForFrame_quiet env i st0 st :
  quiet st0 st → always (quiet st0) (WaitForFrame env i st).
Proof.
  intros Hq. unfold WaitForFrame. munfold.
  case_decide as Hlen; [done |].
  destruct (m_frameResources (this st) !! i) as [frame |]; cbn; [| done].
  destruct (fenceValue frame =? 0); [done |].
  destruct (frameFence frame) as [f |]; cbn; [| done].
  destruct (gpu_fences (world st) !! f) as [c |] eqn:Hg; cbn; [| done].
  destruct (fenceValue frame <=? c) eqn:Hle; [done |].
  destruct (fenceEvent frame) as [e |]; cbn; [| done].
  unfold SetEventOnCompletion. munfold.
  destruct (FAILED (set_event_hr env i)); munfold.
  { apply (quiet_set_world st0 st); try done.
    unfold drawn; cbn. rewrite !omap_app; cbn. by rewrite !app_nil_r. }
  rewrite Hg; cbn. rewrite Hle; cbn.
  unfold WaitForSingleObject_INFINITE. munfold.
  assert (Hq1 : quiet st0
    {| this := this st;
       world := log_call (WaitForSingleObject e)
                  (arm f (fenceValue frame) e
                     (log_call (Fence_SetEventOnCompletion f (fenceValue frame) e
                                  (set_event_hr env i)) (world st))) |}).
  { apply (quiet_set_world st0 st); try done.
    unfold drawn; cbn. rewrite !omap_app; cbn. by rewrite !app_nil_r. }
  case_decide as Hs.
  - unfold consume. munfold.
    apply (quiet_set_world st0 _ _ Hq1); done.
  - split; [exact Hq1 |]. intros ds. unfold consume. munfold.
    apply (quiet_set_world st0 _ _ (quiet_gpu_run _ _ ds Hq1)); done.
Qed.

Lemma for_each_quiet {A} (body : A → M unit) (l : list A) st0 st :
  (∀ x st, quiet st0 st → always (quiet st0) (body x st)) →
  quiet st0 st →
  always (quiet st0) (for_each l body st).
Proof.
  intros Hbody. revert st. induction l as [| x l IH]; intros st Hq; cbn; [done |].
  unfold bind. apply always_bind_res; [by apply Hbody |].
  intros _ st' Hq'. by apply IH.
Qed.

Lemma WaitForAllFrames_quiet env st0 st :
  quiet st0 st → always (quiet st0) (WaitForAllFrames env st).
Proof.
  intros Hq. unfold WaitForAllFrames. munfold.
  apply for_each_quiet; [| done].
  intros i st1 Hq1. by apply WaitForFrame_quiet.
Qed.

(** *** The calls of a wait *)

Lemma waited_refl st : waited st st.
Proof. split; [apply quiet_refl |]. exists []. by rewrite app_nil_r. Qed.

Lemma waited_log st0 st cs :
  waited st0 st → forallb wait_call cs = true →
  waited st0 (set_world (log_calls cs (world st)) st).
Proof.
  intros [Hq (new & Hc & Hw)] Hcs. split.
  - apply quiet_set_world; try done.
    rewrite drawn_log_calls.
    assert (H : omap drawn_value cs = []).
    { clear -Hcs. induction cs as [| c cs IH]; [done |]. cbn in Hcs.
      apply andb_true_iff in Hcs as [Hc Hcs]. cbn. rewrite (IH Hcs).
      by destruct c. }
    rewrite H. apply app_nil_r.
  - exists (new ++ cs). cbn. rewrite Hc, <- app_assoc. split; [done |].
    rewrite forallb_app, Hw, Hcs. done.
Qed.

Lemma waited_same_log st0 st w :
  waited st0 st →
  next_handle w = next_handle (world st) →
  live_allocators w = live_allocators (world st) →
  dom (gpu_fences w) = dom (gpu_fences (world st)) →
  calls w = calls (world st) →
  waited st0 (set_world w st).
Proof.
  intros [Hq (new & Hc & Hw)] H1 H2 H3 H4. split.
  - apply quiet_set_world; try done. unfold drawn. by rewrite H4.
  - exists new. cbn. by rewrite H4.
Qed.

Lemma waited_gpu_run st0 st ds :
  waited st0 st → waited st0 (set_world (gpu_run ds (world st)) st).
Proof.
  intros H. apply waited_same_log; [done | ..].
  - apply gpu_run_next_handle.
  - apply gpu_run_live_allocators.
  - apply gpu_run_dom.
  - apply gpu_run_calls.
Qed.

Lemma WaitForFrame_waited env i st0 st :
  waited st0 st → always (waited st0) (WaitForFrame env i st).
Proof.
  intros Hq.
  destruct (m_frameResources (this st) !! i) as [frame |] eqn:Hl.
  2:{ apply lookup_ge_None in Hl. by rewrite WaitForFrame_out_of_range. }
  destruct (Z.eqb_spec (fenceValue frame) 0) as [Hz | Hz].
  { rewrite (WaitForFrame_complete env st i frame Hl); [done | by left]. }
  destruct (frameFence frame) as [f |] eqn:Hf.
  2:{ unfold WaitForFrame. munfold. case_decide; [done |]. rewrite Hl; cbn.
      destruct (Z.eqb_spec (fenceValue frame) 0); [done |]. by rewrite Hf. }
  destruct (gpu_fences (world st) !! f) as [c |] eqn:Hg.
  2:{ unfold WaitForFrame. munfold. case_decide; [done |]. rewrite Hl; cbn.
      destruct (Z.eqb_spec (fenceValue frame) 0); [done |]. rewrite Hf; cbn.
      by rewrite Hg. }
  destruct (Z.leb_spec (fenceValue frame) c) as [Hle | Hlt].
  { rewrite (WaitForFrame_complete env st i frame Hl); [done |].
    right. by exists f, c. }
  destruct (fenceEvent frame) as [e |] eqn:He.
  2:{ unfold WaitForFrame. munfold. case_decide; [done |]. rewrite Hl; cbn.
      destruct (Z.eqb_spec (fenceValue frame) 0); [done |]. rewrite Hf; cbn.
      rewrite Hg; cbn. destruct (Z.leb_spec (fenceValue frame) c); [lia |].
      by rewrite He. }
  rewrite (WaitForFrame_in_flight env st i frame f c e Hl Hf He Hg Hz Hlt).
  destruct (FAILED (set_event_hr env i)).
  { cbn [always]. by apply waited_log. }
  cbn zeta.
  set (st1 := set_world (log_calls _ (arm f (fenceValue frame) e (world st))) st).
  assert (H1 : waited st0 st1).
  { subst st1.
    change (set_world (log_calls ?cs (arm f (fenceValue frame) e (world st))) st)
      with (set_world (log_calls cs (world (set_world (arm f (fenceValue frame) e (world st)) st)))
              (set_world (arm f (fenceValue frame) e (world st)) st)).
    apply waited_log; [| done]. by apply waited_same_log. }
  case_decide as Hs.
  - unfold consume. munfold. by apply (waited_same_log st0 st1).
  - cbn [always]. split; [done |]. intros ds. unfold consume. munfold.
    apply (waited_same_log st0 _ _ (waited_gpu_run _ _ ds H1)); done.
Qed.

Lemma for_each_waited {A} (body : A → M unit) (l : list A) st0 st :
  (∀ x st, waited st0 st → always (waited st0) (body x st)) →
  waited st0 st →
  always (waited st0) (for_each l body st).
Proof.
  intros Hbody. revert st. induction l as [| x l IH]; intros st Hq; cbn; [done |].
  unfold bind. apply always_bind_res; [by apply Hbody |].
  intros _ st' Hq'. by apply IH.
Qed.

Lemma WaitForAllFrames_waited env st0 st :
  waited st0 st → always (waited st0) (WaitForAllFrames env st).
Proof.
  intros Hq. unfold WaitForAllFrames. munfold.
  apply for_each_waited; [| done].
  intros i st1 Hq1. by apply WaitForFrame_waited.
Qed.

Lemma wait_call_elem c new :
  forallb wait_call new = true → c ∈ new → wait_call c = true.
Proof.
  intros Hw Hin. rewrite forallb_forall in Hw. apply Hw. by apply list_elem_of_In.
Qed.

(** ** Creating and releasing the pool *)

Lemma grown_refl st : grown st st.
Proof.
  constructor; try done. exists []. rewrite app_nil_r. split; [done |].
  split; [done |]. intros frame Hin. by apply elem_of_nil in Hin.
Qed.

Lemma grown_trans st1 st2 st3 : grown st1 st2 → grown st2 st3 → grown st1 st3.
Proof.
  intros [H1 H2 H3 H4 H5 H6 H7 H8 (n1 & H9 & H10 & H11) H12 H13]
         [G1 G2 G3 G4 G5 G6 G7 G8 (n2 & G9 & G10 & G11) G12 G13].
  constructor; try congruence; [lia | auto | | |].
  - exists (n1 ++ n2). split; [| split].
    + rewrite G9, H9. by rewrite app_assoc.
    + rewrite omap_app, H10, G10. done.
    + intros frame Hin. apply elem_of_app in Hin as [Hin | Hin];
        [by apply (H11 frame) | by apply (G11 frame)].
  - intros id Hid Hin. apply H12; [done |]. apply G12; [lia | done].
  - intros id Hid Hnone. apply G13; [lia |]. by apply H13.
Qed.

Lemma slot_ready_mono lo lo' w w' frame :
  (lo' ≤ lo)%nat →
  (∀ g, gpu_fences w !! g = Some 0 → gpu_fences w' !! g = Some 0) →
  slot_ready lo w frame → slot_ready lo' w' frame.
Proof.
  intros Hlo Hz (a & f & e & Ha & Hf & He & Hg & ? & ? & ?).
  exists a, f, e. repeat split; auto; lia.
Qed.

Lemma InitializeFrameResources_body_spec env i st frame :
  m_frameResources (this st) !! i = Some frame →
  commandAllocator frame = None → frameFence frame = None →
  fenceEvent frame = None →
  ∃ st' frame',
    InitializeFrameResources_body env i st = Done (slot_created_ok env i) st' ∧
    grown st st' ∧
    m_frameResources (this st') = <[i := frame']> (m_frameResources (this st)) ∧
    fenceValue frame' = fenceValue frame ∧
    (∀ id, id ∈ slot_objects frame' → (next_handle (world st) ≤ id)%nat) ∧
    (slot_created_ok env i = true →
     slot_ready (next_handle (world st)) (world st') frame').
Proof.
  intros Hl Ha Hf He.
  assert (Hi : (i < length (m_frameResources (this st)))%nat)
    by (by eapply lookup_lt_Some).
  unfold InitializeFrameResources_body, slot_created_ok.
  unfold make_unique_CommandAllocator, fresh_handle. munfold.
  rewrite Hl; cbn. rewrite Ha; cbn. rewrite Hl; cbn.
  destruct (allocator_initialize_ok env i); munfold.
  2:{ eexists _, _. split; [reflexivity |]. cbn.
      split; [| split; [reflexivity | split; [reflexivity |]]].
      - constructor; cbn; grown_field Hl.
      - split; [| done]. unfold slot_objects; cbn. rewrite Hf, He; cbn.
        intros id Hid. apply list_elem_of_singleton in Hid. lia. }
  rewrite Hf; cbn.
  rewrite !list_lookup_insert_eq by (rewrite ?length_insert; lia). cbn.
  rewrite !list_insert_insert_eq.
  unfold Device_CreateFence, fresh_handle.
  destruct (FAILED (create_fence_hr env i)) eqn:Hhr; munfold.
  { rewrite !list_lookup_insert_eq by (rewrite ?length_insert; lia). cbn.
    rewrite !list_insert_insert_eq.
    eexists _, _. split; [reflexivity |]. cbn.
    split; [| split; [reflexivity | split; [reflexivity |]]].
    - constructor; cbn; grown_field Hl.
    - split; [| done]. unfold slot_objects; cbn. rewrite He; cbn.
      intros id Hid. apply list_elem_of_singleton in Hid. lia. }
  rewrite !list_lookup_insert_eq by (rewrite ?length_insert; lia). cbn.
  rewrite !list_insert_insert_eq.
  unfold Win32_CreateEvent, fresh_handle.
  destruct (create_event_ok env i); munfold.
  - rewrite !list_lookup_insert_eq by (rewrite ?length_insert; lia). cbn.
    rewrite !list_insert_insert_eq.
    eexists _, _. split; [reflexivity |]. cbn.
    split; [| split; [reflexivity | split; [reflexivity |]]].
    + constructor; cbn; grown_field Hl.
    + split.
      * unfold slot_objects; cbn. intros id Hid.
        repeat (apply elem_of_cons in Hid as [-> | Hid]; [lia |]).
        by apply elem_of_nil in Hid.
      * intros _. eexists _, _, _. cbn.
        repeat split; try reflexivity; try lia.
        by rewrite lookup_insert_eq.
  - rewrite !list_lookup_insert_eq by (rewrite ?length_insert; lia). cbn.
    rewrite !list_insert_insert_eq.
    eexists _, _. split; [reflexivity |]. cbn.
    split; [| split; [reflexivity | split; [reflexivity |]]].
    + constructor; cbn; grown_field Hl.
    + split; [| done]. unfold slot_objects; cbn. intros id Hid.
      repeat (apply elem_of_cons in Hid as [-> | Hid]; [lia |]).
      by apply elem_of_nil in Hid.
Qed.

Lemma InitializeFrameResources_loop_spec env m : ∀ i st,
  (∀ j, (i ≤ j < i + m)%nat →
        m_frameResources (this st) !! j = Some FrameResources_default) →
  ∃ st',
    InitializeFrameResources_loop env i m st =
      Done (forallb (slot_created_ok env) (seq i m)) st' ∧
    grown st st' ∧
    (∀ j, (j < i ∨ i + m ≤ j)%nat →
          m_frameResources (this st') !! j = m_frameResources (this st) !! j) ∧
    (∀ j frame, (i ≤ j < i + m)%nat → m_frameResources (this st') !! j = Some frame →
       fenceValue frame = 0 ∧
       ∀ id, id ∈ slot_objects frame → (next_handle (world st) ≤ id)%nat) ∧
    (forallb (slot_created_ok env) (seq i m) = true →
     ∀ j frame, (i ≤ j < i + m)%nat → m_frameResources (this st') !! j = Some frame →
       slot_ready (next_handle (world st)) (world st') frame).
Proof.
  induction m as [| m IH]; intros i st Hdef.
  { exists st. cbn. split; [done |]. split; [apply grown_refl |].
    repeat split; intros; lia. }
  cbn [InitializeFrameResources_loop seq forallb]. unfold bind.
  destruct (InitializeFrameResources_body_spec env i st FrameResources_default)
    as (st1 & frame1 & Hbody & Hg1 & Hpool1 & Hv1 & Hobj1 & Hready1);
    [apply Hdef; lia | done .. |].
  rewrite Hbody. cbn [bind_res].
  assert (Hi : (i < length (m_frameResources (this st)))%nat).
  { eapply lookup_lt_Some. apply Hdef. lia. }
  destruct (slot_created_ok env i) eqn:Hok; cbn [andb].
  - destruct (IH (S i) st1) as (st2 & Hloop & Hg2 & Hsame2 & Hfresh2 & Hready2).
    { intros j Hj. rewrite Hpool1, list_lookup_insert_ne by lia. apply Hdef. lia. }
    exists st2. split; [exact Hloop |].
    split; [by eapply grown_trans |].
    split; [| split].
    + intros j Hj. rewrite Hsame2 by lia.
      rewrite Hpool1. apply list_lookup_insert_ne. lia.
    + intros j frame Hj Hl. destruct (decide (j = i)) as [-> | Hne].
      * rewrite Hsame2 in Hl by lia.
        rewrite Hpool1, list_lookup_insert_eq in Hl by done.
        injection Hl as <-. split; [by rewrite Hv1 | done].
      * destruct (Hfresh2 j frame) as [Hz Hid]; [lia | done |].
        split; [done |]. intros id Hin. specialize (Hid id Hin).
        pose proof (grown_handles _ _ Hg1). lia.
    + intros Hall j frame Hj Hl. destruct (decide (j = i)) as [-> | Hne].
      * rewrite Hsame2 in Hl by lia.
        rewrite Hpool1, list_lookup_insert_eq in Hl by done.
        injection Hl as <-.
        eapply slot_ready_mono; [| apply (grown_zero _ _ Hg2) | by apply Hready1].
        done.
      * eapply slot_ready_mono; [| | apply (Hready2 Hall j frame); [lia | done]].
        -- apply (grown_handles _ _ Hg1).
        -- auto.
  - exists st1. split; [done |]. split; [done |].
    split; [| split].
    + intros j Hj. rewrite Hpool1. apply list_lookup_insert_ne. lia.
    + intros j frame Hj Hl. rewrite Hpool1 in Hl.
      destruct (decide (j = i)) as [-> | Hne].
      * rewrite list_lookup_insert_eq in Hl by done. injection Hl as <-.
        split; [by rewrite Hv1 | done].
      * rewrite list_lookup_insert_ne in Hl by done.
        rewrite Hdef in Hl by lia. injection Hl as <-.
        split; [done |]. unfold slot_objects; cbn. intros id Hin.
        by apply elem_of_nil in Hin.
    + discriminate.
Qed.

(** [InitializeFrameResources] on an empty pool, as the constructor and
    [OnReconfigure] call it. *)
Lemma InitializeFrameResources_empty env st sc :
  m_swapChain (this st) = Some sc →
  m_frameResources (this st) = [] →
  ∃ st',
    InitializeFrameResources env st =
      Done (forallb (slot_created_ok env) (seq 0 (sc_bufferCount sc))) st' ∧
    m_swapChain (this st') = Some sc ∧
    m_currentFrameIndex (this st') = m_currentFrameIndex (this st) ∧
    m_nextFenceValue (this st') = m_nextFenceValue (this st) ∧
    armed (world st') = armed (world st) ∧
    signaled (world st') = signaled (world st) ∧
    (∃ new, calls (world st') = calls (world st) ++ new ∧ omap drawn_value new = []) ∧
    length (m_frameResources (this st')) = sc_bufferCount sc ∧
    (∀ j frame, m_frameResources (this st') !! j = Some frame →
       fenceValue frame = 0 ∧
       ∀ id, id ∈ slot_objects frame → (next_handle (world st) ≤ id)%nat) ∧
    (forallb (slot_created_ok env) (seq 0 (sc_bufferCount sc)) = true →
     ∀ j frame, m_frameResources (this st') !! j = Some frame →
       slot_ready (next_handle (world st)) (world st') frame).
Proof.
  intros Hsc Hnil. unfold InitializeFrameResources, vector_resize. munfold.
  rewrite Hsc; cbn. rewrite Hnil; cbn.
  rewrite drop_nil, take_nil, Nat.sub_0_r. cbn.
  set (st1 := {| this := with_frameResources
                            (replicate (sc_bufferCount sc) FrameResources_default) (this st);
                 world := world st |}).
  destruct (InitializeFrameResources_loop_spec env (sc_bufferCount sc) 0 st1)
    as (st' & Hloop & Hg & _ & Hfresh & Hready).
  { intros j Hj. subst st1; cbn. apply lookup_replicate_2. lia. }
  exists st'. split; [exact Hloop |].
  destruct Hg as [G1 G2 G3 G4 G5 G6 G7 G8 (new & G9 & G10 & _) _ _].
  assert (Hlen : length (m_frameResources (this st')) = sc_bufferCount sc).
  { apply (f_equal length) in G4. rewrite !length_fmap in G4.
    rewrite G4. subst st1; cbn. apply length_replicate. }
  assert (Hin : ∀ j frame, m_frameResources (this st') !! j = Some frame →
                           (0 ≤ j < 0 + sc_bufferCount sc)%nat).
  { intros j frame Hl. apply lookup_lt_Some in Hl. lia. }
  split; [by rewrite G1 |]. do 4 (split; [done |]).
  split; [by exists new |].
  split; [done |]. split.
  - intros j frame Hl. apply (Hfresh j frame); [by eapply Hin | done].
  - intros Hall j frame Hl. apply (Hready Hall j frame); [by eapply Hin | done].
Qed.

(** Creating the pool releases nothing and brings no allocator or fence
    named before the call into existence. *)
Lemma InitializeFrameResources_empty_fresh env st sc :
  m_swapChain (this st) = Some sc →
  m_frameResources (this st) = [] →
  ∃ st',
    InitializeFrameResources env st =
      Done (forallb (slot_created_ok env) (seq 0 (sc_bufferCount sc))) st' ∧
    (∃ new, calls (world st') = calls (world st) ++ new ∧
            ∀ frame, Release_FrameResources frame ∉ new) ∧
    (∀ id, (id < next_handle (world st))%nat →
           id ∈ live_allocators (world st') → id ∈ live_allocators (world st)) ∧
    (∀ id, (id < next_handle (world st))%nat →
           gpu_fences (world st) !! id = None → gpu_fences (world st') !! id = None).
Proof.
  intros Hsc Hnil. unfold InitializeFrameResources, vector_resize. munfold.
  rewrite Hsc; cbn. rewrite Hnil; cbn.
  rewrite drop_nil, take_nil, Nat.sub_0_r. cbn.
  set (st1 := {| this := with_frameResources
                            (replicate (sc_bufferCount sc) FrameResources_default) (this st);
                 world := world st |}).
  destruct (InitializeFrameResources_loop_spec env (sc_bufferCount sc) 0 st1)
    as (st' & Hloop & Hg & _).
  { intros j Hj. subst st1; cbn. apply lookup_replicate_2. lia. }
  exists st'. split; [exact Hloop |].
  destruct Hg as [_ _ _ _ _ _ _ _ (new & G9 & _ & G10) G11 G12].
  split; [by exists new |]. by split.
Qed.

Lemma destroy_frames_calls frames w :
  calls (destroy_frames frames w) = calls w ++ (Release_FrameResources <$> frames).
Proof.
  revert w. induction frames as [| frame frames IH]; intros w.
  - cbn. by rewrite app_nil_r.
  - change (destroy_frames (frame :: frames) w)
      with (destroy_frames frames (destroy_frame frame w)).
    rewrite IH. unfold destroy_frame. cbn [calls log_call].
    assert (Hc : calls (destroy_fence (frameFence frame)
                          (destroy_allocator (commandAllocator frame) w)) = calls w).
    { by destruct (frameFence frame), (commandAllocator frame). }
    rewrite Hc. by rewrite <- app_assoc.
Qed.

Lemma destroy_frames_world frames w :
  armed (destroy_frames frames w) = armed w ∧
  signaled (destroy_frames frames w) = signaled w ∧
  next_handle (destroy_frames frames w) = next_handle w.
Proof.
  revert w. induction frames as [| frame frames IH]; intros w; [done |].
  change (destroy_frames (frame :: frames) w)
    with (destroy_frames frames (destroy_frame frame w)).
  destruct (IH (destroy_frame frame w)) as (-> & -> & ->).
  unfold destroy_frame.
  by destruct (frameFence frame), (commandAllocator frame).
Qed.


(** What a released slot owned exists no more. *)
Lemma destroy_frame_gone frame w :
  (∀ a, a ∉ live_allocators w → a ∉ live_allocators (destroy_frame frame w)) ∧
  (∀ f, gpu_fences w !! f = None → gpu_fences (destroy_frame frame w) !! f = None) ∧
  (∀ a, commandAllocator frame = Some a → a ∉ live_allocators (destroy_frame frame w)) ∧
  (∀ f, frameFence frame = Some f → gpu_fences (destroy_frame frame w) !! f = None).
Proof.
  unfold destroy_frame, destroy_fence, destroy_allocator.
  destruct (frameFence frame) as [f0 |], (commandAllocator frame) as [a0 |]; cbn;
    repeat split; try done.
  - intros a Ha Hin. apply elem_of_difference in Hin as [Hin _]. done.
  - intros f Hf. destruct (decide (f = f0)) as [-> |];
      [apply lookup_delete_eq | by rewrite lookup_delete_ne].
  - intros a [= <-] Hin. apply elem_of_difference in Hin as [_ Hin].
    apply Hin. by apply elem_of_singleton.
  - intros f [= <-]. apply lookup_delete_eq.
  - intros f Hf. destruct (decide (f = f0)) as [-> |];
      [apply lookup_delete_eq | by rewrite lookup_delete_ne].
  - intros f [= <-]. apply lookup_delete_eq.
  - intros a Ha Hin. apply elem_of_difference in Hin as [Hin _]. done.
  - intros a [= <-] Hin. apply elem_of_difference in Hin as [_ Hin].
    apply Hin. by apply elem_of_singleton.
Qed.

Lemma destroy_frames_gone frames : ∀ w,
  (∀ a, a ∉ live_allocators w → a ∉ live_allocators (destroy_frames frames w)) ∧
  (∀ f, gpu_fences w !! f = None → gpu_fences (destroy_frames frames w) !! f = None) ∧
  (∀ frame a, frame ∈ frames → commandAllocator frame = Some a →
              a ∉ live_allocators (destroy_frames frames w)) ∧
  (∀ frame f, frame ∈ frames → frameFence frame = Some f →
              gpu_fences (destroy_frames frames w) !! f = None).
Proof.
  induction frames as [| frame0 frames IH]; intros w.
  { repeat split; try done; intros ? ? Hin; by apply elem_of_nil in Hin. }
  change (destroy_frames (frame0 :: frames) w)
    with (destroy_frames frames (destroy_frame frame0 w)).
  destruct (IH (destroy_frame frame0 w)) as (IH1 & IH2 & IH3 & IH4).
  destruct (destroy_frame_gone frame0 w) as (D1 & D2 & D3 & D4).
  repeat split.
  - intros a Ha. by apply IH1, D1.
  - intros f Hf. by apply IH2, D2.
  - intros frame a Hin Ha. apply elem_of_cons in Hin as [-> | Hin].
    + by apply IH1, D3.
    + by apply (IH3 frame).
  - intros frame f Hin Hf. apply elem_of_cons in Hin as [-> | Hin].
    + by apply IH2, D4.
    + by apply (IH4 frame).
Qed.

Lemma ReleaseFrameResources_spec st :
  ReleaseFrameResources st =
    Done tt {| this := with_frameResources [] (this st);
               world := destroy_frames (m_frameResources (this st)) (world st) |}.
Proof. done. Qed.

(** What is left of [OnReconfigure] once every frame has been waited for. *)
Lemma OnReconfigure_unfold env width height bufferCount st sc :
  m_swapChain (this st) = Some sc →
  OnReconfigure env width height bufferCount st =
    bind_res (WaitForAllFrames env st)
      (fun _ => OnReconfigure_recreate env width height bufferCount).
Proof. intros Hsc. unfold OnReconfigure. munfold. by rewrite Hsc. Qed.

Lemma OnReconfigure_no_swap_chain env width height bufferCount st :
  m_swapChain (this st) = None →
  OnReconfigure env width height bufferCount st = Done tt st.
Proof. intros Hsc. unfold OnReconfigure. munfold. by rewrite Hsc. Qed.

(** With every slot complete the drain returns at once. *)
Lemma WaitForAllFrames_drained env st :
  (∀ i frame, m_frameResources (this st) !! i = Some frame →
              slot_complete (world st) frame) →
  WaitForAllFrames env st = Done tt st.
Proof.
  intros Hall. unfold WaitForAllFrames. munfold.
  assert (H : ∀ l, (∀ i, i ∈ l → (i < length (m_frameResources (this st)))%nat) →
                   for_each l (WaitForFrame env) st = Done tt st).
  { induction l as [| i l IH]; intros Hl; [done |]. cbn. unfold bind.
    destruct (lookup_lt_is_Some_2 (m_frameResources (this st)) i) as [frame Hfr].
    { apply Hl. apply list_elem_of_here. }
    rewrite (WaitForFrame_complete env st i frame Hfr (Hall _ _ Hfr)). cbn.
    apply IH. intros j Hj. apply Hl. by apply list_elem_of_further. }
  apply H. intros i Hi. apply elem_of_seq in Hi. lia.
Qed.

Lemma quiet_kept st st' : quiet st st' → kept st st'.
Proof. intros [H1 H2 H3 H4 H5]. constructor; try done; by rewrite H1. Qed.

(** ** Reconfiguring *)

(** C9.  [OnReconfigure] with [bufferCount = 0]: in every state the call
    parks or returns in, the pool is the one it was called with, slot by
    slot, with the frame index and the fence counter, and no allocator or
    fence was created or destroyed.  When every slot is complete at the
    call, it returns without parking. *)
Theorem OnReconfigure_zero_keeps_pool
    (env : Env) (width height : nat) (st : State) :
  always (kept st) (OnReconfigure env width height 0 st) ∧
  ((∀ i frame, m_frameResources (this st) !! i = Some frame →
               slot_complete (world st) frame) →
   ∃ st', OnReconfigure env width height 0 st = Done tt st' ∧ kept st st').
Proof.
  assert (Hrefl : kept st st) by (by constructor).
  destruct (m_swapChain (this st)) as [sc |] eqn:Hsc.
  2:{ rewrite (OnReconfigure_no_swap_chain _ _ _ _ _ Hsc). eauto. }
  rewrite (OnReconfigure_unfold _ _ _ _ _ _ Hsc).
  assert (Hrest : ∀ st1, m_swapChain (this st1) = Some sc → kept st st1 →
    ∃ st2, OnReconfigure_recreate env width height 0 st1 = Done tt st2 ∧ kept st st2).
  { intros st1 Hsc1 [K1 K2 K3 K4 K5 K6]. unfold OnReconfigure_recreate. munfold.
    rewrite Hsc1; cbn.
    destruct (reconfigure_ok env); munfold.
    - case_decide as Hne; [done |].
      eexists. split; [reflexivity |]. by constructor.
    - eexists. split; [reflexivity |]. by constructor. }
  split.
  - apply always_bind_res_via with (P := quiet st).
    + apply WaitForAllFrames_quiet, quiet_refl.
    + apply quiet_kept.
    + intros _ st1 Hq.
      destruct (Hrest st1) as (st2 & -> & Hk2);
        [by rewrite (quiet_this _ _ Hq) | by apply quiet_kept | exact Hk2].
  - intros Hall. rewrite (WaitForAllFrames_drained env st Hall). cbn [bind_res].
    by apply Hrest.
Qed.

(** An instance: a fresh renderer with two buffers, where the call
    returns. *)
Lemma OnReconfigure_zero_keeps_pool_witness :
  ∃ st', OnReconfigure (env_ok 2 0) 800 600 0 two_buffers_state = Done tt st' ∧
         kept two_buffers_state st'.
Proof.
  apply (proj2 (OnReconfigure_zero_keeps_pool (env_ok 2 0) 800 600 two_buffers_state)).
  intros i frame Hl. left.
  destruct i as [| [| i]]; cbn in Hl; inversion Hl; reflexivity.
Defined.

Lemma OnReconfigure_recreate_changed env width height n st0 st sc :
  waited st0 st →
  m_swapChain (this st) = Some sc →
  n ≠ 0%nat → n ≠ sc_bufferCount sc →
  reconfigure_ok env = true →
  sc_bufferCount (reconfigured env) = n →
  ∃ st', OnReconfigure_recreate env width height n st = Done tt st' ∧
         recreated env n st0 st'.
Proof.
  intros [[Q1 Q2 Q3 Q4 Q5] (waits & Hw & Hwc)] Hsc Hn Hne Hok Hcount.
  unfold OnReconfigure_recreate. munfold. rewrite Hsc; cbn. rewrite Hok. munfold.
  destruct (Nat.eqb_spec n 0) as [| _]; [done |].
  case_decide as Hd; [| done].
  rewrite ReleaseFrameResources_spec. cbn.
  match goal with
  | |- context [InitializeFrameResources env ?s] => set (st1 := s)
  end.
  destruct (InitializeFrameResources_empty env st1 (reconfigured env))
    as (st2 & Hinit & I1 & I2 & I3 & I4 & I5 & (new & I6 & I7) & I8 & I9 & I10);
    [done | done |].
  destruct (InitializeFrameResources_empty_fresh env st1 (reconfigured env))
    as (st2' & Hinit' & (new' & F1 & F2) & F3 & F4); [done | done |].
  rewrite Hinit in Hinit'. injection Hinit' as <-.
  rewrite Hcount in *.
  assert (Hh : next_handle (world st1) = next_handle (world st0)).
  { subst st1; cbn [world].
    match goal with
    | |- next_handle (destroy_frames ?fs ?w) = _ =>
      destruct (destroy_frames_world fs w) as (_ & _ & ->)
    end. cbn. done. }
  assert (Hc1 : calls (world st1) =
            calls (world st0) ++
            (waits ++ [SwapChain_Reconfigure width height n true]) ++
            (Release_FrameResources <$> m_frameResources (this st0))).
  { subst st1; cbn [world]. rewrite destroy_frames_calls. cbn [calls log_call].
    rewrite Hw, Q1. by rewrite <- !app_assoc. }
  assert (Hbefore : ∀ frame, Release_FrameResources frame ∉
            waits ++ [SwapChain_Reconfigure width height n true]).
  { intros frame Hin. apply elem_of_app in Hin as [Hin | Hin].
    - by pose proof (wait_call_elem _ _ Hwc Hin).
    - apply list_elem_of_singleton in Hin. discriminate. }
  assert (Hgone : ∀ w,
    (∀ frame a, frame ∈ m_frameResources (this st0) → commandAllocator frame = Some a →
                a ∉ live_allocators (destroy_frames (m_frameResources (this st)) w)) ∧
    (∀ frame f, frame ∈ m_frameResources (this st0) → frameFence frame = Some f →
                gpu_fences (destroy_frames (m_frameResources (this st)) w) !! f = None)).
  { intros w. rewrite Q1.
    destruct (destroy_frames_gone (m_frameResources (this st0)) w) as (_ & _ & D3 & D4).
    by split. }
  assert (Hfinal : ∀ after st3,
    this st3 = this st2 →
    live_allocators (world st3) = live_allocators (world st2) →
    gpu_fences (world st3) = gpu_fences (world st2) →
    calls (world st3) = calls (world st2) ++ after →
    (∀ frame, Release_FrameResources frame ∉ after) →
    recreated env n st0 st3).
  { intros after st3 Ht Hl Hg Hc Hafter. constructor; rewrite ?Ht, ?Hl, ?Hg.
    - done.
    - exists (waits ++ [SwapChain_Reconfigure width height n true]), (new' ++ after).
      split; [| split; [done |]].
      + rewrite Hc, F1, Hc1. by rewrite <- !app_assoc.
      + intros frame Hin. apply elem_of_app in Hin as [Hin | Hin];
          [by apply (F2 frame) | by apply (Hafter frame)].
    - intros frame a Hin Ha Hlt Hlive. apply F3 in Hlive; [| lia].
      revert Hlive. subst st1; cbn [world]. by apply (proj1 (Hgone _) frame).
    - intros frame f Hin Hf Hlt. apply F4; [lia |].
      subst st1; cbn [world]. by apply (proj2 (Hgone _) frame).
    - intros i frame Hl'. by apply (I9 i frame).
    - intros i frame id Hl' Hid. rewrite <- Hh. by apply (I9 i frame).
    - intros frame Hin. rewrite Hc, F1, Hc1.
      do 2 (apply elem_of_app; left). do 2 (apply elem_of_app; right).
      apply list_elem_of_fmap. by exists frame.
    - intros Hall i frame Hl'. rewrite <- Hh.
      destruct (I10 Hall i frame Hl') as (a & f & e & ? & ? & ? & Hz & ?).
      exists a, f, e. rewrite Hg. done.
    - rewrite I3. subst st1; cbn. by rewrite Q1. }
  rewrite Hinit. cbn [bind_res].
  destruct (forallb (slot_created_ok env) (seq 0 n)); munfold.
  - exists st2. split; [done |]. apply (Hfinal []); try done.
    + by rewrite app_nil_r.
    + intros frame Hin. by apply elem_of_nil in Hin.
  - eexists. split; [reflexivity |].
    apply (Hfinal [printf Failed_reinitialize_frame_resources]); try done.
    intros frame Hin. apply list_elem_of_singleton in Hin. discriminate.
Qed.

(** C7.  [OnReconfigure] asked for a buffer count that differs from the
    swap chain's, when the swap chain reconfigures and then reports the
    count asked for: whenever the call returns, every slot of the old pool
    has been released, once and during the call, the allocator and the fence
    each of them owned exist no more, and the pool has exactly [bufferCount]
    slots, each with [fenceValue = 0] and owning only objects created during
    the call (all three of them when every creation succeeded).  When every
    slot is complete at the call, it returns without parking. *)
Theorem OnReconfigure_changed_count_recreates_pool
    (env : Env) (width height bufferCount : nat) (st : State) (sc : SwapChain) :
  m_swapChain (this st) = Some sc →
  bufferCount ≠ 0%nat →
  bufferCount ≠ sc_bufferCount sc →
  reconfigure_ok env = true →
  sc_bufferCount (reconfigured env) = bufferCount →
  on_return (fun _ st' => recreated env bufferCount st st')
    (OnReconfigure env width height bufferCount st) ∧
  ((∀ i frame, m_frameResources (this st) !! i = Some frame →
               slot_complete (world st) frame) →
   ∃ st', OnReconfigure env width height bufferCount st = Done tt st' ∧
          recreated env bufferCount st st').
Proof.
  intros Hsc Hn Hne Hok Hcount.
  rewrite (OnReconfigure_unfold _ _ _ _ _ _ Hsc). split.
  - apply on_return_bind_res with (Q := fun _ st1 => waited st st1).
    + apply always_on_return, WaitForAllFrames_waited, waited_refl.
    + intros _ st1 Hq.
      destruct (OnReconfigure_recreate_changed env width height bufferCount st st1 sc)
        as (st2 & -> & Hr);
        [exact Hq | by rewrite (quiet_this _ _ (waited_quiet _ _ Hq))
         | done | done | done | done |].
      exact Hr.
  - intros Hall. rewrite (WaitForAllFrames_drained env st Hall). cbn [bind_res].
    apply OnReconfigure_recreate_changed with (sc := sc);
      [apply waited_refl | done ..].
Qed.

(** An instance: from two buffers to three.  The call returns; the
    allocators 0 and 3 and the fences 1 and 4 of the two old slots exist no
    more. *)
Lemma OnReconfigure_changed_count_recreates_pool_witness :
  on_return (fun _ st' => recreated (env_ok 3 0) 3 two_buffers_state st')
    (OnReconfigure (env_ok 3 0) 800 600 3 two_buffers_state) ∧
  ∃ st', OnReconfigure (env_ok 3 0) 800 600 3 two_buffers_state = Done tt st' ∧
         recreated (env_ok 3 0) 3 two_buffers_state st' ∧
         (0%nat ∉ live_allocators (world st')) ∧
         (3%nat ∉ live_allocators (world st')) ∧
         gpu_fences (world st') !! 1%nat = None ∧
         gpu_fences (world st') !! 4%nat = None.
Proof.
  pose proof (OnReconfigure_changed_count_recreates_pool (env_ok 3 0) 800 600 3
                two_buffers_state {| sc_bufferCount := 2; sc_backBufferIndex := 0 |}
                eq_refl ltac:(discriminate) ltac:(discriminate) eq_refl eq_refl)
    as [Hret Hrun].
  split; [exact Hret |].
  destruct Hrun as (st' & Hrun & Hr).
  { intros i frame Hl. left.
    destruct i as [| [| i]]; cbn in Hl; inversion Hl; reflexivity. }
  exists st'. split; [exact Hrun |]. split; [exact Hr |].
  pose proof (recreated_allocators_gone _ _ _ _ Hr) as Ha.
  pose proof (recreated_fences_gone _ _ _ _ Hr) as Hf.
  split; [| split; [| split]].
  - eapply (Ha _ 0%nat); [apply list_elem_of_here | reflexivity | cbn; lia].
  - eapply (Ha _ 3%nat);
      [apply list_elem_of_further, list_elem_of_here | reflexivity | cbn; lia].
  - eapply (Hf _ 1%nat); [apply list_elem_of_here | reflexivity | cbn; lia].
  - eapply (Hf _ 4%nat);
      [apply list_elem_of_further, list_elem_of_here | reflexivity | cbn; lia].
Defined.

(** ** The fence counter *)




Lemma record_calls_draw_nothing env i a : omap drawn_value (record_calls env i a) = [].
Proof.
  unfold record_calls.
  by destruct (allocator_reset_ok env), (command_list_reset_ok env).
Qed.






(** The constructor leaves a cold renderer with at least one buffer. *)
Lemma construct_cold env idx0 st0 :
  construct env idx0 World_empty = Done None st0 →
  cold (sc_bufferCount (swapchain_created env)) st0 ∧
  m_swapChain (this st0) = Some (swapchain_created env) ∧
  (0 < sc_bufferCount (swapchain_created env))%nat.
Proof.
  unfold construct, Renderer_ctor.
  destruct (device_initialize_ok env); cbn; [| discriminate].
  destruct (command_manager_initialize_ok env); cbn; [| discriminate].
  destruct (resource_manager_initialize_ok env); cbn; [| discriminate].
  munfold.
  destruct (swapchain_initialized env); cbn; [| discriminate].
  match goal with
  | |- context [InitializeFrameResources env ?s] => set (st1 := s)
  end.
  destruct (InitializeFrameResources_empty env st1 (swapchain_created env))
    as (st2 & Hinit & I1 & I2 & I3 & I4 & I5 & (new & I6 & I7) & I8 & I9 & I10);
    [done | done |].
  rewrite Hinit. cbn [bind_res].
  destruct (forallb (slot_created_ok env) (seq 0 (sc_bufferCount (swapchain_created env))))
    eqn:Hall; cbn; [| discriminate].
  munfold.
  destruct (m_frameResources (this st2) !! 0%nat) as [frame0 |] eqn:Hl0; cbn;
    [| discriminate].
  destruct (command_list_initialize_ok env); cbn; [| discriminate].
  intros H. injection H as <-.
  split; [| split; [done |]].
  - constructor; try done.
    + intros i frame Hl. split; [by apply (I9 i frame) |].
      by apply (I10 eq_refl i frame).
    + unfold drawn. rewrite I6. subst st1; cbn. done.
  - apply lookup_lt_Some in Hl0. lia.
Qed.



Lemma submit_calls_drawn env vsync b i fence value :
  omap drawn_value (submit_calls env vsync b i fence value) = [value].
Proof. unfold submit_calls. by destruct (FAILED (signal_hr env)). Qed.









(** *** A lifetime long enough for the counter to wrap *)







(** ** Frames *)

(** A frame on a slot that is complete: no wait; the frame is submitted
    when both resets and the close succeed, and abandoned otherwise. *)
Lemma render_frame_complete env vsync st sc frame a :
  m_swapChain (this st) = Some sc →
  m_frameResources (this st) !! sc_backBufferIndex sc = Some frame →
  slot_complete (world st) frame →
  commandAllocator frame = Some a →
  ∃ st',
    render_frame env vsync st = Done tt st' ∧
    gpu_fences (world st') = gpu_fences (world st) ∧
    armed (world st') = armed (world st) ∧
    signaled (world st') = signaled (world st) ∧
    this st' =
      if frame_ok env
      then {| m_swapChain := Some (presented env);
              m_frameResources :=
                <[sc_backBufferIndex sc :=
                    with_fenceValue (m_nextFenceValue (this st)) frame]>
                  (m_frameResources (this st));
              m_currentFrameIndex := sc_backBufferIndex sc;
              m_nextFenceValue := uint64_incr (m_nextFenceValue (this st)) |}
      else with_currentFrameIndex (sc_backBufferIndex sc) (this st).
Proof.
  intros Hsc Hl Hc Ha. unfold render_frame, bind.
  rewrite (BeginFrame_no_wait env st sc frame a Hsc Hl Hc Ha). cbn [bind_res].
  unfold record_answer, frame_ok.
  destruct (allocator_reset_ok env); cbn [andb].
  2:{ eexists. split; [reflexivity |]. done. }
  destruct (command_list_reset_ok env); cbn [andb].
  2:{ eexists. split; [reflexivity |]. done. }
  destruct (command_list_close_ok env) eqn:Hclose.
  - erewrite EndFrame_submitted; [| exact Hsc | exact Hclose | exact Hl].
    eexists. split; [reflexivity |]. done.
  - erewrite EndFrame_close_failure; [| exact Hsc | exact Hclose].
    eexists. split; [reflexivity |]. done.
Qed.

(** [BeginFrame] on a slot still in flight: the wait is registered for the
    slot's own value on the slot's own fence, and the thread parks before
    anything is reset. *)
Lemma BeginFrame_in_flight env st sc frame f e c :
  m_swapChain (this st) = Some sc →
  m_frameResources (this st) !! sc_backBufferIndex sc = Some frame →
  frameFence frame = Some f → fenceEvent frame = Some e →
  gpu_fences (world st) !! f = Some c →
  fenceValue frame ≠ 0 → c < fenceValue frame →
  FAILED (set_event_hr env (sc_backBufferIndex sc)) = false →
  e ∉ signaled (world st) →
  BeginFrame env st =
    Park e
      {| this := with_currentFrameIndex (sc_backBufferIndex sc) (this st);
         world :=
           log_calls
             [Fence_SetEventOnCompletion f (fenceValue frame) e
                (set_event_hr env (sc_backBufferIndex sc));
              WaitForSingleObject e]
             (arm f (fenceValue frame) e
                (log_calls [ResourceManager_BeginFrame] (world st))) |}
      (fun st' =>
         bind_res (bind_res (consume e st') (fun _ => ret tt))
           (fun _ => BeginFrame_record env (sc_backBufferIndex sc))).
Proof.
  intros Hsc Hl Hf He Hg Hnz Hlt Hhr Hs.
  rewrite (BeginFrame_unfold _ _ _ Hsc).
  erewrite WaitForFrame_in_flight; [| exact Hl | exact Hf | exact He | exact Hg | done | done].
  rewrite Hhr. cbn zeta. cbn [world log_calls signaled].
  case_decide as Hs'; [done |]. reflexivity.
Qed.

(** What the parked [BeginFrame] does when it goes on. *)
Lemma BeginFrame_resumed env st i frame a e :
  m_frameResources (this st) !! i = Some frame →
  commandAllocator frame = Some a →
  bind_res (bind_res (consume e st) (fun _ => ret tt))
    (fun _ => BeginFrame_record env i) =
  Done (record_answer env)
    (set_world (log_calls (record_calls env i a)
                  (set_signaled (signaled (world st) ∖ {[e]}) (world st))) st).
Proof.
  intros Hl Ha. unfold consume. munfold.
  erewrite BeginFrame_record_spec; [| exact Hl | exact Ha]. reflexivity.
Qed.

(** *** A parked thread and the GPU *)

Lemma gpu_signal_not_fired f v e f' v' w :
  armed w = [(f, v, e)] → signaled w = ∅ →
  (f' = f → v' < v) →
  armed (gpu_signal f' v' w) = [(f, v, e)] ∧
  signaled (gpu_signal f' v' w) = ∅ ∧
  (is_Some (gpu_fences w !! f) → is_Some (gpu_fences (gpu_signal f' v' w) !! f)).
Proof.
  intros Ha Hs Hd. unfold gpu_signal.
  destruct (gpu_fences w !! f') as [c |] eqn:Hf'; [| done].
  cbn [armed signaled gpu_fences]. rewrite Ha, Hs. cbn [List.filter].
  assert (Hfire : fires f' v' (f, v, e) = false).
  { unfold fires; cbn [fst snd].
    destruct (Nat.eqb_spec f f') as [-> | _]; [| done]. cbn.
    apply Z.leb_gt. by apply Hd. }
  rewrite Hfire. cbn. split; [done |]. split.
  - by rewrite union_empty_r_L.
  - intros [x Hx]. destruct (decide (f' = f)) as [-> | Hne].
    + rewrite lookup_insert_eq. eauto.
    + rewrite lookup_insert_ne by done. eauto.
Qed.

Lemma gpu_signal_fired f v e v' w :
  armed w = [(f, v, e)] → signaled w = ∅ →
  is_Some (gpu_fences w !! f) → v ≤ v' →
  armed (gpu_signal f v' w) = [] ∧
  signaled (gpu_signal f v' w) = {[e]} ∧
  gpu_fences (gpu_signal f v' w) !! f = Some v'.
Proof.
  intros Ha Hs [c Hc] Hle. unfold gpu_signal. rewrite Hc.
  cbn [armed signaled gpu_fences]. rewrite Ha, Hs. cbn [List.filter].
  assert (Hfire : fires f v' (f, v, e) = true).
  { unfold fires; cbn [fst snd]. rewrite Nat.eqb_refl. cbn.
    by apply Z.leb_le. }
  rewrite Hfire. cbn.
  split; [done |]. split.
  - rewrite union_empty_l_L. apply union_empty_r_L.
  - apply lookup_insert_eq.
Qed.

(** Completions that do not bring the awaited fence to the awaited value
    leave the thread parked. *)
Lemma parked_stays {A} ds : ∀ e f v st (k : State → Res A),
  armed (world st) = [(f, v, e)] → signaled (world st) = ∅ →
  (∀ d, d ∈ ds → d.1 = f → d.2 < v) →
  ∃ st',
    deliver_all ds (Park e st k) = Park e st' k ∧
    this st' = this st ∧
    calls (world st') = calls (world st) ∧
    armed (world st') = [(f, v, e)] ∧
    signaled (world st') = ∅ ∧
    (is_Some (gpu_fences (world st) !! f) → is_Some (gpu_fences (world st') !! f)).
Proof.
  induction ds as [| d ds IH]; intros e f v st k Ha Hs Hds.
  { exists st. by cbn. }
  unfold deliver_all. cbn [fold_left deliver].
  destruct (gpu_signal_not_fired f v e d.1 d.2 (world st) Ha Hs) as (Ha1 & Hs1 & Hf1).
  { apply Hds. apply list_elem_of_here. }
  cbn [world set_world]. rewrite Hs1.
  case_decide as Hin; [by apply elem_of_empty in Hin |].
  destruct (IH e f v (set_world (gpu_signal d.1 d.2 (world st)) st) k)
    as (st' & Hrun & Ht & Hc & Ha' & Hs' & Hf'); [done | done | |].
  { intros d' Hd'. apply Hds. by apply list_elem_of_further. }
  exists st'. split; [exact Hrun |]. cbn in *.
  rewrite Hc, gpu_signal_calls. repeat split; auto.
Qed.

(** The completion of the awaited value wakes the thread. *)
Lemma parked_wakes {A} e f v v' st (k : State → Res A) :
  armed (world st) = [(f, v, e)] → signaled (world st) = ∅ →
  is_Some (gpu_fences (world st) !! f) → v ≤ v' →
  deliver f v' (Park e st k) = k (set_world (gpu_signal f v' (world st)) st).
Proof.
  intros Ha Hs Hf Hle. cbn [deliver world set_world].
  destruct (gpu_signal_fired f v e v' (world st) Ha Hs Hf Hle) as (_ & -> & _).
  case_decide as Hin; [done |]. exfalso. apply Hin. by apply elem_of_singleton.
Qed.

Lemma deliver_all_app {A} ds ds' (cfg : Res A) :
  deliver_all (ds ++ ds') cfg = deliver_all ds' (deliver_all ds cfg).
Proof. unfold deliver_all. apply fold_left_app. Qed.

(** *** Registrations and events over a lifetime *)

Lemma tidy_run_bind_res {A B} (r : Res A) (f : A → M B) :
  tidy_run r →
  (∀ a st, tidy (world st) → tidy_run (f a st)) →
  tidy_run (bind_res r f).
Proof.
  intros Hr Hf. induction r as [a st | e st k IH | ]; cbn in *.
  - by apply Hf.
  - destruct Hr as (Ha & Hs & Hk). split; [done |]. split; [done |].
    intros st' Ha' Hs'. by apply IH, Hk.
  - done.
Qed.

Lemma tidy_log cs w : tidy w → tidy (log_calls cs w).
Proof. done. Qed.

Lemma gpu_signal_tidy f v w : tidy w → tidy (gpu_signal f v w).
Proof.
  intros [Ha Hs]. unfold gpu_signal. destruct (gpu_fences w !! f); [| done].
  split; cbn; rewrite Ha; cbn; [done |]. rewrite Hs. by rewrite union_empty_r_L.
Qed.

Lemma gpu_signal_registration f v e f' v' w :
  armed w = [(f, v, e)] → signaled w = ∅ →
  (armed (gpu_signal f' v' w) = [(f, v, e)] ∧ signaled (gpu_signal f' v' w) = ∅) ∨
  (armed (gpu_signal f' v' w) = [] ∧ signaled (gpu_signal f' v' w) = {[e]}).
Proof.
  intros Ha Hs. unfold gpu_signal. destruct (gpu_fences w !! f'); [| by left].
  cbn [armed signaled]. rewrite Ha, Hs. cbn [List.filter].
  destruct (fires f' v' (f, v, e)); cbn.
  - right. split; [done |]. rewrite union_empty_l_L. apply union_empty_r_L.
  - left. split; [done |]. by rewrite union_empty_r_L.
Qed.

Lemma deliver_tidy {A} f v (cfg : Res A) : tidy_run cfg → tidy_run (deliver f v cfg).
Proof.
  destruct cfg as [a st | e st k |]; cbn [deliver tidy_run]; [| | done].
  - apply gpu_signal_tidy.
  - intros ((f0 & v0 & Ha) & Hs & Hk). cbn [world set_world].
    destruct (gpu_signal_registration f0 v0 e f v (world st) Ha Hs) as [[Ha' Hs'] | [Ha' Hs']].
    + rewrite Hs'. case_decide as Hin; [by apply elem_of_empty in Hin |].
      cbn [tidy_run world set_world]. split; [by exists f0, v0 |]. by split.
    + rewrite Hs'. case_decide as Hin.
      * by apply Hk.
      * exfalso. apply Hin. by apply elem_of_singleton.
Qed.

Lemma WaitForFrame_tidy env i st : tidy (world st) → tidy_run (WaitForFrame env i st).
Proof.
  intros [Ha Hs].
  destruct (m_frameResources (this st) !! i) as [frame |] eqn:Hl.
  2:{ apply lookup_ge_None in Hl. by rewrite WaitForFrame_out_of_range. }
  destruct (Z.eqb_spec (fenceValue frame) 0) as [Hz | Hz].
  { rewrite (WaitForFrame_complete env st i frame Hl); [done | by left]. }
  destruct (frameFence frame) as [f |] eqn:Hf.
  2:{ unfold WaitForFrame. munfold. case_decide; [done |]. rewrite Hl; cbn.
      destruct (Z.eqb_spec (fenceValue frame) 0); [done |]. by rewrite Hf. }
  destruct (gpu_fences (world st) !! f) as [c |] eqn:Hg.
  2:{ unfold WaitForFrame. munfold. case_decide; [done |]. rewrite Hl; cbn.
      destruct (Z.eqb_spec (fenceValue frame) 0); [done |]. rewrite Hf; cbn.
      by rewrite Hg. }
  destruct (Z.leb_spec (fenceValue frame) c) as [Hle | Hlt].
  { rewrite (WaitForFrame_complete env st i frame Hl); [done |].
    right. by exists f, c. }
  destruct (fenceEvent frame) as [e |] eqn:He.
  2:{ unfold WaitForFrame. munfold. case_decide; [done |]. rewrite Hl; cbn.
      destruct (Z.eqb_spec (fenceValue frame) 0); [done |]. rewrite Hf; cbn.
      rewrite Hg; cbn. destruct (Z.leb_spec (fenceValue frame) c); [lia |].
      by rewrite He. }
  rewrite (WaitForFrame_in_flight env st i frame f c e Hl Hf He Hg Hz Hlt).
  destruct (FAILED (set_event_hr env i)); [done |].
  cbn zeta. rewrite Hs. case_decide as Hin; [by apply elem_of_empty in Hin |].
  cbn [tidy_run world set_world log_calls arm armed signaled]. rewrite Ha.
  split; [by eexists _, _ |]. split; [done |].
  intros st' Ha' Hs'. unfold consume. munfold. split; cbn; [done |].
  rewrite Hs'. apply difference_diag_L.
Qed.

Lemma for_each_tidy {A} (body : A → M unit) (l : list A) st :
  (∀ x st, tidy (world st) → tidy_run (body x st)) →
  tidy (world st) → tidy_run (for_each l body st).
Proof.
  intros Hbody. revert st. induction l as [| x l IH]; intros st Ht; cbn; [done |].
  unfold bind. apply tidy_run_bind_res; [by apply Hbody |].
  intros _ st' Ht'. by apply IH.
Qed.

Lemma WaitForAllFrames_tidy env st :
  tidy (world st) → tidy_run (WaitForAllFrames env st).
Proof.
  intros Ht. unfold WaitForAllFrames. munfold.
  apply for_each_tidy; [| done]. intros i st1. apply WaitForFrame_tidy.
Qed.

Lemma BeginFrame_tidy env st : tidy (world st) → tidy_run (BeginFrame env st).
Proof.
  intros Ht.
  destruct (m_swapChain (this st)) as [sc |] eqn:Hsc.
  2:{ unfold BeginFrame. munfold. by rewrite Hsc. }
  rewrite (BeginFrame_unfold _ _ _ Hsc).
  apply tidy_run_bind_res; [by apply WaitForFrame_tidy |].
  intros _ st2 Ht2.
  destruct (m_frameResources (this st2) !! sc_backBufferIndex sc) as [frame |] eqn:Hl.
  2:{ unfold BeginFrame_record. munfold. by rewrite Hl. }
  destruct (commandAllocator frame) as [a |] eqn:Ha.
  2:{ unfold BeginFrame_record. munfold. rewrite Hl; cbn. by rewrite Ha. }
  by rewrite (BeginFrame_record_spec env st2 _ frame a Hl Ha).
Qed.

Lemma EndFrame_tidy env vsync st : tidy (world st) → tidy_run (EndFrame env vsync st).
Proof.
  intros Ht.
  destruct (m_swapChain (this st)) as [sc |] eqn:Hsc.
  2:{ unfold EndFrame. munfold. by rewrite Hsc. }
  destruct (command_list_close_ok env) eqn:Hclose.
  2:{ by rewrite (EndFrame_close_failure _ _ _ _ Hsc Hclose). }
  destruct (m_frameResources (this st) !! m_currentFrameIndex (this st))
    as [frame |] eqn:Hl.
  2:{ unfold EndFrame. munfold. rewrite Hsc; cbn. rewrite Hclose. munfold.
      by rewrite Hl. }
  by rewrite (EndFrame_submitted _ _ _ _ _ Hsc Hclose Hl).
Qed.

Lemma IsFrameComplete_tidy i st :
  tidy (world st) → tidy_run (forget (IsFrameComplete i) st).
Proof.
  intros Ht. unfold forget, bind.
  destruct (m_frameResources (this st) !! i) as [frame |] eqn:Hl.
  - rewrite (IsFrameComplete_slot _ _ _ Hl).
    destruct (fenceValue frame =? 0); [done |].
    destruct (frameFence frame) as [f |]; [| done].
    by destruct (gpu_fences (world st) !! f).
  - apply lookup_ge_None in Hl. by rewrite (IsFrameComplete_out_of_range _ _ Hl).
Qed.

Lemma OnReconfigure_recreate_tidy env width height n st :
  tidy (world st) → tidy_run (OnReconfigure_recreate env width height n st).
Proof.
  intros [Ha Hs]. unfold OnReconfigure_recreate. munfold.
  destruct (m_swapChain (this st)) as [sc |] eqn:Hsc; cbn; [| done].
  destruct (reconfigure_ok env); munfold; [| done].
  case_decide as Hd; [| done].
  rewrite ReleaseFrameResources_spec. cbn.
  match goal with
  | |- context [InitializeFrameResources env ?s] => set (st1 := s)
  end.
  destruct (InitializeFrameResources_empty env st1 (reconfigured env))
    as (st2 & Hinit & _ & _ & _ & I4 & I5 & _); [done | done |].
  rewrite Hinit. cbn [bind_res].
  assert (Ht2 : tidy (world st2)).
  { split; [rewrite I4 | rewrite I5]; subst st1; cbn [world];
      match goal with
      | |- _ (destroy_frames ?fs ?w) = _ =>
        destruct (destroy_frames_world fs w) as (H1 & H2 & _)
      end; [by rewrite H1 | by rewrite H2]. }
  destruct (forallb (slot_created_ok env) (seq 0 (sc_bufferCount (reconfigured env))));
    munfold; done.
Qed.

Lemma OnReconfigure_tidy env width height n st :
  tidy (world st) → tidy_run (OnReconfigure env width height n st).
Proof.
  intros Ht.
  destruct (m_swapChain (this st)) as [sc |] eqn:Hsc.
  2:{ by rewrite (OnReconfigure_no_swap_chain _ _ _ _ _ Hsc). }
  rewrite (OnReconfigure_unfold _ _ _ _ _ _ Hsc).
  apply tidy_run_bind_res; [by apply WaitForAllFrames_tidy |].
  intros _ st1. apply OnReconfigure_recreate_tidy.
Qed.

Lemma run_op_tidy op cfg : tidy_run cfg → tidy_run (run_op op cfg).
Proof.
  intros Hcfg.
  destruct op as [env | env vsync | env | i | env w h n | f v];
    try (destruct cfg as [[] st | e st k |]; cbn [run_op]; [| exact Hcfg | done]).
  - unfold forget, bind. apply tidy_run_bind_res; [by apply BeginFrame_tidy | done].
  - by apply EndFrame_tidy.
  - by apply WaitForAllFrames_tidy.
  - by apply IsFrameComplete_tidy.
  - by apply OnReconfigure_tidy.
  - cbn [run_op]. by apply deliver_tidy.
Qed.

(** Whenever the renderer is between two calls, no registration is pending
    and no event is signaled. *)
Lemma lifetime_tidy ops st : tidy (world st) → tidy_run (lifetime ops st).
Proof.
  intros Ht. unfold lifetime.
  assert (H : ∀ cfg, tidy_run cfg →
              tidy_run (fold_left (fun cfg op => run_op op cfg) ops cfg)).
  { induction ops as [| op ops IH]; intros cfg Hcfg; [done |].
    cbn [fold_left]. by apply IH, run_op_tidy. }
  by apply H.
Qed.

(** [BeginFrame] on a slot in flight, in a tidy world. *)
Lemma BeginFrame_backpressure env st sc frame a f e c :
  tidy (world st) →
  m_swapChain (this st) = Some sc →
  m_frameResources (this st) !! sc_backBufferIndex sc = Some frame →
  commandAllocator frame = Some a →
  frameFence frame = Some f → fenceEvent frame = Some e →
  gpu_fences (world st) !! f = Some c →
  fenceValue frame ≠ 0 → c < fenceValue frame →
  (FAILED (set_event_hr env (sc_backBufferIndex sc)) = false →
   ∃ parked k,
     BeginFrame env st = Park e parked k ∧
     calls (world parked) =
       calls (world st) ++
         [ResourceManager_BeginFrame;
          Fence_SetEventOnCompletion f (fenceValue frame) e
            (set_event_hr env (sc_backBufferIndex sc));
          WaitForSingleObject e] ∧
     ∀ ds, (∀ d, d ∈ ds → d.1 = f → d.2 < fenceValue frame) →
       (∃ parked', deliver_all ds (Park e parked k) = Park e parked' k ∧
                   calls (world parked') = calls (world parked)) ∧
       (∀ v, fenceValue frame ≤ v →
          ∃ st', deliver_all (ds ++ [(f, v)]) (Park e parked k)
                   = Done (record_answer env) st' ∧
                 calls (world st') =
                   calls (world parked) ++ record_calls env (sc_backBufferIndex sc) a ∧
                 gpu_fences (world st') !! f = Some v)) ∧
  (FAILED (set_event_hr env (sc_backBufferIndex sc)) = true →
   ∃ st',
     BeginFrame env st = Done (record_answer env) st' ∧
     calls (world st') =
       calls (world st) ++
         [ResourceManager_BeginFrame;
          Fence_SetEventOnCompletion f (fenceValue frame) e
            (set_event_hr env (sc_backBufferIndex sc));
          printf (SetEventOnCompletion_failed (sc_backBufferIndex sc)
                    (set_event_hr env (sc_backBufferIndex sc)))] ++
         record_calls env (sc_backBufferIndex sc) a ∧
     gpu_fences (world st') !! f = Some c).
Proof.
  intros [Harmed Hsig] Hsc Hl Ha Hf He Hg Hnz Hlt. split.
  - intros Hhr.
    pose proof (BeginFrame_in_flight env st sc frame f e c Hsc Hl Hf He Hg Hnz Hlt Hhr)
      as Hpark.
    rewrite Hsig in Hpark. specialize (Hpark ltac:(apply not_elem_of_empty)).
    eexists _, _. split; [exact Hpark |].
    split.
    { cbn [world log_calls arm calls]. by rewrite <- app_assoc. }
    intros ds Hds.
    match type of Hpark with _ = Park _ ?p ?k' =>
      destruct (parked_stays ds e f (fenceValue frame) p k')
        as (parked' & Hstay & Hthis & Hcalls & Ha' & Hs' & Hf')
    end.
    { cbn [world log_calls arm armed]. by rewrite Harmed. }
    { cbn [world log_calls arm signaled]. done. }
    { done. }
    split.
    { exists parked'. split; [exact Hstay | exact Hcalls]. }
    intros v Hv. rewrite deliver_all_app, Hstay.
    unfold deliver_all. cbn [fold_left fst snd].
    assert (Hsome : is_Some (gpu_fences (world parked') !! f)).
    { apply Hf'. cbn [world log_calls arm gpu_fences]. rewrite Hg. eauto. }
    rewrite (parked_wakes e f (fenceValue frame) v parked' _ Ha' Hs' Hsome Hv).
    destruct (gpu_signal_fired f (fenceValue frame) e v (world parked') Ha' Hs' Hsome Hv)
      as (_ & _ & Hgv).
    erewrite (BeginFrame_resumed env _ (sc_backBufferIndex sc) frame a e).
    + eexists. split; [reflexivity |].
      cbn [world set_world log_calls set_signaled calls gpu_fences].
      rewrite gpu_signal_calls, Hcalls. by split.
    + cbn [this set_world]. rewrite Hthis. cbn. exact Hl.
    + done.
  - intros Hhr. rewrite (BeginFrame_unfold _ _ _ Hsc).
    erewrite WaitForFrame_in_flight; [| exact Hl | exact Hf | exact He | exact Hg | done | done].
    rewrite Hhr. cbn [bind_res].
    erewrite BeginFrame_record_spec; [| exact Hl | exact Ha].
    eexists. split; [reflexivity |].
    cbn [world set_world log_calls calls gpu_fences]. split; [| done].
    by rewrite <- !app_assoc.
Qed.

(** *** The first cycle *)

Lemma cold_first_cycle n st sc :
  cold n st → m_swapChain (this st) = Some sc → sc_backBufferIndex sc = 0%nat →
  first_cycle n 0 0 st.
Proof.
  intros [Hlen Hslots _ _ _ _] Hsc H0. constructor.
  - by rewrite Hsc, <- H0.
  - done.
  - intros i frame Hl. destruct (Hslots i frame Hl) as [_ (a & ? & ? & -> & _)]. eauto.
  - intros _. split; [done |]. intros i frame _ Hl. by apply (Hslots i frame).
Qed.

Lemma first_cycle_frames n vsync envs : ∀ j c st,
  first_cycle n j c st →
  (j + length envs ≤ n)%nat →
  (∀ k env, envs !! k = Some env →
            sc_backBufferIndex (presented env) = (S (j + k) mod n)%nat) →
  ∃ st' c', render_frames envs vsync st = Done tt st' ∧
            first_cycle n (j + length envs) c' st'.
Proof.
  induction envs as [| env envs IH]; intros j c st Hfc Hlen Hrr.
  { exists st, c. split; [done |]. by rewrite Nat.add_0_r. }
  cbn [length] in Hlen.
  destruct Hfc as [Hsc Hn Halloc Hahead].
  destruct (m_swapChain (this st)) as [sc |] eqn:Hsc'; [| done].
  injection Hsc as <-.
  set (c := sc_backBufferIndex sc) in *.
  destruct Hahead as [Hcj Hzero]; [lia |].
  destruct (lookup_lt_is_Some_2 (m_frameResources (this st)) c) as [frame Hl]; [lia |].
  destruct (Halloc c frame Hl) as [a Ha].
  destruct (render_frame_complete env vsync st sc frame a)
    as (st1 & Hrun & _ & _ & _ & Hthis); [done | done | | done |].
  { left. by apply (Hzero c frame). }
  unfold render_frames. cbn [for_each]. unfold bind. rewrite Hrun. cbn [bind_res].
  assert (Hfc1 : ∃ c1, first_cycle n (S j) c1 st1).
  { destruct (frame_ok env).
    - exists (sc_backBufferIndex (presented env)).
      constructor; rewrite Hthis; cbn.
      + done.
      + by rewrite length_insert.
      + intros i fr Hi.
        destruct (decide (i = c)) as [-> | Hne].
        * rewrite list_lookup_insert_eq in Hi by lia. injection Hi as <-. cbn. eauto.
        * rewrite list_lookup_insert_ne in Hi by done. by apply (Halloc i fr).
      + intros HSj. rewrite (Hrr 0%nat env eq_refl), Nat.add_0_r.
        rewrite Nat.mod_small by lia. split; [done |].
        intros i fr Hi Hl'. rewrite list_lookup_insert_ne in Hl' by lia.
        apply (Hzero i fr); [lia | done].
    - exists c. constructor; rewrite Hthis; cbn.
      + by rewrite Hsc'.
      + done.
      + done.
      + intros _. split; [lia | done]. }
  destruct Hfc1 as (c1 & Hfc1).
  destruct (IH (S j) c1 st1) as (st' & c' & Hrest & Hfc'); [done | lia | |].
  - intros k env' Hk. rewrite (Hrr (S k) env' Hk). f_equal. lia.
  - exists st', c'. split; [exact Hrest |].
    cbn [length].
    replace (j + S (length envs))%nat with (S j + length envs)%nat by lia. exact Hfc'.
Qed.

(** [BeginFrame] alone, again and again, on a cold renderer. *)
Lemma cold_BeginFrame_repeated n envs : ∀ st sc,
  m_swapChain (this st) = Some sc →
  (sc_backBufferIndex sc < n)%nat →
  length (m_frameResources (this st)) = n →
  (∀ i frame, m_frameResources (this st) !! i = Some frame →
              fenceValue frame = 0 ∧ is_Some (commandAllocator frame)) →
  ∃ st', for_each envs (fun env => forget (BeginFrame env)) st = Done tt st'.
Proof.
  induction envs as [| env envs IH]; intros st sc Hsc Hlt Hlen Hslots.
  { by exists st. }
  destruct (lookup_lt_is_Some_2 (m_frameResources (this st)) (sc_backBufferIndex sc))
    as [frame Hl]; [lia |].
  destruct (Hslots _ _ Hl) as [Hz [a Ha]].
  cbn [for_each]. unfold forget, bind.
  rewrite (BeginFrame_no_wait env st sc frame a Hsc Hl (or_introl Hz) Ha).
  cbn [bind_res ret]. by apply (IH _ sc).
Qed.

(** ** Cold start *)

(** C3.  A slot whose [fenceValue] is 0 is complete for [IsFrameComplete],
    and [WaitForFrame] on it returns at once, in the state it was called
    in.  So from a fresh renderer whose swap chain rotates from back buffer
    0, up to [bufferCount] frames in succession return without parking,
    with no GPU completion in between and whatever the command allocator,
    the command list or the present answer; and so does [BeginFrame] called
    any number of times on its own. *)
Theorem cold_start_never_blocks :
  (∀ env st i frame,
     m_frameResources (this st) !! i = Some frame → fenceValue frame = 0 →
     IsFrameComplete i st = Done true st ∧ WaitForFrame env i st = Done tt st) ∧
  (∀ env0 idx0 st0 envs vsync,
     construct env0 idx0 World_empty = Done None st0 →
     sc_backBufferIndex (swapchain_created env0) = 0%nat →
     (length envs ≤ sc_bufferCount (swapchain_created env0))%nat →
     (∀ j env, envs !! j = Some env →
        sc_backBufferIndex (presented env) =
          (S j mod sc_bufferCount (swapchain_created env0))%nat) →
     ∃ st', render_frames envs vsync st0 = Done tt st') ∧
  (∀ env0 idx0 st0 envs,
     construct env0 idx0 World_empty = Done None st0 →
     (sc_backBufferIndex (swapchain_created env0)
        < sc_bufferCount (swapchain_created env0))%nat →
     ∃ st', for_each envs (fun env => forget (BeginFrame env)) st0 = Done tt st').
Proof.
  split; [| split].
  - intros env st i frame Hl Hz. split.
    + rewrite (IsFrameComplete_slot _ _ _ Hl). by rewrite Hz.
    + apply (WaitForFrame_complete env st i frame Hl). by left.
  - intros env0 idx0 st0 envs vsync Hctor H0 Hlen Hrr.
    destruct (construct_cold _ _ _ Hctor) as (Hcold & Hsc & Hpos).
    destruct (first_cycle_frames (sc_bufferCount (swapchain_created env0)) vsync envs 0 0 st0)
      as (st' & c' & Hrun & _); [by eapply cold_first_cycle | done | done |].
    by exists st'.
  - intros env0 idx0 st0 envs Hctor Hlt.
    destruct (construct_cold _ _ _ Hctor) as ([Hlen Hslots _ _ _ _] & Hsc & Hpos).
    apply (cold_BeginFrame_repeated (sc_bufferCount (swapchain_created env0)) envs
             st0 (swapchain_created env0)); try done.
    intros i frame Hl. destruct (Hslots i frame Hl) as [Hz (a & ? & ? & -> & _)]. eauto.
Qed.

(** An instance: the first two frames of a renderer with two buffers. *)
Lemma cold_start_never_blocks_witness :
  ∃ st', render_frames [env_ok 2 1; env_ok 2 0] true two_buffers_state = Done tt st'.
Proof.
  apply (proj1 (proj2 cold_start_never_blocks) (env_ok 2 0) 0%nat two_buffers_state
           [env_ok 2 1; env_ok 2 0] true);
    [reflexivity | reflexivity | cbn; lia |].
  intros j env Hj. destruct j as [| [| j]]; cbn in Hj; inversion Hj; reflexivity.
Defined.

(** ** A full cycle ahead of the GPU *)

Lemma cold_full_cycle n st sc first :
  cold n st → m_swapChain (this st) = Some sc → sc_backBufferIndex sc = 0%nat →
  (0 < n)%nat →
  m_frameResources (this st) !! 0%nat = Some first →
  full_cycle n first (gpu_fences (world st)) 0 st.
Proof.
  intros [Hlen Hslots Hc Ha Hs _] Hsc H0 Hn Hfirst. constructor; try done.
  - rewrite Hsc; cbn. rewrite H0. by rewrite Nat.Div0.mod_0_l.
  - intros i frame _ Hl. destruct (Hslots i frame Hl) as [Hz (a & ? & ? & -> & _)]. eauto.
Qed.

Lemma full_cycle_frames n first G vsync envs : ∀ j st,
  full_cycle n first G j st →
  (j + length envs ≤ n)%nat →
  (∀ k env, envs !! k = Some env →
            frame_ok env = true ∧
            sc_backBufferIndex (presented env) = (S (j + k) mod n)%nat) →
  ∃ st', render_frames envs vsync st = Done tt st' ∧
         full_cycle n first G (j + length envs) st'.
Proof.
  induction envs as [| env envs IH]; intros j st Huc Hlen Hrr.
  { exists st. split; [done |]. by rewrite Nat.add_0_r. }
  cbn [length] in Hlen.
  destruct Huc as [Hsc Hn Hahead Hfirst Hcounter HG Harmed Hsig].
  destruct (m_swapChain (this st)) as [sc |] eqn:Hsc'; [| done].
  injection Hsc as Hc. rewrite Nat.mod_small in Hc by lia.
  destruct (lookup_lt_is_Some_2 (m_frameResources (this st)) j) as [frame Hl]; [lia |].
  destruct (Hahead j frame (le_n _) Hl) as [Hz [a Ha]].
  destruct (Hrr 0%nat env eq_refl) as [Hok Hnext]. rewrite Nat.add_0_r in Hnext.
  destruct (render_frame_complete env vsync st sc frame a)
    as (st1 & Hrun & HG1 & Harmed1 & Hsig1 & Hthis);
    [done | by rewrite Hc | by left | done |].
  rewrite Hok, Hc in Hthis.
  unfold render_frames. cbn [for_each]. unfold bind. rewrite Hrun. cbn [bind_res].
  destruct (IH (S j) st1) as (st' & Hrest & Huc'); [| lia | |].
  - constructor; rewrite ?Hthis; cbn [m_swapChain m_frameResources m_nextFenceValue];
      try congruence.
    + cbn. by rewrite Hnext.
    + by rewrite length_insert.
    + intros i fr Hi Hl'. rewrite list_lookup_insert_ne in Hl' by lia.
      apply (Hahead i fr); [lia | done].
    + destruct (decide (S j = 0%nat)) as [HS | _]; [lia |].
      destruct (decide (j = 0%nat)) as [-> | Hj].
      * rewrite list_lookup_insert_eq by lia.
        rewrite (Hcounter eq_refl). rewrite Hl in Hfirst.
        by injection Hfirst as ->.
      * by rewrite list_lookup_insert_ne.
  - intros k env' Hk. destruct (Hrr (S k) env' Hk) as [? Hi]. split; [done |].
    rewrite Hi. f_equal. lia.
  - exists st'. split; [exact Hrest |]. cbn [length].
    replace (j + S (length envs))%nat with (S j + length envs)%nat by lia. exact Huc'.
Qed.

(** C2, as amended.  Of a renderer as its constructor leaves it:

    - In every state it reaches, through whatever calls of its methods and
      whatever GPU completions, a [BeginFrame] on a slot whose fence has not
      reached the value the slot recorded, when its wait registration
      succeeds, parks: it has registered the slot's own value on the slot's
      own fence and reset nothing.  It stays parked, resetting nothing,
      through every GPU completion that does not bring that fence to that
      value, and as soon as one does it goes on and resets the slot's
      allocator, the fence then being at the value delivered.  When the
      registration fails, [BeginFrame] reports it and goes on at once: it
      resets the allocator of a slot whose fence is where it was.

    - When its swap chain rotates from back buffer 0 and it submits
      [bufferCount] frames, the GPU completing none, the frames return and
      the next [BeginFrame] is such a call: it registers the value 1
      recorded in slot 0 on slot 0's fence, parks, and goes on only when
      that fence reaches 1. *)
Theorem BeginFrame_blocks_a_full_cycle_ahead
    (env0 : Env) (idx0 : nat) (st0 : State) :
  construct env0 idx0 World_empty = Done None st0 →
  (∀ (ops : list Op) (st : State) (env : Env) (sc : SwapChain)
     (frame : FrameResources) (a f e : nat) (c : Z),
     lifetime ops st0 = Done tt st →
     m_swapChain (this st) = Some sc →
     m_frameResources (this st) !! sc_backBufferIndex sc = Some frame →
     commandAllocator frame = Some a →
     frameFence frame = Some f → fenceEvent frame = Some e →
     gpu_fences (world st) !! f = Some c →
     fenceValue frame ≠ 0 → c < fenceValue frame →
     (FAILED (set_event_hr env (sc_backBufferIndex sc)) = false →
      ∃ parked k,
        BeginFrame env st = Park e parked k ∧
        calls (world parked) =
          calls (world st) ++
            [ResourceManager_BeginFrame;
             Fence_SetEventOnCompletion f (fenceValue frame) e
               (set_event_hr env (sc_backBufferIndex sc));
             WaitForSingleObject e] ∧
        ∀ ds, (∀ d, d ∈ ds → d.1 = f → d.2 < fenceValue frame) →
          (∃ parked', deliver_all ds (Park e parked k) = Park e parked' k ∧
                      calls (world parked') = calls (world parked)) ∧
          (∀ v, fenceValue frame ≤ v →
             ∃ st', deliver_all (ds ++ [(f, v)]) (Park e parked k)
                      = Done (record_answer env) st' ∧
                    calls (world st') =
                      calls (world parked) ++
                        record_calls env (sc_backBufferIndex sc) a ∧
                    gpu_fences (world st') !! f = Some v)) ∧
     (FAILED (set_event_hr env (sc_backBufferIndex sc)) = true →
      ∃ st',
        BeginFrame env st = Done (record_answer env) st' ∧
        calls (world st') =
          calls (world st) ++
            [ResourceManager_BeginFrame;
             Fence_SetEventOnCompletion f (fenceValue frame) e
               (set_event_hr env (sc_backBufferIndex sc));
             printf (SetEventOnCompletion_failed (sc_backBufferIndex sc)
                       (set_event_hr env (sc_backBufferIndex sc)))] ++
            record_calls env (sc_backBufferIndex sc) a ∧
        gpu_fences (world st') !! f = Some c)) ∧
  (∀ (envs : list Env) (vsync : bool) (env : Env),
     sc_backBufferIndex (swapchain_created env0) = 0%nat →
     length envs = sc_bufferCount (swapchain_created env0) →
     (∀ j e, envs !! j = Some e →
        frame_ok e = true ∧
        sc_backBufferIndex (presented e) =
          (S j mod sc_bufferCount (swapchain_created env0))%nat) →
     FAILED (set_event_hr env 0) = false →
     ∃ stn first a0 f0 e0 parked k,
       render_frames envs vsync st0 = Done tt stn ∧
       m_frameResources (this st0) !! 0%nat = Some first ∧
       commandAllocator first = Some a0 ∧ frameFence first = Some f0 ∧
       fenceEvent first = Some e0 ∧
       m_frameResources (this stn) !! 0%nat = Some (with_fenceValue 1 first) ∧
       gpu_fences (world stn) !! f0 = Some 0 ∧
       BeginFrame env stn = Park e0 parked k ∧
       calls (world parked) =
         calls (world stn) ++
           [ResourceManager_BeginFrame;
            Fence_SetEventOnCompletion f0 1 e0 (set_event_hr env 0);
            WaitForSingleObject e0] ∧
       (∀ ds, (∀ d, d ∈ ds → d.1 = f0 → d.2 < 1) →
          (∃ parked', deliver_all ds (Park e0 parked k) = Park e0 parked' k ∧
                      calls (world parked') = calls (world parked)) ∧
          (∀ v, 1 ≤ v →
             ∃ st', deliver_all (ds ++ [(f0, v)]) (Park e0 parked k)
                      = Done (record_answer env) st' ∧
                    calls (world st') =
                      calls (world parked) ++ record_calls env 0 a0))).
Proof.
  intros Hctor. split.
  { intros ops st env sc frame a f e c Hrun Hsc Hl Ha Hf He Hg Hnz Hlt.
    apply (BeginFrame_backpressure env st sc frame a f e c); try done.
    destruct (construct_cold _ _ _ Hctor) as (Hcold & _ & _).
    pose proof (lifetime_tidy ops st0) as Ht. rewrite Hrun in Ht. apply Ht.
    split; [apply (cold_armed _ _ Hcold) | apply (cold_signaled _ _ Hcold)]. }
  { intros envs vsync env H0 Hlen Hrr Hhr.
    destruct (construct_cold _ _ _ Hctor) as (Hcold & Hsc & Hpos).
    set (n := sc_bufferCount (swapchain_created env0)) in *.
    destruct (lookup_lt_is_Some_2 (m_frameResources (this st0)) 0) as [first Hfirst].
    { rewrite (cold_length _ _ Hcold). lia. }
    destruct (cold_slots _ _ Hcold 0%nat first Hfirst)
      as [Hz (a0 & f0 & e0 & Ha0 & Hf0 & He0 & Hg0 & _)].
    destruct (full_cycle_frames n first (gpu_fences (world st0)) vsync envs 0 st0)
      as (stn & Hrun & Huc).
    { by eapply cold_full_cycle. }
    { lia. }
    { done. }
    cbn [Nat.add] in Huc. rewrite Hlen in Huc.
    destruct Huc as [Hscn Hn _ Hslot0 _ HG Harmed Hsig].
    rewrite Nat.Div0.mod_same in Hscn.
    destruct (decide (n = 0%nat)) as [Hn0 | _]; [lia |].
    destruct (m_swapChain (this stn)) as [scn |] eqn:Hscn'; [| done].
    injection Hscn as Hidx.
    assert (Hgn : gpu_fences (world stn) !! f0 = Some 0) by (by rewrite HG).
    pose proof (BeginFrame_in_flight env stn scn (with_fenceValue 1 first) f0 e0 0) as Hpark.
    rewrite Hidx in Hpark.
    specialize (Hpark Hscn' Hslot0 Hf0 He0 Hgn).
    cbn [fenceValue with_fenceValue] in Hpark.
    specialize (Hpark ltac:(lia) ltac:(lia) Hhr).
    rewrite Hsig in Hpark. specialize (Hpark ltac:(apply not_elem_of_empty)).
    eexists stn, first, a0, f0, e0, _, _.
    split; [exact Hrun |]. do 6 (split; [done |]).
    split; [exact Hpark |].
    split.
    { cbn [world log_calls arm calls]. by rewrite <- app_assoc. }
    intros ds Hds.
    match type of Hpark with _ = Park _ ?p ?k' =>
      destruct (parked_stays ds e0 f0 1 p k') as (parked' & Hstay & Hthis & Hcalls & Ha' & Hs' & Hf')
    end.
    { cbn [world log_calls arm armed]. by rewrite Harmed. }
    { cbn [world log_calls arm signaled]. done. }
    { done. }
    split.
    { exists parked'. split; [exact Hstay | exact Hcalls]. }
    intros v Hv. rewrite deliver_all_app, Hstay.
    unfold deliver_all. cbn [fold_left fst snd].
    rewrite (parked_wakes e0 f0 1 v parked' _ Ha' Hs'); [| | exact Hv].
    2:{ apply Hf'. cbn [world log_calls arm gpu_fences]. rewrite Hgn. eauto. }
    erewrite (BeginFrame_resumed env _ 0 (with_fenceValue 1 first) a0 e0).
    - eexists. split; [reflexivity |].
      cbn [world set_world log_calls set_signaled calls].
      by rewrite gpu_signal_calls, Hcalls.
    - cbn [this set_world]. rewrite Hthis. cbn. exact Hslot0.
    - done. }
Qed.

(** Two instances, with two buffers.  After four frames of which the GPU
    has completed two, slot 0 has recorded 3 and its fence is at 1: the fifth
    [BeginFrame] registers 3 on fence 1 and parks until that fence reaches 3.
    And after two frames of which the GPU has completed none, the third
    [BeginFrame] parks. *)
Lemma BeginFrame_blocks_a_full_cycle_ahead_witness :
  (∃ st parked k,
     lifetime four_frames_two_completed two_buffers_state = Done tt st ∧
     fenceValue <$> m_frameResources (this st) = [3; 4] ∧
     gpu_fences (world st) !! 1%nat = Some 1 ∧
     BeginFrame (env_ok 2 1) st = Park 2 parked k ∧
     calls (world parked) =
       calls (world st) ++
         [ResourceManager_BeginFrame;
          Fence_SetEventOnCompletion 1 3 2 S_OK;
          WaitForSingleObject 2] ∧
     ∀ ds, (∀ d, d ∈ ds → d.1 = 1%nat → d.2 < 3) →
       (∃ parked', deliver_all ds (Park 2 parked k) = Park 2 parked' k ∧
                   calls (world parked') = calls (world parked)) ∧
       (∀ v, 3 ≤ v →
          ∃ st', deliver_all (ds ++ [(1%nat, v)]) (Park 2 parked k)
                   = Done (Some tt) st' ∧
                 calls (world st') =
                   calls (world parked) ++
                     [CommandAllocator_Reset 0 true; CommandList_Reset 0 true;
                      CommandList_TransitionBarrier 0 STATE_PRESENT STATE_RENDER_TARGET] ∧
                 gpu_fences (world st') !! 1%nat = Some v)) ∧
  (∃ stn first a0 f0 e0 parked k,
    render_frames [env_ok 2 1; env_ok 2 0] true two_buffers_state = Done tt stn ∧
    m_frameResources (this two_buffers_state) !! 0%nat = Some first ∧
    commandAllocator first = Some a0 ∧ frameFence first = Some f0 ∧
    fenceEvent first = Some e0 ∧
    m_frameResources (this stn) !! 0%nat = Some (with_fenceValue 1 first) ∧
    gpu_fences (world stn) !! f0 = Some 0 ∧
    BeginFrame (env_ok 2 1) stn = Park e0 parked k ∧
    calls (world parked) =
      calls (world stn) ++
        [ResourceManager_BeginFrame;
         Fence_SetEventOnCompletion f0 1 e0 (set_event_hr (env_ok 2 1) 0);
         WaitForSingleObject e0] ∧
    (∀ ds, (∀ d, d ∈ ds → d.1 = f0 → d.2 < 1) →
       (∃ parked', deliver_all ds (Park e0 parked k) = Park e0 parked' k ∧
                   calls (world parked') = calls (world parked)) ∧
       (∀ v, 1 ≤ v →
          ∃ st', deliver_all (ds ++ [(f0, v)]) (Park e0 parked k)
                   = Done (record_answer (env_ok 2 1)) st' ∧
                 calls (world st') =
                   calls (world parked) ++ record_calls (env_ok 2 1) 0 a0))).
Proof.
  pose proof (BeginFrame_blocks_a_full_cycle_ahead (env_ok 2 0) 0%nat two_buffers_state
                eq_refl) as [Hgen Hcold].
  split.
  - assert (Hrun : ∃ st,
      lifetime four_frames_two_completed two_buffers_state = Done tt st ∧
      m_swapChain (this st) = Some {| sc_bufferCount := 2; sc_backBufferIndex := 0 |} ∧
      m_frameResources (this st) =
        [ {| commandAllocator := Some 0%nat; frameFence := Some 1%nat;
             fenceEvent := Some 2%nat; fenceValue := 3 |};
          {| commandAllocator := Some 3%nat; frameFence := Some 4%nat;
             fenceEvent := Some 5%nat; fenceValue := 4 |} ] ∧
      gpu_fences (world st) !! 1%nat = Some 1).
    { eexists. split; [vm_compute; reflexivity |]. by vm_compute. }
    destruct Hrun as (st & Hrun & Hsc & Hpool & Hg).
    destruct (Hgen four_frames_two_completed st (env_ok 2 1)
                {| sc_bufferCount := 2; sc_backBufferIndex := 0 |}
                {| commandAllocator := Some 0%nat; frameFence := Some 1%nat;
                   fenceEvent := Some 2%nat; fenceValue := 3 |}
                0%nat 1%nat 2%nat 1 Hrun Hsc) as [Hok _];
      [by rewrite Hpool | reflexivity | reflexivity | reflexivity | exact Hg
       | discriminate | reflexivity |].
    destruct (Hok eq_refl) as (parked & k & Hpark & Hcalls & Hds).
    exists st, parked, k. split; [exact Hrun |].
    split; [by rewrite Hpool |]. split; [exact Hg |].
    split; [exact Hpark |]. split; [exact Hcalls |]. exact Hds.
  - apply (Hcold [env_ok 2 1; env_ok 2 0] true (env_ok 2 1));
      [reflexivity | reflexivity | | reflexivity].
    intros j e Hj. destruct j as [| [| j]]; cbn in Hj; inversion Hj; split; reflexivity.
Defined.

(** C2 as stated fails when the wait registration fails.  Three buffers,
    three frames submitted in rotation, no GPU completion; in the fourth
    [BeginFrame] [SetEventOnCompletion] fails: the call does not park, it
    returns the command list having reset slot 0's allocator while slot 0,
    which recorded 1, has a fence that completed 0. *)
Lemma BeginFrame_registration_failure_does_not_block :
  ∃ st0 st3 st4,
    construct (env_ok 3 0) 0 World_empty = Done None st0 ∧
    render_frames [env_ok 3 1; env_ok 3 2; env_ok 3 0] true st0 = Done tt st3 ∧
    BeginFrame (env_with 3 1 true true true E_FAIL) st3 = Done (Some tt) st4 ∧
    gpu_fences (world st4) !! 1%nat = Some 0 ∧
    fenceValue <$> m_frameResources (this st4) = [1; 2; 3] ∧
    IsFrameComplete 0 st4 = Done false st4 ∧
    calls (world st4) =
      calls (world st3) ++
        [ResourceManager_BeginFrame;
         Fence_SetEventOnCompletion 1 1 2 E_FAIL;
         printf (SetEventOnCompletion_failed 0 E_FAIL);
         CommandAllocator_Reset 0 true;
         CommandList_Reset 0 true;
         CommandList_TransitionBarrier 0 STATE_PRESENT STATE_RENDER_TARGET].
Proof.
  eexists _, _, _. split; [vm_compute; reflexivity |].
  split; [vm_compute; reflexivity |].
  split; [vm_compute; reflexivity |].
  repeat split; vm_compute; reflexivity.
Qed.

(** ** The scenario with two buffers *)

Lemma render_frame_submitted env vsync st sc frame a :
  m_swapChain (this st) = Some sc →
  m_frameResources (this st) !! sc_backBufferIndex sc = Some frame →
  slot_complete (world st) frame →
  commandAllocator frame = Some a →
  frame_ok env = true →
  render_frame env vsync st =
    Done tt
      {| this :=
           {| m_swapChain := Some (presented env);
              m_frameResources :=
                <[sc_backBufferIndex sc :=
                    with_fenceValue (m_nextFenceValue (this st)) frame]>
                  (m_frameResources (this st));
              m_currentFrameIndex := sc_backBufferIndex sc;
              m_nextFenceValue := uint64_incr (m_nextFenceValue (this st)) |};
         world :=
           log_calls
             ((ResourceManager_BeginFrame ::
               record_calls env (sc_backBufferIndex sc) a) ++
              submit_calls env vsync (sc_backBufferIndex sc) (sc_backBufferIndex sc)
                (frameFence frame) (m_nextFenceValue (this st)))
             (world st) |}.
Proof.
  intros Hsc Hl Hc Ha Hok. unfold render_frame, bind.
  rewrite (BeginFrame_no_wait env st sc frame a Hsc Hl Hc Ha). cbn [bind_res].
  unfold frame_ok in Hok. apply andb_prop in Hok as [Hok Hclose].
  unfold record_answer. rewrite Hok.
  erewrite EndFrame_submitted; [| exact Hsc | exact Hclose | exact Hl].
  cbn [this world with_currentFrameIndex m_currentFrameIndex m_nextFenceValue
       m_frameResources]. by rewrite log_calls_app.
Qed.

Lemma construct_two_buffers env0 idx0 st0 :
  construct env0 idx0 World_empty = Done None st0 →
  swapchain_created env0 = {| sc_bufferCount := 2; sc_backBufferIndex := 0 |} →
  m_frameResources (this st0) =
    [ {| commandAllocator := Some 0%nat; frameFence := Some 1%nat;
         fenceEvent := Some 2%nat; fenceValue := 0 |};
      {| commandAllocator := Some 3%nat; frameFence := Some 4%nat;
         fenceEvent := Some 5%nat; fenceValue := 0 |} ].
Proof.
  intros Hctor Hsc. revert Hctor.
  unfold construct, Renderer_ctor.
  destruct (device_initialize_ok env0); cbn; [| discriminate].
  destruct (command_manager_initialize_ok env0); cbn; [| discriminate].
  destruct (resource_manager_initialize_ok env0); cbn; [| discriminate].
  munfold.
  destruct (swapchain_initialized env0); cbn; [| discriminate].
  unfold InitializeFrameResources, vector_resize. munfold. rewrite Hsc. cbn.
  unfold InitializeFrameResources_body, make_unique_CommandAllocator,
    Device_CreateFence, Win32_CreateEvent, fresh_handle. munfold.
  destruct (allocator_initialize_ok env0 0); munfold; [| discriminate].
  destruct (FAILED (create_fence_hr env0 0)); munfold; [discriminate |].
  destruct (create_event_ok env0 0); munfold; [| discriminate].
  destruct (allocator_initialize_ok env0 1); munfold; [| discriminate].
  destruct (FAILED (create_fence_hr env0 1)); munfold; [discriminate |].
  destruct (create_event_ok env0 1); munfold; [| discriminate].
  destruct (command_list_initialize_ok env0); munfold; [| discriminate].
  intros H. injection H as <-. reflexivity.
Qed.

(** C1, as amended.  Two buffers; frame 1 is submitted on slot 0 and
    signals 1, frame 2 on slot 1 and signals 2, the GPU completing neither.
    The third [BeginFrame] is back on slot 0: it registers a wait for 1, the
    value slot 0 recorded, on slot 0's fence, and, the registration
    succeeding, parks with slot 0's allocator not reset.  Fence value 2
    completing on slot 1's fence leaves it parked; fence value 1 completing
    on slot 0's fence releases it, slot 1 still incomplete, and only then is
    slot 0's allocator reset.  Had value 1 completed on slot 0's fence
    before the call, it would not have waited at all. *)
Theorem third_frame_waits_for_its_own_slot
    (env0 : Env) (idx0 : nat) (st0 : State) (env1 env2 env3 : Env) (vsync : bool) :
  construct env0 idx0 World_empty = Done None st0 →
  swapchain_created env0 = {| sc_bufferCount := 2; sc_backBufferIndex := 0 |} →
  frame_ok env1 = true → sc_backBufferIndex (presented env1) = 1%nat →
  frame_ok env2 = true → sc_backBufferIndex (presented env2) = 0%nat →
  FAILED (set_event_hr env3 0) = false →
  ∃ st2 parked k,
    render_frames [env1; env2] vsync st0 = Done tt st2 ∧
    m_frameResources (this st2) =
      [ {| commandAllocator := Some 0%nat; frameFence := Some 1%nat;
           fenceEvent := Some 2%nat; fenceValue := 1 |};
        {| commandAllocator := Some 3%nat; frameFence := Some 4%nat;
           fenceEvent := Some 5%nat; fenceValue := 2 |} ] ∧
    drawn (world st2) = [1; 2] ∧
    BeginFrame env3 st2 = Park 2 parked k ∧
    calls (world parked) =
      calls (world st2) ++
        [ResourceManager_BeginFrame;
         Fence_SetEventOnCompletion 1 1 2 (set_event_hr env3 0);
         WaitForSingleObject 2] ∧
    (∃ parked',
       deliver 4 2 (Park 2 parked k) = Park 2 parked' k ∧
       gpu_fences (world parked') !! 4%nat = Some 2 ∧
       calls (world parked') = calls (world parked)) ∧
    (∃ st3,
       deliver 1 1 (Park 2 parked k) = Done (record_answer env3) st3 ∧
       gpu_fences (world st3) !! 4%nat = Some 0 ∧
       calls (world st3) = calls (world parked) ++ record_calls env3 0 0) ∧
    (∃ st3,
       BeginFrame env3 (set_world (gpu_signal 1 1 (world st2)) st2)
         = Done (record_answer env3) st3 ∧
       gpu_fences (world st3) !! 4%nat = Some 0 ∧
       calls (world st3) =
         calls (world st2) ++ ResourceManager_BeginFrame :: record_calls env3 0 0).
Proof.
  intros Hctor Hcreated Hok1 Hnext1 Hok2 Hnext2 Hhr.
  destruct (construct_cold _ _ _ Hctor) as ([_ Hslots Hcounter Harmed Hsig Hdrawn] & Hsc & _).
  pose proof (construct_two_buffers _ _ _ Hctor Hcreated) as Hpool.
  rewrite Hcreated in Hsc.
  destruct (Hslots 0%nat _ ltac:(by rewrite Hpool)) as [_ (? & ? & ? & _ & [= <-] & _ & Hg1 & _)].
  destruct (Hslots 1%nat _ ltac:(by rewrite Hpool)) as [_ (? & ? & ? & _ & [= <-] & _ & Hg4 & _)].
  unfold render_frames. cbn [for_each]. unfold bind.
  erewrite (render_frame_submitted env1 vsync st0);
    [| exact Hsc | by rewrite Hpool | by left | reflexivity | exact Hok1].
  cbn [bind_res].
  erewrite (render_frame_submitted env2 vsync);
    [| reflexivity | cbn; by rewrite Hnext1, Hpool | by left | reflexivity | exact Hok2].
  cbn [bind_res ret].
  rewrite Hnext1, Hpool, Hcounter.
  cbn [this world m_frameResources m_nextFenceValue sc_backBufferIndex
       frameFence with_fenceValue list_insert insert].
  unfold ret.
  match goal with |- ∃ _ _ _, Done _ ?s = _ ∧ _ => set (st2 := s) end.
  assert (Hsc2 : m_swapChain (this st2) = Some (presented env2)) by reflexivity.
  pose proof (BeginFrame_in_flight env3 st2 (presented env2)
                {| commandAllocator := Some 0%nat; frameFence := Some 1%nat;
                   fenceEvent := Some 2%nat; fenceValue := 1 |} 1 2 0 Hsc2) as Hpark.
  rewrite Hnext2 in Hpark.
  specialize (Hpark eq_refl eq_refl eq_refl Hg1 ltac:(done) ltac:(done) Hhr).
  specialize (Hpark ltac:(subst st2; cbn; rewrite Hsig; apply not_elem_of_empty)).
  cbn [fenceValue] in Hpark.
  eexists st2, _, _. split; [reflexivity |].
  split; [reflexivity |].
  split.
  { subst st2. cbn [world]. rewrite !drawn_log_calls, Hdrawn.
    rewrite !omap_app, !submit_calls_drawn.
    change (omap drawn_value (ResourceManager_BeginFrame :: ?l))
      with (omap drawn_value l).
    by rewrite !record_calls_draw_nothing. }
  split; [exact Hpark |].
  split.
  { cbn [world log_calls arm calls]. by rewrite <- app_assoc. }
  match type of Hpark with _ = Park _ ?p ?k' => set (parked := p) in *; set (k := k') in * end.
  assert (Ha : armed (world parked) = [(1%nat, 1, 2%nat)]).
  { subst parked st2. cbn. by rewrite Harmed. }
  assert (Hs : signaled (world parked) = ∅) by (subst parked st2; cbn; done).
  assert (Hf1 : gpu_fences (world parked) !! 1%nat = Some 0) by (subst parked st2; done).
  assert (Hf4 : gpu_fences (world parked) !! 4%nat = Some 0) by (subst parked st2; done).
  split.
  - destruct (gpu_signal_not_fired 1 1 2 4 2 (world parked) Ha Hs) as (_ & Hs' & _);
      [lia |].
    exists (set_world (gpu_signal 4 2 (world parked)) parked).
    split; [| split].
    + cbn [deliver world set_world]. rewrite Hs'.
      case_decide as Hin; [by apply elem_of_empty in Hin | done].
    + cbn [world set_world]. unfold gpu_signal. rewrite Hf4.
      cbn [gpu_fences]. apply lookup_insert_eq.
    + cbn [world set_world]. apply gpu_signal_calls.
  - split.
    + rewrite (parked_wakes 2 1 1 1 parked k Ha Hs); [| by rewrite Hf1 | lia].
      subst k. cbn beta.
      erewrite (BeginFrame_resumed env3 _ 0 _ 0 2); [| reflexivity | reflexivity].
      eexists. split; [reflexivity |].
      cbn [world set_world log_calls set_signaled gpu_fences calls]. split.
      * unfold gpu_signal. rewrite Hf1. cbn [gpu_fences].
        by rewrite lookup_insert_ne.
      * by rewrite gpu_signal_calls.
    + assert (Hg1' : gpu_fences (world st2) !! 1%nat = Some 0) by (subst st2; done).
      erewrite (BeginFrame_no_wait env3 _ (presented env2)
                  {| commandAllocator := Some 0%nat; frameFence := Some 1%nat;
                     fenceEvent := Some 2%nat; fenceValue := 1 |} 0);
        [| reflexivity | by rewrite Hnext2 | | reflexivity].
      2:{ right. exists 1%nat, 1. cbn [world set_world frameFence fenceValue].
          unfold gpu_signal. rewrite Hg1'. cbn [gpu_fences].
          by rewrite lookup_insert_eq. }
      rewrite Hnext2. eexists. split; [reflexivity |].
      cbn [world set_world log_calls gpu_fences calls]. split.
      * unfold gpu_signal. rewrite Hg1'. cbn [gpu_fences].
        rewrite lookup_insert_ne by done. subst st2; done.
      * by rewrite gpu_signal_calls.
Qed.

(** An instance: every call of the three frames succeeds. *)
Lemma third_frame_waits_for_its_own_slot_witness :
  ∃ st2 parked k,
    render_frames [env_ok 2 1; env_ok 2 0] true two_buffers_state = Done tt st2 ∧
    m_frameResources (this st2) =
      [ {| commandAllocator := Some 0%nat; frameFence := Some 1%nat;
           fenceEvent := Some 2%nat; fenceValue := 1 |};
        {| commandAllocator := Some 3%nat; frameFence := Some 4%nat;
           fenceEvent := Some 5%nat; fenceValue := 2 |} ] ∧
    drawn (world st2) = [1; 2] ∧
    BeginFrame (env_ok 2 1) st2 = Park 2 parked k ∧
    calls (world parked) =
      calls (world st2) ++
        [ResourceManager_BeginFrame;
         Fence_SetEventOnCompletion 1 1 2 (set_event_hr (env_ok 2 1) 0);
         WaitForSingleObject 2] ∧
    (∃ parked',
       deliver 4 2 (Park 2 parked k) = Park 2 parked' k ∧
       gpu_fences (world parked') !! 4%nat = Some 2 ∧
       calls (world parked') = calls (world parked)) ∧
    (∃ st3,
       deliver 1 1 (Park 2 parked k) = Done (record_answer (env_ok 2 1)) st3 ∧
       gpu_fences (world st3) !! 4%nat = Some 0 ∧
       calls (world st3) = calls (world parked) ++ record_calls (env_ok 2 1) 0 0) ∧
    (∃ st3,
       BeginFrame (env_ok 2 1) (set_world (gpu_signal 1 1 (world st2)) st2)
         = Done (record_answer (env_ok 2 1)) st3 ∧
       gpu_fences (world st3) !! 4%nat = Some 0 ∧
       calls (world st3) =
         calls (world st2) ++
           ResourceManager_BeginFrame :: record_calls (env_ok 2 1) 0 0).
Proof.
  apply (third_frame_waits_for_its_own_slot (env_ok 2 0) 0%nat two_buffers_state
           (env_ok 2 1) (env_ok 2 0) (env_ok 2 1) true); reflexivity.
Defined.

(** C1 as stated fails when the wait registration fails.  Two buffers,
    frames 1 and 2 submitted, no GPU completion; in the third [BeginFrame]
    [SetEventOnCompletion] for value 1 on slot 0's fence fails: the call
    does not wait for value 1, it resets slot 0's allocator at once, slot 0's
    fence having completed 0. *)
Lemma third_frame_does_not_wait_when_registration_fails :
  ∃ st2 st3,
    render_frames [env_ok 2 1; env_ok 2 0] true two_buffers_state = Done tt st2 ∧
    fenceValue <$> m_frameResources (this st2) = [1; 2] ∧
    BeginFrame (env_with 2 1 true true true E_FAIL) st2 = Done (Some tt) st3 ∧
    gpu_fences (world st3) !! 1%nat = Some 0 ∧
    calls (world st3) =
      calls (world st2) ++
        [ResourceManager_BeginFrame;
         Fence_SetEventOnCompletion 1 1 2 E_FAIL;
         printf (SetEventOnCompletion_failed 0 E_FAIL);
         CommandAllocator_Reset 0 true;
         CommandList_Reset 0 true;
         CommandList_TransitionBarrier 0 STATE_PRESENT STATE_RENDER_TARGET].
Proof.
  eexists _, _. split; [vm_compute; reflexivity |].
  split; [vm_compute; reflexivity |].
  repeat split; vm_compute; reflexivity.
Qed.

(** ** Waits and completion queries *)

(** X1.  Waiting changes nothing the renderer owns.  In every state in which
    [WaitForAllFrames] parks or returns, the renderer's fields are the ones
    it was called with, no object was created or destroyed, no fence value
    was signaled, and the log has grown only by registrations, waits and the
    diagnostic of a failed registration.  With every slot complete it
    returns at once in the state it was called in. *)
Theorem WaitForAllFrames_only_waits (env : Env) (st : State) :
  always (waited st) (WaitForAllFrames env st) ∧
  ((∀ i frame, m_frameResources (this st) !! i = Some frame →
               slot_complete (world st) frame) →
   WaitForAllFrames env st = Done tt st).
Proof.
  split.
  - apply WaitForAllFrames_waited, waited_refl.
  - apply WaitForAllFrames_drained.
Qed.

(** X2.  [WaitForFrame (i)] returns at once, in the state it was called
    in, exactly when [IsFrameComplete (i)] answers true.  When
    [IsFrameComplete (i)] answers false, [WaitForFrame (i)] registers the
    value the slot recorded on the slot's fence with the slot's event,
    whether or not the registration then succeeds. *)
Theorem WaitForFrame_no_op_iff_IsFrameComplete (env : Env) (i : nat) (st : State) :
  (WaitForFrame env i st = Done tt st ↔ IsFrameComplete i st = Done true st) ∧
  (IsFrameComplete i st = Done false st →
   ∀ frame f e,
     m_frameResources (this st) !! i = Some frame →
     frameFence frame = Some f → fenceEvent frame = Some e →
     always (fun st' =>
               Fence_SetEventOnCompletion f (fenceValue frame) e (set_event_hr env i)
                 ∈ calls (world st'))
       (WaitForFrame env i st)).
Proof.
  destruct (m_frameResources (this st) !! i) as [frame |] eqn:Hl.
  2:{ apply lookup_ge_None in Hl.
      rewrite WaitForFrame_out_of_range, IsFrameComplete_out_of_range by done.
      split; [done |]. intros H; discriminate. }
  rewrite (IsFrameComplete_slot _ _ _ Hl).
  destruct (Z.eqb_spec (fenceValue frame) 0) as [Hz | Hz].
  { rewrite (WaitForFrame_complete env st i frame Hl) by (by left).
    split; [done |]. intros H; discriminate. }
  destruct (frameFence frame) as [f |] eqn:Hf.
  2:{ split; [| intros H; discriminate].
      unfold WaitForFrame. munfold. case_decide; [apply lookup_lt_Some in Hl; lia |].
      rewrite Hl; cbn.
      destruct (Z.eqb_spec (fenceValue frame) 0); [done |]. by rewrite Hf. }
  destruct (gpu_fences (world st) !! f) as [c |] eqn:Hg.
  2:{ split; [| intros H; discriminate].
      unfold WaitForFrame. munfold. case_decide; [apply lookup_lt_Some in Hl; lia |].
      rewrite Hl; cbn.
      destruct (Z.eqb_spec (fenceValue frame) 0); [done |]. rewrite Hf; cbn.
      by rewrite Hg. }
  destruct (Z.leb_spec (fenceValue frame) c) as [Hle | Hlt].
  { rewrite (WaitForFrame_complete env st i frame Hl) by (right; by exists f, c).
    split; [done |]. intros H; discriminate. }
  assert (Hgrow : ∀ cs, cs ≠ [] → set_world (log_calls cs (world st)) st ≠ st).
  { intros cs Hcs Heq. apply (f_equal (fun s => length (calls (world s)))) in Heq.
    cbn in Heq. rewrite length_app in Heq. destruct cs; [done | cbn in Heq; lia]. }
  split.
  - split; [| intros H; discriminate]. intros Hw. exfalso.
    destruct (fenceEvent frame) as [e |] eqn:He.
    2:{ revert Hw. unfold WaitForFrame. munfold.
        case_decide; [apply lookup_lt_Some in Hl; lia |]. rewrite Hl; cbn.
        destruct (Z.eqb_spec (fenceValue frame) 0); [done |]. rewrite Hf; cbn.
        rewrite Hg; cbn. destruct (Z.leb_spec (fenceValue frame) c); [lia |].
        by rewrite He. }
    rewrite (WaitForFrame_in_flight env st i frame f c e Hl Hf He Hg Hz Hlt) in Hw.
    destruct (FAILED (set_event_hr env i)).
    { injection Hw as Hw. by apply Hgrow in Hw. }
    cbn zeta in Hw. case_decide; [| discriminate].
    unfold consume in Hw. munfold. injection Hw as Hw.
    apply (f_equal (fun s => length (calls (world s)))) in Hw.
    cbn in Hw. rewrite length_app in Hw. cbn in Hw. lia.
  - intros _ frame' f' e Hfr Hf' He. injection Hfr as <-.
    rewrite Hf in Hf'. injection Hf' as <-.
    rewrite (WaitForFrame_in_flight env st i frame f c e Hl Hf He Hg Hz Hlt).
    destruct (FAILED (set_event_hr env i)).
    { cbn. apply elem_of_app. right. apply list_elem_of_here. }
    cbn zeta.
    assert (Hin : ∀ w, Fence_SetEventOnCompletion f (fenceValue frame) e (set_event_hr env i)
              ∈ calls (log_calls
                   [Fence_SetEventOnCompletion f (fenceValue frame) e (set_event_hr env i);
                    WaitForSingleObject e] w)).
    { intros w. cbn. apply elem_of_app. right. apply list_elem_of_here. }
    case_decide.
    + unfold consume. munfold. apply Hin.
    + cbn [always]. split; [apply Hin |]. intros ds. unfold consume. munfold.
      rewrite gpu_run_calls. apply Hin.
Qed.

(** ** More of [EndFrame] and [BeginFrame] *)

(** X3.  A frame that [EndFrame] submits is in flight until the GPU
    brings the slot's fence to the value drawn.  [EndFrame] itself completes
    nothing; afterwards, whatever the GPU completes, [IsFrameComplete] of
    the slot answers whether the fence has reached the value drawn.  The
    exception is the value 0, which a wrapped counter draws: the slot then
    counts as never submitted and is reported complete at once. *)
Theorem EndFrame_then_IsFrameComplete
    (env : Env) (vsync : bool) (st : State) (sc : SwapChain)
    (frame : FrameResources) (f : nat) :
  m_swapChain (this st) = Some sc →
  command_list_close_ok env = true →
  m_frameResources (this st) !! m_currentFrameIndex (this st) = Some frame →
  frameFence frame = Some f →
  is_Some (gpu_fences (world st) !! f) →
  ∃ st',
    EndFrame env vsync st = Done tt st' ∧
    gpu_fences (world st') = gpu_fences (world st) ∧
    ∀ ds, ∃ c,
      gpu_fences (gpu_run ds (world st')) !! f = Some c ∧
      IsFrameComplete (m_currentFrameIndex (this st))
          (set_world (gpu_run ds (world st')) st') =
        Done ((m_nextFenceValue (this st) =? 0) || (m_nextFenceValue (this st) <=? c))
          (set_world (gpu_run ds (world st')) st').
Proof.
  intros Hsc Hclose Hl Hf Hg.
  rewrite (EndFrame_submitted _ _ _ _ _ Hsc Hclose Hl).
  eexists. split; [reflexivity |]. split; [reflexivity |].
  intros ds. cbn [world].
  match goal with |- context [gpu_run ds ?w] => set (w1 := w) end.
  assert (Hdom : is_Some (gpu_fences (gpu_run ds w1) !! f)).
  { apply elem_of_dom. rewrite gpu_run_dom. subst w1; cbn. by apply elem_of_dom. }
  destruct Hdom as [c Hc]. exists c. split; [done |].
  erewrite IsFrameComplete_slot.
  2:{ cbn. apply list_lookup_insert_eq. by eapply lookup_lt_Some. }
  cbn. rewrite Hf. rewrite Hc.
  by destruct (m_nextFenceValue (this st) =? 0).
Qed.

(** An instance: the first frame of a renderer with two buffers. *)
Lemma EndFrame_then_IsFrameComplete_witness :
  ∃ st',
    EndFrame (env_ok 2 1) true two_buffers_state = Done tt st' ∧
    gpu_fences (world st') = gpu_fences (world two_buffers_state) ∧
    ∀ ds, ∃ c,
      gpu_fences (gpu_run ds (world st')) !! 1%nat = Some c ∧
      IsFrameComplete 0 (set_world (gpu_run ds (world st')) st') =
        Done ((1 =? 0) || (1 <=? c)) (set_world (gpu_run ds (world st')) st').
Proof.
  exact (EndFrame_then_IsFrameComplete (env_ok 2 1) true two_buffers_state
           {| sc_bufferCount := 2; sc_backBufferIndex := 0 |}
           {| commandAllocator := Some 0%nat; frameFence := Some 1%nat;
              fenceEvent := Some 2%nat; fenceValue := 0 |} 1%nat
           eq_refl eq_refl eq_refl eq_refl (ex_intro _ 0 eq_refl)).
Defined.

(** X4.  When [Signal] fails in [EndFrame] the failure is reported and the
    frame goes on: the slot has recorded the value drawn, the counter has
    moved on, the resource manager is told of the frame's end and the frame
    is presented, while the fences have completed nothing more. *)
Theorem EndFrame_signal_failure_goes_on
    (env : Env) (vsync : bool) (st : State) (sc : SwapChain) (frame : FrameResources) :
  m_swapChain (this st) = Some sc →
  command_list_close_ok env = true →
  m_frameResources (this st) !! m_currentFrameIndex (this st) = Some frame →
  FAILED (signal_hr env) = true →
  ∃ st',
    EndFrame env vsync st = Done tt st' ∧
    calls (world st') = calls (world st) ++
      [CommandList_TransitionBarrier (sc_backBufferIndex sc)
         STATE_RENDER_TARGET STATE_PRESENT;
       CommandList_Close true;
       ExecuteCommandLists;
       Queue_Signal (frameFence frame) (m_nextFenceValue (this st)) (signal_hr env);
       printf (Failed_signal_fence (m_currentFrameIndex (this st)) (signal_hr env));
       ResourceManager_EndFrame;
       SwapChain_Present vsync (present_ok env)] ∧
    m_frameResources (this st') !! m_currentFrameIndex (this st) =
      Some (with_fenceValue (m_nextFenceValue (this st)) frame) ∧
    m_nextFenceValue (this st') = uint64_incr (m_nextFenceValue (this st)) ∧
    gpu_fences (world st') = gpu_fences (world st).
Proof.
  intros Hsc Hclose Hl Hhr.
  rewrite (EndFrame_submitted _ _ _ _ _ Hsc Hclose Hl).
  eexists. split; [reflexivity |]. cbn.
  unfold submit_calls. rewrite Hhr. cbn.
  repeat split. apply list_lookup_insert_eq. by eapply lookup_lt_Some.
Qed.

(** An instance: the first frame of a renderer with two buffers. *)
Lemma EndFrame_signal_failure_goes_on_witness :
  ∃ st',
    EndFrame (env_signal_fails 2 1) true two_buffers_state = Done tt st' ∧
    calls (world st') = calls (world two_buffers_state) ++
      [CommandList_TransitionBarrier 0 STATE_RENDER_TARGET STATE_PRESENT;
       CommandList_Close true;
       ExecuteCommandLists;
       Queue_Signal (Some 1%nat) 1 E_FAIL;
       printf (Failed_signal_fence 0 E_FAIL);
       ResourceManager_EndFrame;
       SwapChain_Present true true] ∧
    m_frameResources (this st') !! 0%nat =
      Some (with_fenceValue 1
              {| commandAllocator := Some 0%nat; frameFence := Some 1%nat;
                 fenceEvent := Some 2%nat; fenceValue := 0 |}) ∧
    m_nextFenceValue (this st') = uint64_incr 1 ∧
    gpu_fences (world st') = gpu_fences (world two_buffers_state).
Proof.
  exact (EndFrame_signal_failure_goes_on (env_signal_fails 2 1) true two_buffers_state
           {| sc_bufferCount := 2; sc_backBufferIndex := 0 |}
           {| commandAllocator := Some 0%nat; frameFence := Some 1%nat;
              fenceEvent := Some 2%nat; fenceValue := 0 |}
           eq_refl eq_refl eq_refl eq_refl).
Defined.

(** X5.  [BeginFrame] changes one field of the renderer,
    [m_currentFrameIndex], which holds the swap chain's current back buffer
    from before the wait on.  Whenever it returns, it answers the command
    list exactly when both resets succeeded, and the barrier to the
    render-target state is then the last call it made.  When it answers
    [nullptr] it recorded no barrier, and when the allocator's reset failed
    it did not reset the command list.  On a slot that is complete it
    returns without waiting. *)
Theorem BeginFrame_answers_iff_resets_succeed (env : Env) (st : State) (sc : SwapChain) :
  m_swapChain (this st) = Some sc →
  always (fun st' => this st' = with_currentFrameIndex (sc_backBufferIndex sc) (this st))
    (BeginFrame env st) ∧
  on_return (fun a st' =>
      (a = Some tt ↔ allocator_reset_ok env = true ∧ command_list_reset_ok env = true) ∧
      ∃ new, calls (world st') = calls (world st) ++ new ∧
        (a = Some tt →
         last new = Some (CommandList_TransitionBarrier (sc_backBufferIndex sc)
                            STATE_PRESENT STATE_RENDER_TARGET)) ∧
        (a = None → ∀ b s s', CommandList_TransitionBarrier b s s' ∉ new) ∧
        (allocator_reset_ok env = false → ∀ al ok, CommandList_Reset al ok ∉ new))
    (BeginFrame env st) ∧
  (∀ frame a, m_frameResources (this st) !! sc_backBufferIndex sc = Some frame →
     slot_complete (world st) frame → commandAllocator frame = Some a →
     ∃ st', BeginFrame env st =
              Done (if allocator_reset_ok env && command_list_reset_ok env
                    then Some tt else None) st').
Proof.
  intros Hsc. split; [| split].
  - rewrite (BeginFrame_unfold _ _ _ Hsc).
    set (st1 := {| this := with_currentFrameIndex (sc_backBufferIndex sc) (this st);
                   world := log_calls [ResourceManager_BeginFrame] (world st) |}).
    apply always_bind_res_via with (P := quiet st1).
    + apply WaitForFrame_quiet, quiet_refl.
    + intros st2 Hq. by rewrite (quiet_this _ _ Hq).
    + intros _ st2 Hq.
      destruct (m_frameResources (this st2) !! sc_backBufferIndex sc) as [frame |] eqn:Hl.
      2:{ unfold BeginFrame_record. munfold. by rewrite Hl. }
      destruct (commandAllocator frame) as [a |] eqn:Ha.
      2:{ unfold BeginFrame_record. munfold. rewrite Hl; cbn. by rewrite Ha. }
      rewrite (BeginFrame_record_spec env st2 _ frame a Hl Ha). cbn.
      by rewrite (quiet_this _ _ Hq).
  - rewrite (BeginFrame_unfold _ _ _ Hsc).
    set (st1 := {| this := with_currentFrameIndex (sc_backBufferIndex sc) (this st);
                   world := log_calls [ResourceManager_BeginFrame] (world st) |}).
    apply on_return_bind_res with (Q := fun _ st2 => waited st1 st2).
    + apply always_on_return, WaitForFrame_waited, waited_refl.
    + intros _ st2 [Hq (new & Hc & Hw)].
      destruct (m_frameResources (this st2) !! sc_backBufferIndex sc) as [frame |] eqn:Hl.
      2:{ unfold BeginFrame_record. munfold. by rewrite Hl. }
      destruct (commandAllocator frame) as [a |] eqn:Ha.
      2:{ unfold BeginFrame_record. munfold. rewrite Hl; cbn. by rewrite Ha. }
      rewrite (BeginFrame_record_spec env st2 _ frame a Hl Ha). cbn [on_return].
      split.
      { unfold record_answer.
        destruct (allocator_reset_ok env), (command_list_reset_ok env); cbn;
          split; (try done); intros [? ?]; done. }
      exists ((ResourceManager_BeginFrame :: new) ++ record_calls env (sc_backBufferIndex sc) a).
      split.
      { cbn. rewrite Hc. subst st1; cbn. by rewrite <- !app_assoc. }
      assert (Hpre : ∀ c, c ∈ ResourceManager_BeginFrame :: new →
                (∀ b s s', c ≠ CommandList_TransitionBarrier b s s') ∧
                (∀ al ok, c ≠ CommandList_Reset al ok)).
      { intros c Hin. apply elem_of_cons in Hin as [-> | Hin]; [done |].
        pose proof (wait_call_elem c new Hw Hin) as Hwc.
        split; intros; intros ->; discriminate. }
      unfold record_answer, record_calls.
      destruct (allocator_reset_ok env), (command_list_reset_ok env); cbn [andb].
      * split; [| split; [done | done]]. intros _.
        by rewrite last_app.
      * split; [done |]. split; [| done]. intros _ b s s' Hin.
        apply elem_of_app in Hin as [Hin | Hin].
        -- by apply (proj1 (Hpre _ Hin) b s s').
        -- repeat (apply elem_of_cons in Hin as [Hin | Hin]; [discriminate |]).
           by apply elem_of_nil in Hin.
      * split; [done |]. split.
        -- intros _ b s s' Hin. apply elem_of_app in Hin as [Hin | Hin].
           ++ by apply (proj1 (Hpre _ Hin) b s s').
           ++ repeat (apply elem_of_cons in Hin as [Hin | Hin]; [discriminate |]).
              by apply elem_of_nil in Hin.
        -- intros _ al ok Hin. apply elem_of_app in Hin as [Hin | Hin].
           ++ by apply (proj2 (Hpre _ Hin) al ok).
           ++ repeat (apply elem_of_cons in Hin as [Hin | Hin]; [discriminate |]).
              by apply elem_of_nil in Hin.
      * split; [done |]. split.
        -- intros _ b s s' Hin. apply elem_of_app in Hin as [Hin | Hin].
           ++ by apply (proj1 (Hpre _ Hin) b s s').
           ++ repeat (apply elem_of_cons in Hin as [Hin | Hin]; [discriminate |]).
              by apply elem_of_nil in Hin.
        -- intros _ al ok Hin. apply elem_of_app in Hin as [Hin | Hin].
           ++ by apply (proj2 (Hpre _ Hin) al ok).
           ++ repeat (apply elem_of_cons in Hin as [Hin | Hin]; [discriminate |]).
              by apply elem_of_nil in Hin.
  - intros frame a Hl Hc Ha.
    rewrite (BeginFrame_no_wait env st sc frame a Hsc Hl Hc Ha). eauto.
Qed.

(** An instance: two buffers, the allocator's reset failing. *)
Lemma BeginFrame_answers_iff_resets_succeed_witness :
  BeginFrame (env_with 2 1 false true true S_OK) two_buffers_state =
    Done None
      {| this := with_currentFrameIndex 0 (this two_buffers_state);
         world := log_calls [ResourceManager_BeginFrame; CommandAllocator_Reset 0 false;
                             printf (Failed_reset_allocator 0)]
                    (world two_buffers_state) |} ∧
  on_return (fun a st' =>
      (a = Some tt ↔ false = true ∧ true = true) ∧
      ∃ new, calls (world st') = calls (world two_buffers_state) ++ new ∧
        (a = Some tt →
         last new = Some (CommandList_TransitionBarrier 0 STATE_PRESENT STATE_RENDER_TARGET)) ∧
        (a = None → ∀ b s s', CommandList_TransitionBarrier b s s' ∉ new) ∧
        (false = false → ∀ al ok, CommandList_Reset al ok ∉ new))
    (BeginFrame (env_with 2 1 false true true S_OK) two_buffers_state).
Proof.
  split; [reflexivity |].
  exact (proj1 (proj2 (BeginFrame_answers_iff_resets_succeed
           (env_with 2 1 false true true S_OK) two_buffers_state
           {| sc_bufferCount := 2; sc_backBufferIndex := 0 |} eq_refl))).
Defined.


(** ** The pool, slot by slot *)

Lemma InitializeFrameResources_body_created env i st :
  m_frameResources (this st) !! i = Some FrameResources_default →
  slot_created_ok env i = true →
  InitializeFrameResources_body env i st =
    Done true
      {| this := with_frameResources
                   (<[i := slot_created (next_handle (world st))]>
                      (m_frameResources (this st))) (this st);
         world := world_created env i (world st) |}.
Proof.
  intros Hl Hok.
  assert (Hi : (i < length (m_frameResources (this st)))%nat)
    by (by eapply lookup_lt_Some).
  unfold slot_created_ok in Hok.
  apply andb_true_iff in Hok as [Hok He]. apply andb_true_iff in Hok as [Ha Hf].
  apply negb_true_iff in Hf.
  unfold InitializeFrameResources_body.
  unfold make_unique_CommandAllocator, fresh_handle. munfold.
  rewrite Hl; cbn. rewrite Hl; cbn. rewrite Ha. munfold.
  rewrite !list_lookup_insert_eq by (rewrite ?length_insert; lia). cbn.
  rewrite !list_insert_insert_eq.
  unfold Device_CreateFence, fresh_handle. rewrite Hf. munfold.
  rewrite !list_lookup_insert_eq by (rewrite ?length_insert; lia). cbn.
  rewrite !list_insert_insert_eq.
  unfold Win32_CreateEvent, fresh_handle. rewrite He. munfold.
  rewrite !list_lookup_insert_eq by (rewrite ?length_insert; lia). cbn.
  rewrite !list_insert_insert_eq.
  unfold set_this, set_world, with_frameResources, world_created, slot_created, log_call.
  cbn. by rewrite <- !app_assoc.
Qed.

Lemma InitializeFrameResources_body_failed env i st :
  m_frameResources (this st) !! i = Some FrameResources_default →
  slot_created_ok env i = false →
  ∃ st' partial pre,
    InitializeFrameResources_body env i st = Done false st' ∧
    this st' = with_frameResources (<[i := partial]> (m_frameResources (this st))) (this st) ∧
    commandAllocator partial = Some (next_handle (world st)) ∧
    fenceEvent partial = None ∧ fenceValue partial = 0 ∧
    calls (world st') = calls (world st) ++ pre ++ [printf (creation_diagnostic env i)] ∧
    (∀ d, printf d ∉ pre).
Proof.
  intros Hl Hok.
  assert (Hi : (i < length (m_frameResources (this st)))%nat)
    by (by eapply lookup_lt_Some).
  unfold slot_created_ok in Hok. unfold creation_diagnostic.
  unfold InitializeFrameResources_body.
  unfold make_unique_CommandAllocator, fresh_handle. munfold.
  rewrite Hl; cbn. rewrite Hl; cbn.
  assert (Hnp : ∀ (l : list Call),
            forallb (fun c => match c with printf _ => false | _ => true end) l = true →
            ∀ d, printf d ∉ l).
  { intros l Hall d Hin. rewrite forallb_forall in Hall.
    apply list_elem_of_In in Hin. by apply Hall in Hin. }
  destruct (allocator_initialize_ok env i); munfold.
  2:{ eexists _, _, [_]. split; [reflexivity |]. cbn.
      split; [reflexivity |]. do 3 (split; [reflexivity |]).
      split; [by rewrite <- !app_assoc |]. by apply Hnp. }
  rewrite !list_lookup_insert_eq by (rewrite ?length_insert; lia). cbn.
  rewrite !list_insert_insert_eq.
  unfold Device_CreateFence, fresh_handle.
  destruct (FAILED (create_fence_hr env i)) eqn:Hhr; munfold.
  { rewrite !list_lookup_insert_eq by (rewrite ?length_insert; lia). cbn.
    rewrite !list_insert_insert_eq.
    eexists _, _, [_; _]. split; [reflexivity |]. cbn.
    split; [reflexivity |]. do 3 (split; [reflexivity |]).
    split; [by rewrite <- !app_assoc |]. by apply Hnp. }
  rewrite !list_lookup_insert_eq by (rewrite ?length_insert; lia). cbn.
  rewrite !list_insert_insert_eq.
  unfold Win32_CreateEvent, fresh_handle. cbn in Hok.
  rewrite Hok. munfold.
  rewrite !list_lookup_insert_eq by (rewrite ?length_insert; lia). cbn.
  rewrite !list_insert_insert_eq.
  eexists _, _, [_; _; _]. split; [reflexivity |]. cbn.
  split; [reflexivity |]. do 3 (split; [reflexivity |]).
  split; [by rewrite <- !app_assoc |]. by apply Hnp.
Qed.

Lemma InitializeFrameResources_loop_created env m : ∀ i st,
  (∀ j, (i ≤ j < i + m)%nat →
        m_frameResources (this st) !! j = Some FrameResources_default) →
  forallb (slot_created_ok env) (seq i m) = true →
  ∃ st',
    InitializeFrameResources_loop env i m st = Done true st' ∧
    (∀ j, (j < m)%nat →
          m_frameResources (this st') !! (i + j)%nat =
            Some (slot_created (next_handle (world st) + 3 * j))) ∧
    (∀ j, (j < i ∨ i + m ≤ j)%nat →
          m_frameResources (this st') !! j = m_frameResources (this st) !! j) ∧
    next_handle (world st') = (next_handle (world st) + 3 * m)%nat ∧
    (∃ new, calls (world st') = calls (world st) ++ new ∧ ∀ d, printf d ∉ new).
Proof.
  induction m as [| m IH]; intros i st Hdef Hall.
  { exists st. cbn. split; [done |]. split; [intros; lia |]. split; [done |].
    split; [lia |]. exists []. split; [by rewrite app_nil_r |].
    intros d Hin. by apply elem_of_nil in Hin. }
  cbn [seq forallb] in Hall. apply andb_true_iff in Hall as [Hok Hall].
  cbn [InitializeFrameResources_loop]. unfold bind.
  rewrite (InitializeFrameResources_body_created env i st) by (done || apply Hdef; lia).
  cbn [bind_res].
  set (st1 := {| this := with_frameResources
                   (<[i := slot_created (next_handle (world st))]>
                      (m_frameResources (this st))) (this st);
                 world := world_created env i (world st) |}).
  assert (Hi : (i < length (m_frameResources (this st)))%nat).
  { eapply lookup_lt_Some. apply Hdef. lia. }
  destruct (IH (S i) st1) as (st2 & Hloop & Hnew & Hsame & Hh & (new & Hc & Hnp)).
  { intros j Hj. subst st1; cbn. rewrite list_lookup_insert_ne by lia. apply Hdef. lia. }
  { done. }
  exists st2. split; [exact Hloop |]. split; [| split; [| split]].
  - intros j Hj. destruct j as [| j].
    + rewrite Hsame by lia. subst st1; cbn. rewrite Nat.add_0_r.
      rewrite list_lookup_insert_eq by done. do 2 f_equal. lia.
    + replace (i + S j)%nat with (S i + j)%nat by lia. rewrite Hnew by lia.
      subst st1; cbn. do 2 f_equal. lia.
  - intros j Hj. rewrite Hsame by lia. subst st1; cbn.
    apply list_lookup_insert_ne. lia.
  - rewrite Hh. subst st1; cbn. lia.
  - eexists. split.
    + rewrite Hc. subst st1; cbn. by rewrite <- app_assoc.
    + intros d Hin. apply elem_of_app in Hin as [Hin | Hin]; [| by apply (Hnp d)].
      repeat (apply elem_of_cons in Hin as [Hin | Hin]; [discriminate |]).
      by apply elem_of_nil in Hin.
Qed.

Lemma InitializeFrameResources_loop_failed env a : ∀ i m st,
  (a < m)%nat →
  (∀ j, (i ≤ j < i + m)%nat →
        m_frameResources (this st) !! j = Some FrameResources_default) →
  forallb (slot_created_ok env) (seq i a) = true →
  slot_created_ok env (i + a) = false →
  ∃ st1 st2,
    InitializeFrameResources_loop env i a st = Done true st1 ∧
    InitializeFrameResources_body env (i + a) st1 = Done false st2 ∧
    InitializeFrameResources_loop env i m st = Done false st2.
Proof.
  induction a as [| a IH]; intros i m st Ham Hdef Hall Hbad;
    (destruct m as [| m]; [lia |]).
  - rewrite Nat.add_0_r in *.
    destruct (InitializeFrameResources_body_failed env i st)
      as (st2 & partial & pre & Hbody & _); [apply Hdef; lia | done |].
    exists st, st2. split; [done |]. split; [done |].
    cbn [InitializeFrameResources_loop]. unfold bind. by rewrite Hbody.
  - cbn [seq forallb] in Hall. apply andb_true_iff in Hall as [Hok Hall].
    cbn [InitializeFrameResources_loop]. unfold bind.
    rewrite (InitializeFrameResources_body_created env i st) by (done || apply Hdef; lia).
    cbn [bind_res].
    replace (i + S a)%nat with (S i + a)%nat in * by lia.
    apply IH; [lia | | done | done].
    intros j Hj. cbn. rewrite list_lookup_insert_ne by lia. apply Hdef. lia.
Qed.

Lemma InitializeFrameResources_on_empty env st sc :
  m_swapChain (this st) = Some sc →
  m_frameResources (this st) = [] →
  InitializeFrameResources env st =
    InitializeFrameResources_loop env 0 (sc_bufferCount sc)
      {| this := with_frameResources
                   (replicate (sc_bufferCount sc) FrameResources_default) (this st);
         world := world st |}.
Proof.
  intros Hsc Hnil. unfold InitializeFrameResources, vector_resize. munfold.
  rewrite Hsc; cbn. rewrite Hnil; cbn.
  by rewrite drop_nil, take_nil, Nat.sub_0_r.
Qed.




Lemma InitializeFrameResources_first_failure
    (env : Env) (st : State) (sc : SwapChain) (i : nat) :
  m_swapChain (this st) = Some sc →
  m_frameResources (this st) = [] →
  (i < sc_bufferCount sc)%nat →
  forallb (slot_created_ok env) (seq 0 i) = true →
  slot_created_ok env i = false →
  ∃ st' partial new,
    InitializeFrameResources env st = Done false st' ∧
    length (m_frameResources (this st')) = sc_bufferCount sc ∧
    (∀ j, (j < i)%nat →
          m_frameResources (this st') !! j =
            Some (slot_created (next_handle (world st) + 3 * j))) ∧
    m_frameResources (this st') !! i = Some partial ∧
    is_Some (commandAllocator partial) ∧ fenceEvent partial = None ∧
    fenceValue partial = 0 ∧
    (∀ j, (i < j < sc_bufferCount sc)%nat →
          m_frameResources (this st') !! j = Some FrameResources_default) ∧
    calls (world st') =
      calls (world st) ++ new ++ [printf (creation_diagnostic env i)] ∧
    (∀ d, printf d ∉ new).
Proof.
  intros Hsc Hnil Hi Hall Hbad.
  rewrite (InitializeFrameResources_on_empty env st sc Hsc Hnil).
  set (st0 := {| this := with_frameResources
                   (replicate (sc_bufferCount sc) FrameResources_default) (this st);
                 world := world st |}).
  assert (Hdef : ∀ j, (0 ≤ j < 0 + sc_bufferCount sc)%nat →
            m_frameResources (this st0) !! j = Some FrameResources_default).
  { intros j Hj. subst st0; cbn. apply lookup_replicate_2. lia. }
  destruct (InitializeFrameResources_loop_failed env i 0 (sc_bufferCount sc) st0)
    as (st1 & st2 & Hloop1 & Hbody & Hloop); [done | done | done | done |].
  destruct (InitializeFrameResources_loop_created env i 0 st0)
    as (st1' & Hloop1' & Hnew & Hsame & Hh & (new1 & Hc1 & Hnp1)).
  { intros j Hj. apply Hdef. lia. }
  { done. }
  rewrite Hloop1 in Hloop1'. injection Hloop1' as <-.
  cbn [Nat.add] in *.
  destruct (InitializeFrameResources_body_failed env i st1)
    as (st2' & partial & pre & Hbody' & Hthis & Ha & He & Hv & Hc2 & Hnp2).
  { rewrite Hsame by lia. apply Hdef. lia. }
  { done. }
  rewrite Hbody in Hbody'. injection Hbody' as <-.
  assert (Hlen1 : length (m_frameResources (this st1)) = sc_bufferCount sc).
  { assert (Hge : m_frameResources (this st1) !! sc_bufferCount sc = None).
    { rewrite Hsame by lia. subst st0; cbn. apply lookup_replicate_None. lia. }
    assert (Hlt : is_Some (m_frameResources (this st1) !! i)).
    { rewrite Hsame by lia. rewrite Hdef by lia. eauto. }
    apply lookup_ge_None in Hge. 
    destruct (decide (length (m_frameResources (this st1)) = sc_bufferCount sc)) as [| Hne];
      [done | exfalso].
    assert (Hlast : is_Some (m_frameResources (this st1) !! (sc_bufferCount sc - 1)%nat)).
    { destruct (decide (sc_bufferCount sc - 1 < i)%nat).
      - rewrite Hnew by lia. eauto.
      - rewrite Hsame by lia. rewrite Hdef by lia. eauto. }
    apply lookup_lt_is_Some in Hlast. lia. }
  exists st2, partial, (new1 ++ pre).
  split; [exact Hloop |]. rewrite Hthis. cbn [m_frameResources with_frameResources].
  split; [by rewrite length_insert |].
  split.
  { intros j Hj. rewrite list_lookup_insert_ne by lia. by apply Hnew. }
  split; [apply list_lookup_insert_eq; lia |].
  split; [by rewrite Ha |]. split; [done |]. split; [done |].
  split.
  { intros j Hj. rewrite list_lookup_insert_ne by lia. rewrite Hsame by lia.
    apply Hdef. lia. }
  split.
  { rewrite Hc2, Hc1. subst st0; cbn. by rewrite <- !app_assoc. }
  intros d Hin. apply elem_of_app in Hin as [Hin | Hin]; [by apply (Hnp1 d) | by apply (Hnp2 d)].
Qed.

(** X7.  [InitializeFrameResources] stops at the first slot one of whose
    creations fails: it answers false, having printed the diagnostic of that
    creation and no other.  The pool keeps the length of the swap chain: the
    slots before the failing one are built, the failing slot has its
    allocator and no event, and the slots after it own nothing. *)
Theorem InitializeFrameResources_stops_at_first_failure
    (env : Env) (st : State) (sc : SwapChain) (i : nat) :
  m_swapChain (this st) = Some sc →
  m_frameResources (this st) = [] →
  (i < sc_bufferCount sc)%nat →
  forallb (slot_created_ok env) (seq 0 i) = true →
  slot_created_ok env i = false →
  ∃ st' partial new,
    InitializeFrameResources env st = Done false st' ∧
    length (m_frameResources (this st')) = sc_bufferCount sc ∧
    (∀ j, (j < i)%nat →
          m_frameResources (this st') !! j =
            Some (slot_created (next_handle (world st) + 3 * j))) ∧
    m_frameResources (this st') !! i = Some partial ∧
    is_Some (commandAllocator partial) ∧ fenceEvent partial = None ∧
    fenceValue partial = 0 ∧
    (∀ j, (i < j < sc_bufferCount sc)%nat →
          m_frameResources (this st') !! j = Some FrameResources_default) ∧
    calls (world st') =
      calls (world st) ++ new ++ [printf (creation_diagnostic env i)] ∧
    (∀ d, printf d ∉ new).
Proof. apply InitializeFrameResources_first_failure. Qed.

(** An instance: three buffers, the fence of slot 1 failing. *)
Lemma InitializeFrameResources_stops_at_first_failure_witness :
  ∃ st' partial new,
    InitializeFrameResources (env_fence_fails 3 1)
      {| this := with_swapChain (Some {| sc_bufferCount := 3; sc_backBufferIndex := 0 |})
                   (Renderer_unconstructed 0);
         world := World_empty |} = Done false st' ∧
    length (m_frameResources (this st')) = 3%nat ∧
    (∀ j, (j < 1)%nat →
          m_frameResources (this st') !! j = Some (slot_created (0 + 3 * j))) ∧
    m_frameResources (this st') !! 1%nat = Some partial ∧
    is_Some (commandAllocator partial) ∧ fenceEvent partial = None ∧
    fenceValue partial = 0 ∧
    (∀ j, (1 < j < 3)%nat →
          m_frameResources (this st') !! j = Some FrameResources_default) ∧
    calls (world st') =
      calls World_empty ++ new ++ [printf (Failed_create_fence 1 E_FAIL)] ∧
    (∀ d, printf d ∉ new).
Proof.
  exact (InitializeFrameResources_stops_at_first_failure (env_fence_fails 3 1)
           {| this := with_swapChain (Some {| sc_bufferCount := 3; sc_backBufferIndex := 0 |})
                        (Renderer_unconstructed 0);
              world := World_empty |}
           {| sc_bufferCount := 3; sc_backBufferIndex := 0 |} 1
           eq_refl eq_refl ltac:(cbn; lia) eq_refl eq_refl).
Defined.


(** ** More of [OnReconfigure] *)

Lemma OnReconfigure_recreate_same env width height bufferCount st sc :
  m_swapChain (this st) = Some sc →
  reconfigure_ok env = false ∨ bufferCount = 0%nat ∨ bufferCount = sc_bufferCount sc →
  OnReconfigure_recreate env width height bufferCount st =
    Done tt
      {| this := if reconfigure_ok env
                 then with_swapChain (Some (reconfigured env)) (this st)
                 else this st;
         world :=
           log_calls
             (SwapChain_Reconfigure width height bufferCount (reconfigure_ok env) ::
              (if reconfigure_ok env then [] else [printf Failed_reconfigure_swap_chain]))
             (world st) |}.
Proof.
  intros Hsc Hcase. unfold OnReconfigure_recreate. munfold. rewrite Hsc; cbn.
  destruct (reconfigure_ok env); munfold.
  - destruct Hcase as [? | Hcase]; [done |].
    case_decide as Hne.
    + exfalso. apply Hne. destruct Hcase as [-> | ->]; [done |].
      by destruct (sc_bufferCount sc).
    + done.
  - unfold set_world, log_call, log_calls; cbn. by rewrite <- !app_assoc.
Qed.

(** X8.  [OnReconfigure] keeps the pool whenever the swap chain refuses to
    reconfigure, or the count asked for is 0 or the current one: in every
    state the call parks or returns in, the pool, the frame index, the fence
    counter and the objects that exist are the ones it was called with.
    When it returns, the swap chain is the reconfigured one if it accepted
    and the old one if it refused, and the log has grown by the calls of the
    waits, the call to [Reconfigure], and its diagnostic if it refused.
    When every slot is complete at the call, it returns without parking. *)
Theorem OnReconfigure_keeps_pool_unless_count_changes
    (env : Env) (width height bufferCount : nat) (st : State) (sc : SwapChain) :
  m_swapChain (this st) = Some sc →
  reconfigure_ok env = false ∨ bufferCount = 0%nat ∨ bufferCount = sc_bufferCount sc →
  always (kept st) (OnReconfigure env width height bufferCount st) ∧
  on_return (fun _ st' =>
      m_swapChain (this st') =
        Some (if reconfigure_ok env then reconfigured env else sc) ∧
      ∃ waits, forallb wait_call waits = true ∧
        calls (world st') = calls (world st) ++ waits ++
          SwapChain_Reconfigure width height bufferCount (reconfigure_ok env) ::
          (if reconfigure_ok env then [] else [printf Failed_reconfigure_swap_chain]))
    (OnReconfigure env width height bufferCount st) ∧
  ((∀ i frame, m_frameResources (this st) !! i = Some frame →
               slot_complete (world st) frame) →
   ∃ st', OnReconfigure env width height bufferCount st = Done tt st' ∧ kept st st').
Proof.
  intros Hsc Hcase. rewrite (OnReconfigure_unfold _ _ _ _ _ _ Hsc).
  assert (Hkept : ∀ st1, quiet st st1 →
    kept st {| this := if reconfigure_ok env
                       then with_swapChain (Some (reconfigured env)) (this st1)
                       else this st1;
               world := log_calls
                 (SwapChain_Reconfigure width height bufferCount (reconfigure_ok env) ::
                  (if reconfigure_ok env then []
                   else [printf Failed_reconfigure_swap_chain])) (world st1) |}).
  { intros st1 [Q1 Q2 Q3 Q4 Q5].
    constructor; cbn; try done; destruct (reconfigure_ok env); cbn; by rewrite Q1. }
  split; [| split].
  - apply always_bind_res_via with (P := quiet st).
    + apply WaitForAllFrames_quiet, quiet_refl.
    + apply quiet_kept.
    + intros _ st1 Hq.
      rewrite (OnReconfigure_recreate_same env width height bufferCount st1 sc);
        [| by rewrite (quiet_this _ _ Hq) | done].
      by apply Hkept.
  - apply on_return_bind_res with (Q := fun _ st1 => waited st st1).
    + apply always_on_return, WaitForAllFrames_waited, waited_refl.
    + intros _ st1 [Hq (waits & Hc & Hw)].
      rewrite (OnReconfigure_recreate_same env width height bufferCount st1 sc);
        [| by rewrite (quiet_this _ _ Hq) | done].
      cbn [on_return this world]. split.
      * destruct (reconfigure_ok env); cbn; [done |].
        by rewrite (quiet_this _ _ Hq).
      * exists waits. split; [done |]. cbn. rewrite Hc. by rewrite <- app_assoc.
  - intros Hall. rewrite (WaitForAllFrames_drained env st Hall). cbn [bind_res].
    rewrite (OnReconfigure_recreate_same env width height bufferCount st sc) by done.
    eexists. split; [reflexivity |]. apply Hkept, quiet_refl.
Qed.

(** An instance: two buffers, asked for two. *)
Lemma OnReconfigure_keeps_pool_unless_count_changes_witness :
  ∃ st', OnReconfigure (env_ok 2 0) 800 600 2 two_buffers_state = Done tt st' ∧
         kept two_buffers_state st'.
Proof.
  apply (proj2 (proj2 (OnReconfigure_keeps_pool_unless_count_changes (env_ok 2 0) 800 600 2
           two_buffers_state {| sc_bufferCount := 2; sc_backBufferIndex := 0 |}
           eq_refl (or_intror (or_intror eq_refl))))).
  intros i frame Hl. left.
  destruct i as [| [| i]]; cbn in Hl; inversion Hl; reflexivity.
Defined.




(** ** Construction and destruction *)

(** X10.  The constructor returns a renderer exactly when the device, the
    command queues, the resource manager, the swap chain, every creation of
    [InitializeFrameResources] and the command list succeed and the swap
    chain has at least one buffer.  It never waits.  The renderer it returns
    has that swap chain, one built and never submitted slot per buffer, and
    the fence counter at its initial value. *)
Theorem Renderer_ctor_succeeds_iff (env : Env) (currentFrameIndex0 : nat) (w : World) :
  ((∃ st, construct env currentFrameIndex0 w = Done None st) ↔
     device_initialize_ok env = true ∧
     command_manager_initialize_ok env = true ∧
     resource_manager_initialize_ok env = true ∧
     swapchain_initialized env = true ∧
     forallb (slot_created_ok env)
       (seq 0 (sc_bufferCount (swapchain_created env))) = true ∧
     sc_bufferCount (swapchain_created env) ≠ 0%nat ∧
     command_list_initialize_ok env = true) ∧
  (∀ e st k, construct env currentFrameIndex0 w ≠ Park e st k) ∧
  (∀ st, construct env currentFrameIndex0 w = Done None st →
     m_swapChain (this st) = Some (swapchain_created env) ∧
     length (m_frameResources (this st)) = sc_bufferCount (swapchain_created env) ∧
     m_nextFenceValue (this st) = m_nextFenceValue_initial ∧
     ∀ i frame, m_frameResources (this st) !! i = Some frame →
       fenceValue frame = 0 ∧ slot_ready (next_handle w) (world st) frame).
Proof.
  unfold construct, Renderer_ctor.
  destruct (device_initialize_ok env); cbn;
    [| split; [split; [intros [? ?]; discriminate | intros [? _]; discriminate]
              | split; intros; discriminate]].
  destruct (command_manager_initialize_ok env); cbn;
    [| split; [split; [intros [? ?]; discriminate | intros (_ & ? & _); discriminate]
              | split; intros; discriminate]].
  destruct (resource_manager_initialize_ok env); cbn;
    [| split; [split; [intros [? ?]; discriminate | intros (_ & _ & ? & _); discriminate]
              | split; intros; discriminate]].
  munfold.
  destruct (swapchain_initialized env); cbn;
    [| split; [split; [intros [? ?]; discriminate | intros (_ & _ & _ & ? & _); discriminate]
              | split; intros; discriminate]].
  match goal with
  | |- context [InitializeFrameResources env ?s] => set (st1 := s)
  end.
  destruct (InitializeFrameResources_empty env st1 (swapchain_created env))
    as (st2 & Hinit & I1 & I2 & I3 & I4 & I5 & (new & I6 & I7) & I8 & I9 & I10);
    [done | done |].
  rewrite Hinit. cbn [bind_res].
  destruct (forallb (slot_created_ok env) (seq 0 (sc_bufferCount (swapchain_created env))))
    eqn:Hall; cbn;
    [| split; [split; [intros [? ?]; discriminate
                      | intros (_ & _ & _ & _ & ? & _); discriminate]
              | split; intros; discriminate]].
  munfold.
  destruct (m_frameResources (this st2) !! 0%nat) as [frame0 |] eqn:Hl0; cbn.
  2:{ apply lookup_ge_None in Hl0.
      split; [split; [intros [? ?]; discriminate | intros (_ & _ & _ & _ & _ & ? & _); lia]
             | split; intros; discriminate]. }
  apply lookup_lt_Some in Hl0.
  destruct (command_list_initialize_ok env); cbn;
    [| split; [split; [intros [? ?]; discriminate
                      | intros (_ & _ & _ & _ & _ & _ & ?); discriminate]
              | split; intros; discriminate]].
  split; [split; [intros _; repeat split; (done || lia) | eauto] |].
  split; [intros; discriminate |].
  intros st H. injection H as <-.
  split; [done |]. split; [done |]. split; [by rewrite I3 |].
  intros i frame Hl. split; [by apply (I9 i frame) |]. by apply (I10 eq_refl i frame).
Qed.

(** X11.  With a swap chain that reports no buffer, everything before it
    succeeding, [InitializeFrameResources] answers true on an empty pool and
    the constructor then reads [m_frameResources[0]] out of range. *)
Theorem Renderer_ctor_zero_buffers (env : Env) (currentFrameIndex0 : nat) (w : World) :
  device_initialize_ok env = true →
  command_manager_initialize_ok env = true →
  resource_manager_initialize_ok env = true →
  swapchain_initialized env = true →
  sc_bufferCount (swapchain_created env) = 0%nat →
  construct env currentFrameIndex0 w = Fault.
Proof.
  intros H1 H2 H3 H4 Hn. unfold construct, Renderer_ctor.
  rewrite H1, H2, H3; cbn. munfold. rewrite H4; cbn.
  match goal with
  | |- context [InitializeFrameResources env ?s] => set (st1 := s)
  end.
  destruct (InitializeFrameResources_empty env st1 (swapchain_created env))
    as (st2 & Hinit & _ & _ & _ & _ & _ & _ & Hlen & _); [done | done |].
  rewrite Hinit. cbn [bind_res]. rewrite Hn in *. cbn. munfold.
  destruct (m_frameResources (this st2)); [done | discriminate].
Qed.

(** An instance. *)
Lemma Renderer_ctor_zero_buffers_witness :
  construct (env_ok 0 0) 0 World_empty = Fault.
Proof.
  exact (Renderer_ctor_zero_buffers (env_ok 0 0) 0 World_empty
           eq_refl eq_refl eq_refl eq_refl eq_refl).
Defined.

(** X12.  The constructor throws for the first stage that fails, and the
    stages after it are not run: each error implies that the stages before
    its own succeeded and that its own failed, and when one of the first
    four fails no frame resource has been created. *)
Theorem Renderer_ctor_reports_first_failure
    (env : Env) (currentFrameIndex0 : nat) (w : World) (err : runtime_error) (st : State) :
  construct env currentFrameIndex0 w = Done (Some err) st →
  match err with
  | Failed_to_initialize_device =>
    device_initialize_ok env = false ∧
    st = {| this := Renderer_unconstructed currentFrameIndex0; world := w |}
  | Failed_to_create_command_queues =>
    device_initialize_ok env = true ∧ command_manager_initialize_ok env = false ∧
    st = {| this := Renderer_unconstructed currentFrameIndex0; world := w |}
  | Failed_to_initialize_resource_manager =>
    device_initialize_ok env = true ∧ command_manager_initialize_ok env = true ∧
    resource_manager_initialize_ok env = false ∧
    st = {| this := Renderer_unconstructed currentFrameIndex0; world := w |}
  | Failed_to_create_swap_chain =>
    device_initialize_ok env = true ∧ command_manager_initialize_ok env = true ∧
    resource_manager_initialize_ok env = true ∧ swapchain_initialized env = false ∧
    m_frameResources (this st) = [] ∧ world st = w
  | Failed_to_initialize_frame_resources =>
    device_initialize_ok env = true ∧ command_manager_initialize_ok env = true ∧
    resource_manager_initialize_ok env = true ∧ swapchain_initialized env = true ∧
    forallb (slot_created_ok env)
      (seq 0 (sc_bufferCount (swapchain_created env))) = false
  | Failed_to_create_command_list =>
    device_initialize_ok env = true ∧ command_manager_initialize_ok env = true ∧
    resource_manager_initialize_ok env = true ∧ swapchain_initialized env = true ∧
    forallb (slot_created_ok env)
      (seq 0 (sc_bufferCount (swapchain_created env))) = true ∧
    sc_bufferCount (swapchain_created env) ≠ 0%nat ∧
    command_list_initialize_ok env = false
  end.
Proof.
  unfold construct, Renderer_ctor.
  destruct (device_initialize_ok env); cbn;
    [| intros H; injection H as <- <-; done].
  destruct (command_manager_initialize_ok env); cbn;
    [| intros H; injection H as <- <-; done].
  destruct (resource_manager_initialize_ok env); cbn;
    [| intros H; injection H as <- <-; done].
  munfold.
  destruct (swapchain_initialized env); cbn;
    [| intros H; injection H as <- <-; done].
  match goal with
  | |- context [InitializeFrameResources env ?s] => set (st1 := s)
  end.
  destruct (InitializeFrameResources_empty env st1 (swapchain_created env))
    as (st2 & Hinit & _ & _ & _ & _ & _ & _ & Hlen & _); [done | done |].
  rewrite Hinit. cbn [bind_res].
  destruct (forallb (slot_created_ok env) (seq 0 (sc_bufferCount (swapchain_created env))));
    cbn; [| intros H; injection H as <- <-; done].
  munfold.
  destruct (m_frameResources (this st2) !! 0%nat) as [frame0 |] eqn:Hl0; cbn;
    [| discriminate].
  apply lookup_lt_Some in Hl0.
  destruct (command_list_initialize_ok env); cbn; [discriminate |].
  intros H; injection H as <- <-. repeat split; (done || lia).
Qed.

(** An instance: three buffers, the fence of slot 1 failing. *)
Lemma Renderer_ctor_reports_first_failure_witness :
  ∃ st,
    construct (env_fence_fails 3 1) 0 World_empty =
      Done (Some Failed_to_initialize_frame_resources) st ∧
    forallb (slot_created_ok (env_fence_fails 3 1)) (seq 0 3) = false.
Proof.
  assert (Hrun : ∃ st, construct (env_fence_fails 3 1) 0 World_empty =
                         Done (Some Failed_to_initialize_frame_resources) st)
    by (eexists; vm_compute; reflexivity).
  destruct Hrun as [st Hrun]. exists st. split; [exact Hrun |].
  exact (proj2 (proj2 (proj2 (proj2
    (Renderer_ctor_reports_first_failure (env_fence_fails 3 1) 0 World_empty
       Failed_to_initialize_frame_resources st Hrun))))).
Defined.



(** ** Events over a lifetime *)

(** X14.  Every wait consumes the signal of its own registration.  Over
    any calls of a constructed renderer's methods and any GPU completions:
    between two calls no registration is pending and no event is signaled,
    and while the thread is parked the one pending registration is for the
    event it waits on. *)
Theorem lifetime_leaves_no_registration
    (env0 : Env) (idx0 : nat) (st0 : State) (ops : list Op) :
  construct env0 idx0 World_empty = Done None st0 →
  (∀ st, lifetime ops st0 = Done tt st →
         armed (world st) = [] ∧ signaled (world st) = ∅) ∧
  (∀ e st k, lifetime ops st0 = Park e st k →
             (∃ f v, armed (world st) = [(f, v, e)]) ∧ signaled (world st) = ∅).
Proof.
  intros Hctor.
  destruct (construct_cold _ _ _ Hctor) as (Hcold & _ & _).
  pose proof (lifetime_tidy ops st0) as Ht.
  assert (H0 : tidy (world st0))
    by (split; [apply (cold_armed _ _ Hcold) | apply (cold_signaled _ _ Hcold)]).
  specialize (Ht H0). split.
  - intros st Hrun. rewrite Hrun in Ht. exact Ht.
  - intros e st k Hrun. rewrite Hrun in Ht. destruct Ht as (Ha & Hs & _). by split.
Qed.

(** An instance: four frames of a renderer with two buffers. *)
Lemma lifetime_leaves_no_registration_witness :
  ∃ st, lifetime four_frames_two_completed two_buffers_state = Done tt st ∧
        armed (world st) = [] ∧ signaled (world st) = ∅.
Proof.
  assert (Hrun : ∃ st, lifetime four_frames_two_completed two_buffers_state = Done tt st)
    by (eexists; vm_compute; reflexivity).
  destruct Hrun as [st Hrun]. exists st. split; [exact Hrun |].
  exact (proj1 (lifetime_leaves_no_registration (env_ok 2 0) 0 two_buffers_state
                  four_frames_two_completed eq_refl) st Hrun).
Defined.
